(** * osm-map-processor: the parsing and layer-extraction engine

    A shallow embedding of [app/osm_parser.py], [app/layers.py] and the
    loading half of [app/io.py], followed by the properties of the
    specification that were checked against it.

    Conventions of the embedding.
    - A Python [dict] is an insertion-ordered association list ([PyDict]):
      iteration order is part of what the parser and the classifier do.
    - Python's [None] as a dictionary key or as the result of
      [Element.get] is [None : option string].
    - Exceptions are values of [exn]; a function that can raise returns a
      [result].
    - Data frames handed to the classifier live in a store of objects, so
      that in-place column assignment and aliasing are visible.
    - The file system, the clock, the network collaborator and the console
      form a [world] that is threaded through the loading functions, with a
      trace of every input/output operation performed. *)

From Stdlib Require Import ZArith String Ascii List Lia Bool.
From stdpp Require Import base decidable option list strings pretty.
Import ListNotations.
Set Warnings "-register-all".
Local Open Scope string_scope.
Local Open Scope list_scope.
Local Open Scope Z_scope.

(** ** Exceptions and results *)

Inductive exn :=
| ValueError (msg : string)
| TypeError
| KeyError (k : string)
| IndexError
| AttributeError
| FileNotFoundError (path : string)
| ParseError
| OSError
| NetworkError
| DanglingReference.

Inductive result (A : Type) :=
| Ok (a : A)
| Raise (e : exn).
Arguments Ok {A} a.
Arguments Raise {A} e.

Definition is_ok {A} (r : result A) : bool :=
  match r with Ok _ => true | Raise _ => false end.

Definition rbind {A B} (r : result A) (k : A -> result B) : result B :=
  match r with Ok a => k a | Raise e => Raise e end.

(** ** Computations with a state that may raise *)

Definition SE (S A : Type) : Type := S -> result A * S.

Definition ret {S A} (a : A) : SE S A := fun s => (Ok a, s).

Definition raise {S A} (e : exn) : SE S A := fun s => (Raise e, s).

Definition bind {S A B} (m : SE S A) (k : A -> SE S B) : SE S B :=
  fun s =>
    match m s with
    | (Ok a, s') => k a s'
    | (Raise e, s') => (Raise e, s')
    end.

(** A result as a computation, and a computation run under [try]. *)
Definition lift {S A} (r : result A) : SE S A := fun s => (r, s).

Definition try_ {S A} (m : SE S A) : SE S (result A) :=
  fun s => let '(r, s') := m s in (Ok r, s').

Declare Scope se_scope.
Delimit Scope se_scope with se.
Notation "x <- m ;; k" := (bind m (fun x => k))
  (at level 100, m at next level, right associativity) : se_scope.
Notation "m ;;; k" := (bind m (fun _ => k))
  (at level 100, right associativity) : se_scope.

(** A [for] loop that carries the variables it updates. *)
Fixpoint for_each {S A V} (l : list A) (v : V) (body : V -> A -> SE S V) : SE S V :=
  match l with
  | [] => ret v
  | x :: l' => bind (body v x) (fun v' => for_each l' v' body)
  end.

(** ** Python dictionaries *)

Module PyDict.
Section dict.
Context {K V : Type} `{EqDecision K}.

(** [d.get(k)] *)
Fixpoint dget (k : K) (d : list (K * V)) : option V :=
match d with
| [] => None
| (k', v) :: d' => if decide (k = k') then Some v else dget k d'
end.

(** [k in d] *)
Definition dmem (k : K) (d : list (K * V)) : bool :=
match dget k d with Some _ => true | None => false end.

(** [d[k] = v]: an existing key keeps its position, a new key goes last. *)
Fixpoint dset (k : K) (v : V) (d : list (K * V)) : list (K * V) :=
match d with
| [] => [(k, v)]
| (k', v') :: d' =>
    if decide (k = k') then (k, v) :: d' else (k', v') :: dset k v d'
end.

(** [{**d1, **d2}]: the entries of [d2] are written over [d1] in order. *)
Definition dupdate (d1 d2 : list (K * V)) : list (K * V) :=
fold_left (fun acc kv => dset (fst kv) (snd kv) acc) d2 d1.

Definition keys (d : list (K * V)) : list K := map fst d.

(** [del d[k]] *)
Definition ddel (k : K) (d : list (K * V)) : list (K * V) :=
List.filter (fun kv => negb (bool_decide (fst kv = k))) d.
End dict.
End PyDict.
Import PyDict.

(** ** Numbers read from text *)

Definition digit_of (c : ascii) : option Z :=
  let n := Z.of_nat (nat_of_ascii c) in
  if (48 <=? n) && (n <=? 57) then Some (n - 48) else None.

Fixpoint parse_digits (acc : Z) (s : string) : option Z :=
  match s with
  | EmptyString => Some acc
  | String c s' =>
      match digit_of c with
      | Some d => parse_digits (10 * acc + d) s'
      | None => None
      end
  end.

Definition parse_nat (s : string) : option Z :=
  match s with
  | EmptyString => None
  | _ => parse_digits 0 s
  end.

(** [int(s)] on a string: an optional sign and decimal digits.  (Python also
    accepts surrounding blanks and underscores between digits; documents that
    use them are read as malformed here.) *)
Definition int_of_str (s : string) : option Z :=
  match s with
  | String "-"%char s' => Z.opp <$> parse_nat s'
  | String "+"%char s' => parse_nat s'
  | _ => parse_nat s
  end.

(** [int(x)] where [x] came from [Element.get]: [None] is a [TypeError], a
    string that is not a number a [ValueError]. *)
Definition py_int (x : option string) : result Z :=
  match x with
  | None => Raise TypeError
  | Some s =>
      match int_of_str s with
      | Some z => Ok z
      | None => Raise (ValueError "invalid literal for int()")
      end
  end.

(** A float is kept as an exact decimal [mant / 10 ^ scale] without trailing
    zeros, so that equal numbers are equal records.  Rounding to binary and
    the exponent, [inf] and [nan] spellings are outside the model. *)
Record float := Float { mant : Z; scale : nat }.

Global Instance float_eq_dec : EqDecision float.
Proof. solve_decision. Defined.

Fixpoint strip_zeros (m : Z) (k : nat) : float :=
  match k with
  | O => Float m O
  | S k' => if m mod 10 =? 0 then strip_zeros (m / 10) k' else Float m k
  end.

Fixpoint split_dot (s : string) : string * option string :=
  match s with
  | EmptyString => (EmptyString, None)
  | String c s' =>
      if Ascii.eqb c "."%char then (EmptyString, Some s')
      else let '(a, b) := split_dot s' in (String c a, b)
  end.

Definition float_of_str (s : string) : option float :=
  let '(neg, body) :=
    match s with
    | String "-"%char s' => (true, s')
    | String "+"%char s' => (false, s')
    | _ => (false, s)
    end in
  let '(ip, fp) := split_dot body in
  let fp := default EmptyString fp in
  if (String.length ip + String.length fp =? 0)%nat then None
  else
    match parse_digits 0 (ip +:+ fp) with
    | Some m => Some (strip_zeros (if neg then - m else m) (String.length fp))
    | None => None
    end.

Definition py_float (x : option string) : result float :=
  match x with
  | None => Raise TypeError
  | Some s =>
      match float_of_str s with
      | Some f => Ok f
      | None => Raise (ValueError "could not convert string to float")
      end
  end.

Fixpoint zero_pad (n : nat) (s : string) : string :=
  match n with
  | O => s
  | S n' => if (String.length s <? n)%nat then zero_pad n' (String "0"%char s) else s
  end.

(** [repr] of a float: [1.5], [-0.25], [3.0].  Python switches to the
    exponent notation below [1e-4] and from [1e16] on; such numbers are
    written out in full here. *)
Definition repr_float (x : float) : string :=
  let p := 10 ^ Z.of_nat (scale x) in
  let a := Z.abs (mant x) in
  (if mant x <? 0 then "-" else "")
    +:+ pretty (a / p) +:+ "."
    +:+ (if (scale x =? 0)%nat then "0" else zero_pad (scale x) (pretty (a mod p))).

(** ** Geometry and attribute values *)

Definition coord : Type := float * float.

Inductive geometry :=
| Point (c : coord)
| LineString (cs : list coord)
| Polygon (cs : list coord)
| MultiPolygon (ps : list (list coord)).

Global Instance geometry_eq_dec : EqDecision geometry.
Proof. solve_decision. Defined.

(** [geometry.type] *)
Definition geom_type (g : geometry) : string :=
  match g with
  | Point _ => "Point"
  | LineString _ => "LineString"
  | Polygon _ => "Polygon"
  | MultiPolygon _ => "MultiPolygon"
  end.

(** What a cell of a record or of a data frame can hold.  [VNone] stands for
    both [None] and the missing-value marker of a data frame. *)
Inductive value :=
| VNone
| VStr (s : string)
| VInt (z : Z)
| VBool (b : bool)
| VGeom (g : geometry).

Global Instance value_eq_dec : EqDecision value.
Proof. solve_decision. Defined.

(** Column and attribute names; [None] is Python's [None] used as a key. *)
Definition key : Type := option string.

(** A feature record: the [dict] appended to [lines_data] and its siblings. *)
Definition record : Type := list (key * value).

(** The constructor of the geometry library's polygon either raises or
    returns an object whose [is_valid] flag can be read. *)
Inductive polygon_result :=
| PolygonRaises
| PolygonBuilt (is_valid : bool).

Class Shapely := shapely_polygon : list coord -> polygon_result.

(** ** Element trees *)

Inductive element :=
| Element (tag : string) (attrib : list (string * string)) (children : list element).

Definition etag (e : element) : string := let 'Element t _ _ := e in t.
Definition attrib (e : element) : list (string * string) := let 'Element _ a _ := e in a.
Definition children (e : element) : list element := let 'Element _ _ c := e in c.

(** [element.get(name)] *)
Definition eget (e : element) (name : string) : option string := dget name (attrib e).

(** ** The structural parser ([app/osm_parser.py]) *)

Module OSMParser.

(** [way_data = {'id': ..., 'nodes': [...], 'tags': {...}}] *)
Record way := Way {
  way_id : Z;
  way_nodes : list Z;
  way_tags : list (key * option string)
}.

(** [member_data = {'type': ..., 'ref': ..., 'role': ...}] *)
Record member := Member {
  m_type : option string;
  m_ref : Z;
  m_role : string
}.

Record relation := Relation {
  rel_id : Z;
  rel_members : list member;
  rel_tags : list (key * option string)
}.

(** The three tables of an [OSMParser] object. *)
Record parser := Parser {
  nodes : list (Z * coord);
  ways : list (Z * way);
  relations : list (Z * relation)
}.

Definition empty : parser := Parser [] [] [].

(** [_parse_node] *)
Definition _parse_node (self : parser) (node_element : element) : result parser :=
  rbind (py_int (eget node_element "id")) (fun node_id =>
  rbind (py_float (eget node_element "lat")) (fun lat =>
  rbind (py_float (eget node_element "lon")) (fun lon =>
  Ok (Parser (dset node_id (lon, lat) (nodes self)) (ways self) (relations self))))).

(** One turn of the loop over the children of a way element. *)
Definition way_child (way_data : result way) (child : element) : result way :=
  rbind way_data (fun wd =>
  if String.eqb (etag child) "nd" then
    rbind (py_int (eget child "ref")) (fun ref =>
    Ok (Way (way_id wd) (way_nodes wd ++ [ref]) (way_tags wd)))
  else if String.eqb (etag child) "tag" then
    let k := eget child "k" in
    let value := eget child "v" in
    Ok (Way (way_id wd) (way_nodes wd) (dset k value (way_tags wd)))
  else Ok wd).

(** The [way_data] built by [_parse_way] before it is stored. *)
Definition parse_way_data (way_element : element) : result way :=
  rbind (py_int (eget way_element "id")) (fun wid =>
  fold_left way_child (children way_element) (Ok (Way wid [] []))).

(** [_parse_way] *)
Definition _parse_way (self : parser) (way_element : element) : result parser :=
  rbind (parse_way_data way_element) (fun way_data =>
  Ok (Parser (nodes self) (dset (way_id way_data) way_data (ways self)) (relations self))).

(** One turn of the loop over the children of a relation element;
    [child.get('role', '')] defaults to the empty string. *)
Definition relation_child (relation_data : result relation) (child : element)
  : result relation :=
  rbind relation_data (fun rd =>
  if String.eqb (etag child) "member" then
    rbind (py_int (eget child "ref")) (fun ref =>
    let member_data := Member (eget child "type") ref (default "" (eget child "role")) in
    Ok (Relation (rel_id rd) (rel_members rd ++ [member_data]) (rel_tags rd)))
  else if String.eqb (etag child) "tag" then
    let k := eget child "k" in
    let value := eget child "v" in
    Ok (Relation (rel_id rd) (rel_members rd) (dset k value (rel_tags rd)))
  else Ok rd).

Definition parse_relation_data (relation_element : element) : result relation :=
  rbind (py_int (eget relation_element "id")) (fun rid =>
  fold_left relation_child (children relation_element) (Ok (Relation rid [] []))).

(** [_parse_relation] *)
Definition _parse_relation (self : parser) (relation_element : element) : result parser :=
  rbind (parse_relation_data relation_element) (fun relation_data =>
  Ok (Parser (nodes self) (ways self)
             (dset (rel_id relation_data) relation_data (relations self)))).

(** The dispatch of [parse_file] on one top-level element. *)
Definition parse_element (self : result parser) (e : element) : result parser :=
  rbind self (fun p =>
  if String.eqb (etag e) "node" then _parse_node p e
  else if String.eqb (etag e) "way" then _parse_way p e
  else if String.eqb (etag e) "relation" then _parse_relation p e
  else Ok p).

(** The tables after the loop of [parse_file] over the root's children
    (the tables are cleared first). *)
Definition parse_root (root : element) : result parser :=
  fold_left parse_element (children root) (Ok empty).

(** A tag value as a cell: a missing [v] attribute is [None]. *)
Definition tag_value (v : option string) : value :=
  match v with Some s => VStr s | None => VNone end.

Definition tag_cells (tags : list (key * option string)) : record :=
  map (fun kv => (fst kv, tag_value (snd kv))) tags.

(** [{'id': ident, 'geometry': geometry, **tags}] *)
Definition feature_data (ident : Z) (g : geometry) (tags : list (key * option string))
  : record :=
  dupdate [(Some "id", VInt ident); (Some "geometry", VGeom g)] (tag_cells tags).

(** The loop that fills [coordinates]: references found in the node table
    are appended in order, the others are passed over. *)
Definition coordinates_of (node_table : list (Z * coord)) (refs : list Z) : list coord :=
  fold_left
    (fun coordinates node_id =>
       match dget node_id node_table with
       | Some c => coordinates ++ [c]
       | None => coordinates
       end)
    refs [].

(** One turn of the loop over [self.ways.items()] that fills [lines_data]. *)
Definition line_step (node_table : list (Z * coord)) (lines_data : list record)
  (item : Z * way) : list record :=
  let '(wid, way_data) := item in
  if (length (way_nodes way_data) <? 2)%nat then lines_data
  else
    let coordinates := coordinates_of node_table (way_nodes way_data) in
    if (length coordinates <? 2)%nat then lines_data
    else lines_data ++ [feature_data wid (LineString coordinates) (way_tags way_data)].

Definition lines_data (self : parser) : list record :=
  fold_left (line_step (nodes self)) (ways self) [].

Section geometry_library.
Context `{Shapely}.

(** The [try] block shared by the polygon and the multipolygon loops:
    build the ring, test [is_valid], append the record.  The second
    component collects the identifiers for which a warning is logged. *)
Definition try_polygon (acc : list record * list Z) (ident : Z)
  (coordinates : list coord) (tags : list (key * option string))
  : list record * list Z :=
  match shapely_polygon coordinates with
  | PolygonRaises => (fst acc, snd acc ++ [ident])
  | PolygonBuilt false => acc
  | PolygonBuilt true =>
      (fst acc ++ [feature_data ident (Polygon coordinates) tags], snd acc)
  end.

(** One turn of the loop that fills [polygons_data]. *)
Definition polygon_step (node_table : list (Z * coord))
  (acc : list record * list Z) (item : Z * way) : list record * list Z :=
  let '(wid, way_data) := item in
  if (length (way_nodes way_data) <? 3)%nat then acc
  else if negb (bool_decide (hd_error (way_nodes way_data) = last (way_nodes way_data)))
  then acc
  else
    let coordinates := coordinates_of node_table (way_nodes way_data) in
    if (length coordinates <? 3)%nat then acc
    else try_polygon acc wid coordinates (way_tags way_data).

Definition polygons_loop (self : parser) : list record * list Z :=
  fold_left (polygon_step (nodes self)) (ways self) ([], []).

Definition polygons_data (self : parser) : list record := fst (polygons_loop self).

(** The loop over the members of one relation: [(outer_ways, inner_ways)]. *)
Definition member_step (way_table : list (Z * way))
  (acc : list way * list way) (m : member) : list way * list way :=
  if bool_decide (m_type m = Some "way") then
    match dget (m_ref m) way_table with
    | Some w =>
        if String.eqb (m_role m) "outer" then (fst acc ++ [w], snd acc)
        else if String.eqb (m_role m) "inner" then (fst acc, snd acc ++ [w])
        else acc
    | None => acc
    end
  else acc.

Definition outer_inner (way_table : list (Z * way)) (members : list member)
  : list way * list way :=
  fold_left (member_step way_table) members ([], []).

(** One turn of the loop that fills [multipolygons_data]. *)
Definition multipolygon_step (self : parser)
  (acc : list record * list Z) (item : Z * relation) : list record * list Z :=
  let '(rid, rel_data) := item in
  if negb (bool_decide (dget (Some "type") (rel_tags rel_data) = Some (Some "multipolygon")))
  then acc
  else
    let outer_ways := fst (outer_inner (ways self) (rel_members rel_data)) in
    match outer_ways with
    | [] => acc
    | outer_way :: _ =>
        if (length (way_nodes outer_way) <? 3)%nat then acc
        else
          let coordinates := coordinates_of (nodes self) (way_nodes outer_way) in
          if (length coordinates <? 3)%nat then acc
          else try_polygon acc rid coordinates (rel_tags rel_data)
    end.

Definition multipolygons_loop (self : parser) : list record * list Z :=
  fold_left (multipolygon_step self) (relations self) ([], []).

Definition multipolygons_data (self : parser) : list record :=
  fst (multipolygons_loop self).
End geometry_library.

End OSMParser.

(** ** Data frames *)

Module Frames.

(** A (geo) data frame: its column labels and its rows, each row holding
    one cell per column.  Row labels are not modelled: boolean masks are
    applied by position, which is what the table library does for a mask
    computed from the columns of the table itself. *)
Record frame := Frame {
  columns : list key;
  rows : list record
}.

(** A column taken out of a frame, or a boolean mask. *)
Definition series : Type := list value.

Definition cell (r : record) (c : key) : value := default VNone (dget c r).

Definition has_column (f : frame) (c : key) : bool := bool_decide (c ∈ columns f).

Definition column (f : frame) (c : key) : series := map (fun r => cell r c) (rows f).

(** The cells of [r] under the labels [cols], missing ones filled in. *)
Definition project (cols : list key) (r : record) : record :=
  map (fun c => (c, cell r c)) cols.

Definition add_labels (cols new : list key) : list key :=
  fold_left (fun cols k => if bool_decide (k ∈ cols) then cols else cols ++ [k]) new cols.

(** The table of a list of dictionaries: the columns are the keys in
    order of first appearance. *)
Definition of_records (recs : list record) : frame :=
  let cols := fold_left (fun cols r => add_labels cols (keys r)) recs [] in
  Frame cols (map (project cols) recs).

(** What the geometry column of a geo frame can hold: a geometry, or
    nothing. *)
Definition geometry_cell (v : value) : bool :=
  match v with
  | VGeom _ | VNone => true
  | _ => false
  end.

Definition geometries (f : frame) : bool :=
  forallb geometry_cell (column f (Some "geometry")).

(** [gpd.GeoDataFrame(list_of_dicts, crs=...)]: the constructor takes the
    column named [geometry] as the geometry of the frame when all its cells
    are geometries; when they are not, or when there is no such column, no
    geometry is set and the reference system is refused. *)
Definition geodataframe (recs : list record) : result frame :=
  let f := of_records recs in
  if has_column f (Some "geometry") && geometries f then Ok f
  else Raise (ValueError
                "Assigning CRS to a GeoDataFrame without a geometry column is not supported.").

(** [pd.concat(frames, ignore_index=True)] *)
Definition concat (fs : list frame) : frame :=
  let cols := fold_left (fun cols f => add_labels cols (columns f)) fs [] in
  Frame cols (flat_map (fun f => map (project cols) (rows f)) fs).

(** [f[mask]] *)
Definition select_mask (f : frame) (mask : list bool) : frame :=
  Frame (columns f) (map snd (List.filter fst (combine mask (rows f)))).

(** [f[cols]] *)
Definition select_columns (f : frame) (cols : list key) : frame :=
  Frame cols (map (project cols) (rows f)).

(** [f[c] = v] with a scalar [v] *)
Definition set_column (f : frame) (c : key) (v : value) : frame :=
  Frame (if has_column f c then columns f else columns f ++ [c])
        (map (dset c v) (rows f)).

(** [f.empty] *)
Definition is_empty (f : frame) : bool :=
  match rows f, columns f with
  | [], _ | _, [] => true
  | _, _ => false
  end.

Definition notna (v : value) : bool := negb (bool_decide (v = VNone)).

(** [series == s] for a string [s] *)
Definition eq_str (s : string) (v : value) : bool := bool_decide (v = VStr s).

Definition lower_ascii (c : ascii) : ascii :=
  let n := nat_of_ascii c in
  if ((65 <=? n) && (n <=? 90))%nat then ascii_of_nat (n + 32) else c.

(** [str.lower()] on the ASCII letters *)
Fixpoint str_lower (s : string) : string :=
  match s with
  | EmptyString => EmptyString
  | String c s' => String (lower_ascii c) (str_lower s')
  end.

Definition wkt_tag (g : geometry) : string :=
  match g with
  | Point _ => "POINT"
  | LineString _ => "LINESTRING"
  | Polygon _ => "POLYGON"
  | MultiPolygon _ => "MULTIPOLYGON"
  end.

(** [astype(str)] of one cell.  A geometry prints as its well-known text,
    of which only the leading type name is kept.  A number is a cell of an
    integer or object column; in a float column the library prints [1.0]
    for it, and such columns are not modelled. *)
Definition astype_str (v : value) : string :=
  match v with
  | VNone => "None"
  | VStr s => s
  | VInt z => pretty z
  | VBool true => "True"
  | VBool false => "False"
  | VGeom g => wkt_tag g +:+ " (...)"
  end.

(** [series.astype(str).str.lower().isin(["true", "yes", "1"])] *)
Definition truthy (v : value) : bool :=
  bool_decide (str_lower (astype_str v) ∈ ["true"; "yes"; "1"]).

(** [geometry.type.isin(["Polygon", "MultiPolygon"])] *)
Definition is_polygonal (v : value) : bool :=
  match v with
  | VGeom g => bool_decide (geom_type g ∈ ["Polygon"; "MultiPolygon"])
  | _ => false
  end.

(** [series.unique()]: the distinct values in order of first appearance. *)
Definition unique (s : series) : series :=
  fold_left (fun seen v => if bool_decide (v ∈ seen) then seen else seen ++ [v]) s [].

(** [a | b] on two masks *)
Definition mask_or (a b : list bool) : list bool :=
  map (fun ab => orb (fst ab) (snd ab)) (combine a b).

End Frames.
Import Frames.

(** ** The rest of [OSMParser]: the frames and the file-based bundle *)

Module OSMParserFrames.
Import OSMParser.
Section geometry_library.
Context `{Shapely}.

(** [if data: result[name] = gpd.GeoDataFrame(data, crs=...)] *)
Definition store_table (name : string) (data : list record)
  (tables : list (string * frame)) : result (list (string * frame)) :=
  match data with
  | [] => Ok tables
  | _ => rbind (geodataframe data) (fun f => Ok (dset name f tables))
  end.

(** [_to_geodataframes]: a frame is built and stored only for a non-empty
    list, in the order lines, polygons, multipolygons. *)
Definition _to_geodataframes (self : parser) : result (list (string * frame)) :=
  rbind (store_table "ways" (lines_data self) []) (fun result =>
  rbind (store_table "polygons" (polygons_data self) result) (fun result =>
  store_table "multipolygons" (multipolygons_data self) result)).

(** [parse_file] once the document has been read into an element tree. *)
Definition parse_tree (root : element) : result (list (string * frame)) :=
  rbind (parse_root root) _to_geodataframes.
End geometry_library.
End OSMParserFrames.

(** ** The object store *)

Module Store.

(** References are positions in the store. *)
Abbreviation addr := nat (only parsing).

(** The objects the classifier can meet behind a reference. *)
Inductive obj :=
| OFrame (geo : bool) (f : frame)       (* a DataFrame; [geo] for a GeoDataFrame *)
| OGraph (edges : frame)                (* a road graph, seen through its edge table *)
| ODict (d : list (string * addr)).     (* a bundle: names to references *)

Abbreviation store := (list obj) (only parsing).

(** Computations that read and update the store and may raise. *)
Definition M (A : Type) : Type := SE store A.
Local Open Scope se_scope.

Definition alloc (o : obj) : M addr := fun h => (Ok (length h), h ++ [o]).

Definition deref (a : addr) : M obj :=
  fun h =>
    match h !! a with
    | Some o => (Ok o, h)
    | None => (Raise DanglingReference, h)
    end.

Definition assign (a : addr) (o : obj) : M unit := fun h => (Ok tt, <[a := o]> h).

(** *** The data-frame operations used by the classifier *)

Definition get_frame (a : addr) : M (bool * frame) :=
  o <- deref a ;;
  match o with
  | OFrame geo f => ret (geo, f)
  | _ => raise AttributeError
  end.

Definition get_dict (a : addr) : M (list (string * addr)) :=
  o <- deref a ;;
  match o with
  | ODict d => ret d
  | _ => raise TypeError
  end.

(** [isinstance(x, gpd.GeoDataFrame)] *)
Definition is_geodataframe (a : addr) : M bool :=
  o <- deref a ;;
  match o with
  | OFrame geo _ => ret geo
  | _ => ret false
  end.

(** [gpd.GeoDataFrame(x, geometry="geometry", crs=...)]: a new object;
    the column must exist and hold geometries. *)
Definition to_geodataframe (a : addr) : M addr :=
  gf <- get_frame a ;;
  if has_column (snd gf) (Some "geometry") then
    if geometries (snd gf) then alloc (OFrame true (snd gf))
    else raise TypeError
  else raise (ValueError "Unknown column geometry").

(** [ox.graph_to_gdfs(G, nodes=False, edges=True)]: a new frame of edges;
    a graph without edges is refused. *)
Definition graph_to_gdfs (g : addr) : M addr :=
  o <- deref g ;;
  match o with
  | OGraph edges =>
      match rows edges with
      | [] => raise (ValueError "Graph contains no edges")
      | _ => alloc (OFrame true edges)
      end
  | _ => raise AttributeError
  end.

(** [x.columns] *)
Definition get_columns (a : addr) : M (list key) :=
  gf <- get_frame a ;; ret (columns (snd gf)).

(** [x.empty] *)
Definition get_empty (a : addr) : M bool :=
  gf <- get_frame a ;; ret (is_empty (snd gf)).

(** [len(x)] *)
Definition get_len (a : addr) : M nat :=
  gf <- get_frame a ;; ret (length (rows (snd gf))).

(** [x[c]] for one label *)
Definition getitem (a : addr) (c : string) : M series :=
  gf <- get_frame a ;;
  if has_column (snd gf) (Some c) then ret (column (snd gf) (Some c))
  else raise (KeyError c).

(** [x.geometry] *)
Definition get_geometry (a : addr) : M series :=
  gf <- get_frame a ;;
  if has_column (snd gf) (Some "geometry") then ret (column (snd gf) (Some "geometry"))
  else raise AttributeError.

(** [x.get(c, default)] *)
Definition get_or (a : addr) (c : string) (dflt : series) : M series :=
  gf <- get_frame a ;;
  ret (if has_column (snd gf) (Some c) then column (snd gf) (Some c) else dflt).

(** [x[mask]]: a new frame *)
Definition getitem_mask (a : addr) (mask : list bool) : M addr :=
  gf <- get_frame a ;; alloc (OFrame (fst gf) (select_mask (snd gf) mask)).

(** [x[cols]]: a new frame; a missing label is a [KeyError] *)
Definition getitem_cols (a : addr) (cols : list string) : M addr :=
  gf <- get_frame a ;;
  match List.filter (fun c => negb (has_column (snd gf) (Some c))) cols with
  | [] => alloc (OFrame (fst gf) (select_columns (snd gf) (map Some cols)))
  | c :: _ => raise (KeyError c)
  end.

(** [x.copy()] *)
Definition copy (a : addr) : M addr :=
  gf <- get_frame a ;; alloc (OFrame (fst gf) (snd gf)).

(** [x[c] = v]: the frame behind [x] is updated in place. *)
Definition setitem (a : addr) (c : string) (v : value) : M unit :=
  gf <- get_frame a ;; assign a (OFrame (fst gf) (set_column (snd gf) (Some c) v)).

End Store.

(** ** The layer classifier ([app/layers.py]) *)

Module Layers.
Import Store.
Local Open Scope se_scope.

Record ExtractedLayers := Extracted {
  roads : option addr;
  buildings : option addr;
  amenities : list (string * addr);
  pois : list (string * addr);
  waterways : option addr;
  landuse : list (string * addr)
}.

(** [[c for c in allow if c in columns]] *)
Definition keep (allow : list string) (cols : list key) : list string :=
  List.filter (fun c => bool_decide (Some c ∈ cols)) allow.

(** [x[keep_cols + ["geometry"]] if keep_cols else x[fallback]] *)
Definition select_kept (x : addr) (keep_cols fallback : list string) : M addr :=
  getitem_cols x (match keep_cols with [] => fallback | _ => keep_cols ++ ["geometry"] end).

(** Roads: only a bundle with a ["roads_graph"] entry yields a layer. *)
Definition extract_roads (osm_bundle : list (string * addr)) : M (option addr) :=
  match dget "roads_graph" osm_bundle with
  | Some g =>
      roads <- graph_to_gdfs g ;;
      cols <- get_columns roads ;;
      let keep_cols := keep ["highway"; "name"; "oneway"; "length"; "maxspeed"] cols in
      roads <- select_kept roads keep_cols ["geometry"] ;;
      ret (Some roads)
  | None => ret None
  end.

(** Buildings *)
Definition extract_buildings (osm_bundle : list (string * addr)) : M (option addr) :=
  match dget "buildings" osm_bundle with
  | Some b =>
      geo <- is_geodataframe b ;;
      b <- (if geo then ret b else to_geodataframe b) ;;
      g <- get_geometry b ;;
      b <- getitem_mask b (map notna g) ;;
      g <- get_geometry b ;;
      buildings <- getitem_mask b (map is_polygonal g) ;;
      buildings <- copy buildings ;;
      cols <- get_columns buildings ;;
      let keep_cols := keep ["building"; "name"; "levels"; "height"] cols in
      buildings <- select_kept buildings keep_cols ["geometry"] ;;
      ret (Some buildings)
  | None => ret None
  end.

(** The opening lines of the three blocks that read ["pois"]: wrap the
    object if it is not a geo frame, drop the rows without geometry, copy. *)
Definition pois_frame (p : addr) : M addr :=
  geo <- is_geodataframe p ;;
  p <- (if geo then ret p else to_geodataframe p) ;;
  g <- get_geometry p ;;
  p <- getitem_mask p (map notna g) ;;
  copy p.

(** The body of [for a in wanted_amenities] *)
Definition amenity_step (p : addr) (amenities : list (string * addr)) (a : string)
  : M (list (string * addr)) :=
  s <- getitem p "amenity" ;;
  subset <- getitem_mask p (map (eq_str a) s) ;;
  subset <- copy subset ;;
  e <- get_empty subset ;;
  if negb e then
    cols <- get_columns subset ;;
    r <- getitem_cols subset
           (if bool_decide (Some "name" ∈ cols) then ["amenity"; "name"; "geometry"]
            else ["amenity"; "geometry"]) ;;
    ret (dset a r amenities)
  else ret amenities.

(** The body of [for key in wanted_pois].  In the fallback the default of
    [p.get] is a series with row labels of its own, [0 .. len(p) - 1]; the
    masks are combined and applied by position here, which is what the
    library does when the table has both columns (the defaults are then
    not used) or when its row labels are [0 .. len(p) - 1] as well.  For
    other tables the library aligns by label and may raise. *)
Definition poi_step (p : addr) (pois : list (string * addr)) (key : string)
  : M (list (string * addr)) :=
  cols <- get_columns p ;;
  if bool_decide (Some key ∈ cols) then
    s <- getitem p key ;;
    subset <- getitem_mask p (map truthy s) ;;
    subset <- copy subset ;;
    e <- get_empty subset ;;
    if negb e then
      r <- getitem_cols subset [key; "geometry"] ;;
      ret (dset key r pois)
    else ret pois
  else
    n <- get_len p ;;
    am <- get_or p "amenity" (repeat VNone n) ;;
    n <- get_len p ;;
    sh <- get_or p "shop" (repeat VNone n) ;;
    let m := mask_or (map (eq_str key) am) (map (eq_str key) sh) in
    subset <- getitem_mask p m ;;
    subset <- copy subset ;;
    e <- get_empty subset ;;
    if negb e then
      setitem subset "label" (VStr key) ;;;
      r <- getitem_cols subset ["label"; "geometry"] ;;
      ret (dset key r pois)
    else ret pois.

(** Amenities & POIs *)
Definition extract_amenities_pois (osm_bundle : list (string * addr))
  (wanted_amenities wanted_pois : list string)
  : M (list (string * addr) * list (string * addr)) :=
  match dget "pois" osm_bundle with
  | Some p =>
      p <- pois_frame p ;;
      cols <- get_columns p ;;
      amenities <- (if bool_decide (Some "amenity" ∈ cols)
                    then for_each wanted_amenities [] (amenity_step p)
                    else ret []) ;;
      pois <- for_each wanted_pois [] (poi_step p) ;;
      ret (amenities, pois)
  | None => ret ([], [])
  end.

(** Waterways *)
Definition extract_waterways (osm_bundle : list (string * addr)) : M (option addr) :=
  match dget "pois" osm_bundle with
  | Some p =>
      p <- pois_frame p ;;
      cols <- get_columns p ;;
      if bool_decide (Some "waterway" ∈ cols) then
        s <- getitem p "waterway" ;;
        waterways_subset <- getitem_mask p (map notna s) ;;
        waterways_subset <- copy waterways_subset ;;
        e <- get_empty waterways_subset ;;
        if negb e then
          cols <- get_columns waterways_subset ;;
          let keep_cols := keep ["waterway"; "name"; "width"; "tunnel"; "bridge"] cols in
          r <- select_kept waterways_subset keep_cols ["waterway"; "geometry"] ;;
          ret (Some r)
        else ret None
      else ret None
  | None => ret None
  end.

(** The body of [for landuse_type in landuse_data["landuse"].unique()] *)
Definition landuse_step (landuse_data : addr) (landuse : list (string * addr))
  (landuse_type : value) : M (list (string * addr)) :=
  if notna landuse_type then
    s <- getitem landuse_data "landuse" ;;
    subset <- getitem_mask landuse_data (map (fun v => bool_decide (v = landuse_type)) s) ;;
    subset <- copy subset ;;
    e <- get_empty subset ;;
    if negb e then
      cols <- get_columns subset ;;
      let keep_cols := keep ["landuse"; "name"; "area"] cols in
      r <- select_kept subset keep_cols ["landuse"; "geometry"] ;;
      ret (dset (astype_str landuse_type) r landuse)
    else ret landuse
  else ret landuse.

(** Landuse *)
Definition extract_landuse (osm_bundle : list (string * addr)) : M (list (string * addr)) :=
  match dget "pois" osm_bundle with
  | Some p =>
      p <- pois_frame p ;;
      cols <- get_columns p ;;
      if bool_decide (Some "landuse" ∈ cols) then
        s <- getitem p "landuse" ;;
        landuse_data <- getitem_mask p (map notna s) ;;
        landuse_data <- copy landuse_data ;;
        e <- get_empty landuse_data ;;
        if negb e then
          s <- getitem landuse_data "landuse" ;;
          for_each (unique s) [] (landuse_step landuse_data)
        else ret []
      else ret []
  | None => ret []
  end.

(** [extract_layers]: the blocks run in the order of the source. *)
Definition extract_layers (osm_bundle : addr) (wanted_amenities wanted_pois : list string)
  : M ExtractedLayers :=
  bundle <- get_dict osm_bundle ;;
  roads <- extract_roads bundle ;;
  buildings <- extract_buildings bundle ;;
  ap <- extract_amenities_pois bundle wanted_amenities wanted_pois ;;
  waterways <- extract_waterways bundle ;;
  landuse <- extract_landuse bundle ;;
  ret (Extracted roads buildings (fst ap) (snd ap) waterways landuse).

End Layers.

(** ** [hashlib.md5(data).hexdigest()] *)

Module MD5.

Definition w32 (x : Z) : Z := x mod 2 ^ 32.

Definition rotl (x c : Z) : Z :=
  Z.lor (w32 (Z.shiftl x c)) (Z.shiftr x (32 - c)).

Definition not32 (x : Z) : Z := Z.lxor x (2 ^ 32 - 1).

Definition shifts : list Z :=
  [7; 12; 17; 22; 7; 12; 17; 22; 7; 12; 17; 22; 7; 12; 17; 22;
   5; 9; 14; 20; 5; 9; 14; 20; 5; 9; 14; 20; 5; 9; 14; 20;
   4; 11; 16; 23; 4; 11; 16; 23; 4; 11; 16; 23; 4; 11; 16; 23;
   6; 10; 15; 21; 6; 10; 15; 21; 6; 10; 15; 21; 6; 10; 15; 21].

(** [floor(2^32 * abs(sin(i + 1)))] for [i = 0 .. 63] *)
Definition sines : list Z :=
  [3614090360; 3905402710; 606105819; 3250441966; 4118548399; 1200080426; 2821735955; 4249261313;
   1770035416; 2336552879; 4294925233; 2304563134; 1804603682; 4254626195; 2792965006; 1236535329;
   4129170786; 3225465664; 643717713; 3921069994; 3593408605; 38016083; 3634488961; 3889429448;
   568446438; 3275163606; 4107603335; 1163531501; 2850285829; 4243563512; 1735328473; 2368359562;
   4294588738; 2272392833; 1839030562; 4259657740; 2763975236; 1272893353; 4139469664; 3200236656;
   681279174; 3936430074; 3572445317; 76029189; 3654602809; 3873151461; 530742520; 3299628645;
   4096336452; 1126891415; 2878612391; 4237533241; 1700485571; 2399980690; 4293915773; 2240044497;
   1873313359; 4264355552; 2734768916; 1309151649; 4149444226; 3174756917; 718787259; 3951481745].

Definition bytes_of (s : string) : list Z :=
  map (fun c => Z.of_nat (nat_of_ascii c)) (list_ascii_of_string s).

(** [n] as [k] little-endian bytes *)
Fixpoint le_bytes (k : nat) (n : Z) : list Z :=
  match k with
  | O => []
  | S k' => n mod 256 :: le_bytes k' (n / 256)
  end.

(** The message, the bit [1], zeros up to 56 modulo 64, the bit length. *)
Definition pad (msg : list Z) : list Z :=
  let len := Z.of_nat (length msg) in
  let zeros := Z.to_nat ((55 - len) mod 64) in
  msg ++ [128] ++ repeat 0 zeros ++ le_bytes 8 (8 * len mod 2 ^ 64).

Fixpoint le_words (k : nat) (bs : list Z) : list Z :=
  match k with
  | O => []
  | S k' =>
      match bs with
      | b0 :: b1 :: b2 :: b3 :: bs' =>
          (b0 + 256 * (b1 + 256 * (b2 + 256 * b3))) :: le_words k' bs'
      | _ => []
      end
  end.

Definition mix (i b c d : Z) : Z * Z :=
  if i <? 16 then (Z.lor (Z.land b c) (Z.land (not32 b) d), i)
  else if i <? 32 then (Z.lor (Z.land d b) (Z.land (not32 d) c), (5 * i + 1) mod 16)
  else if i <? 48 then (Z.lxor (Z.lxor b c) d, (3 * i + 5) mod 16)
  else (Z.lxor c (Z.lor b (not32 d)), (7 * i) mod 16).

Definition at_ (l : list Z) (i : Z) : Z := nth (Z.to_nat i) l 0.

Definition round (m : list Z) (st : Z * Z * Z * Z) (i : Z) : Z * Z * Z * Z :=
  let '(a, b, c, d) := st in
  let '(f, g) := mix i b c d in
  let f := w32 (f + a + at_ sines i + at_ m g) in
  (d, w32 (b + rotl f (at_ shifts i)), b, c).

Definition block (st : Z * Z * Z * Z) (chunk : list Z) : Z * Z * Z * Z :=
  let '(a0, b0, c0, d0) := st in
  let m := le_words 16 chunk in
  let '(a, b, c, d) := fold_left (round m) (map Z.of_nat (seq 0 64)) st in
  (w32 (a0 + a), w32 (b0 + b), w32 (c0 + c), w32 (d0 + d)).

Fixpoint blocks (n : nat) (st : Z * Z * Z * Z) (bs : list Z) : Z * Z * Z * Z :=
  match n with
  | O => st
  | S n' => blocks n' (block st (firstn 64 bs)) (skipn 64 bs)
  end.

Definition hex_digit (n : Z) : ascii :=
  if n <? 10 then ascii_of_nat (Z.to_nat (48 + n)) else ascii_of_nat (Z.to_nat (87 + n)).

Definition hex_byte (b : Z) : string :=
  String (hex_digit (b / 16)) (String (hex_digit (b mod 16)) EmptyString).

Definition hexdigest (s : string) : string :=
  let bs := pad (bytes_of s) in
  let '(a, b, c, d) :=
    blocks (length bs / 64) (1732584193, 4023233417, 2562383102, 271733878) bs in
  String.concat "" (map hex_byte (le_bytes 4 a ++ le_bytes 4 b ++ le_bytes 4 c ++ le_bytes 4 d)).

End MD5.

(** ** Loading and caching ([app/io.py]) *)

Module IO.
Import OSMParserFrames.
Local Open Scope se_scope.

(** What a bundle maps a name to: a geo data frame or a road graph. *)
Inductive bobj :=
| BFrame (f : frame)
| BGraph (edges : frame).

Definition bundle : Type := list (string * bobj).

(** A file holds a document (the element tree it parses to, or nothing
    when it is not well formed) or a pickled bundle (or bytes that do not
    unpickle).  The pickle of an object that is not a bundle is not part of
    the model. *)
Inductive content :=
| Document (tree : option element)
| Pickle (data : option bundle).

(** Timestamps are whole seconds. *)
Record file := File { f_mtime : Z; f_content : content }.

(** The requests made to the network collaborator. *)
Inductive query :=
| GraphFromBbox (north south east west : float)
| GeometriesFromBbox (north south east west : float) (tag : string)
| GraphFromPlace (place : string)
| GeometriesFromPlace (place : string) (tag : string).

Inductive event :=
| EExists (path : string)
| EStat (path : string)
| ERead (path : string)
| EWrite (path : string)
| EUnlink (path : string)
| EMkdir (path : string)
| ETime
| EParse (path : string)
| EFetch (q : query)
| EPrint (line : string).

Record world := World {
  cwd : string;
  files : list (string * file);       (* by absolute path *)
  clock : Z;
  readonly : list string;             (* absolute paths that cannot be written *)
  service : query -> option frame;    (* the answers of the network collaborator *)
  trace : list event
}.

Definition IO (A : Type) : Type := SE world A.

Definition log (e : event) : IO unit :=
  fun w => (Ok tt, World (cwd w) (files w) (clock w) (readonly w) (service w) (trace w ++ [e])).

Definition get_world : IO world := fun w => (Ok w, w).

Definition set_files (fs : list (string * file)) : IO unit :=
  fun w => (Ok tt, World (cwd w) fs (clock w) (readonly w) (service w) (trace w)).

Definition is_abs (p : string) : bool :=
  match p with String "/"%char _ => true | _ => false end.

(** A relative path is taken from the working directory [wd]. *)
Definition abspath (wd : string) (p : string) : string :=
  if is_abs p then p else wd +:+ "/" +:+ p.

(** [Path(d) / name] *)
Definition join (d name : string) : string := d +:+ "/" +:+ name.

(** [Path(p).exists()] *)
Definition path_exists (p : string) : IO bool :=
  w <- get_world ;;
  log (EExists (abspath (cwd w) p)) ;;;
  ret (dmem (abspath (cwd w) p) (files w)).

(** [Path(p).stat().st_mtime] *)
Definition stat_mtime (p : string) : IO Z :=
  w <- get_world ;;
  log (EStat (abspath (cwd w) p)) ;;;
  match dget (abspath (cwd w) p) (files w) with
  | Some f => ret (f_mtime f)
  | None => raise (FileNotFoundError p)
  end.

(** [Path(p).unlink()] *)
Definition unlink (p : string) : IO unit :=
  w <- get_world ;;
  log (EUnlink (abspath (cwd w) p)) ;;;
  if dmem (abspath (cwd w) p) (files w) then set_files (ddel (abspath (cwd w) p) (files w))
  else raise (FileNotFoundError p).

Definition read_file (p : string) : IO content :=
  w <- get_world ;;
  log (ERead (abspath (cwd w) p)) ;;;
  match dget (abspath (cwd w) p) (files w) with
  | Some f => ret (f_content f)
  | None => raise (FileNotFoundError p)
  end.

Definition write_file (p : string) (c : content) : IO unit :=
  w <- get_world ;;
  log (EWrite (abspath (cwd w) p)) ;;;
  if bool_decide (abspath (cwd w) p ∈ readonly w) then raise OSError
  else set_files (dset (abspath (cwd w) p) (File (clock w) c) (files w)).

(** [Path(p).mkdir(parents=True, exist_ok=True)]; directories are not
    part of the model, and the call is taken to succeed (it fails when a
    regular file stands where the directory or one of its parents should
    be). *)
Definition mkdir (p : string) : IO unit :=
  w <- get_world ;; log (EMkdir (abspath (cwd w) p)).

(** [time.time()] *)
Definition time : IO Z :=
  w <- get_world ;; log ETime ;;; ret (clock w).

Definition print (line : string) : IO unit := log (EPrint line).

Definition fetch (q : query) : IO frame :=
  w <- get_world ;;
  log (EFetch q) ;;;
  match service w q with
  | Some f => ret f
  | None => raise NetworkError
  end.

(** Truth values of the optional arguments: [None], the empty string and
    the empty tuple count as absent. *)
Definition given_str (x : option string) : option string :=
  match x with
  | Some EmptyString | None => None
  | Some s => Some s
  end.

Definition given_tuple (x : option (list float)) : option (list float) :=
  match x with
  | Some [] | None => None
  | Some t => Some t
  end.

(** [str] of a timestamp and of a tuple of floats *)
Definition repr_time (t : Z) : string := pretty t +:+ ".0".

Definition repr_tuple (t : list float) : string :=
  match t with
  | [x] => "(" +:+ repr_float x +:+ ",)"
  | _ => "(" +:+ String.concat ", " (map repr_float t) +:+ ")"
  end.

(** [_get_cache_key] *)
Definition _get_cache_key (bbox : option (list float)) (place osm_file : option string)
  : IO string :=
  key_data <-
    match given_str osm_file with
    | Some osm_file =>
        e <- path_exists osm_file ;;
        if e then
          mtime <- stat_mtime osm_file ;;
          ret (osm_file +:+ ":" +:+ repr_time mtime)
        else ret osm_file
    | None =>
        match given_tuple bbox with
        | Some bbox => ret ("bbox:" +:+ repr_tuple bbox)
        | None =>
            match given_str place with
            | Some place => ret ("place:" +:+ place)
            | None => raise (ValueError "No input specified")
            end
        end
    end ;;
  ret (MD5.hexdigest key_data).

(** [_load_from_cache]; [(now - mtime) / 3600 > ttl_hours] is compared
    without dividing. *)
Definition _load_from_cache (cache_key cache_dir : string) (ttl_hours : Z)
  : IO (option bundle) :=
  let cache_file := join cache_dir (cache_key +:+ ".pkl") in
  e <- path_exists cache_file ;;
  if negb e then ret None
  else
    now <- time ;;
    mtime <- stat_mtime cache_file ;;
    if 3600 * ttl_hours <? now - mtime then
      unlink cache_file ;;; ret None
    else
      r <- try_ (read_file cache_file) ;;
      match r with
      | Ok (Pickle (Some data)) => ret (Some data)
      | _ => unlink cache_file ;;; ret None
      end.

(** [str(e)] for the errors that can reach the warning of
    [_save_to_cache]; the text of an operating-system error is the
    system's, of which only a typical one is given. *)
Definition str_exn (e : exn) : string :=
  match e with
  | ValueError msg => msg
  | KeyError k => "'" +:+ k +:+ "'"
  | FileNotFoundError path => "[Errno 2] No such file or directory: '" +:+ path +:+ "'"
  | OSError => "[Errno 13] Permission denied"
  | _ => ""
  end.

(** [_save_to_cache]; the directory is made outside the [try]. *)
Definition _save_to_cache (data : bundle) (cache_key cache_dir : string) : IO unit :=
  let cache_file := join cache_dir (cache_key +:+ ".pkl") in
  mkdir cache_dir ;;;
  r <- try_ (write_file cache_file (Pickle (Some data))) ;;
  match r with
  | Ok _ => ret tt
  | Raise e => print ("Warning: Failed to save cache: " +:+ str_exn e)
  end.

Definition filter_notna (f : frame) (c : string) : frame :=
  select_mask f (map notna (column f (Some c))).

(** The file branch of [load_osm] after the parse: the frames of the
    parser are filed under ["roads"], ["buildings"] and ["pois"]. *)
Definition bundle_of_osm_data (osm_data : list (string * frame)) : result bundle :=
  let result := [] in
  rbind
    match dget "ways" osm_data with
    | Some roads_ways =>
        let roads_ways :=
          if has_column roads_ways (Some "highway") then filter_notna roads_ways "highway"
          else roads_ways in
        let result := dset "roads" (BFrame roads_ways) result in
        match dget "polygons" osm_data with
        | None => Raise (KeyError "polygons")
        | Some polygons =>
            if has_column polygons (Some "building") then
              Ok (dset "buildings" (BFrame (filter_notna polygons "building")) result)
            else if has_column roads_ways (Some "building") then
              Ok (dset "buildings" (BFrame (filter_notna roads_ways "building")) result)
            else Ok result
        end
    | None => Ok result
    end
    (fun result =>
       let pois_data :=
         fold_left
           (fun pois_data geom_type =>
              match dget geom_type osm_data with
              | Some gdf =>
                  if has_column gdf (Some "amenity")
                  then pois_data ++ [filter_notna gdf "amenity"]
                  else pois_data
              | None => pois_data
              end)
           ["ways"; "polygons"; "multipolygons"] [] in
       match pois_data with
       | [] => Ok result
       | _ => Ok (dset "pois" (BFrame (concat pois_data)) result)
       end).

(** [t[i]] on a tuple *)
Definition tuple_get (t : list float) (i : nat) : IO float :=
  match t !! i with
  | Some x => ret x
  | None => raise IndexError
  end.

Section geometry_library.
Context `{Shapely}.

(** [load_osm_file]: one parse call. *)
Definition load_osm_file (osm_file_path : string) : IO (list (string * frame)) :=
  log (EParse osm_file_path) ;;;
  e <- path_exists osm_file_path ;;
  if negb e then raise (FileNotFoundError osm_file_path)
  else
    c <- read_file osm_file_path ;;
    match c with
    | Document (Some root) => lift (parse_tree root)
    | _ => raise ParseError
    end.

(** [load_osm] *)
Definition load_osm (bbox : option (list float)) (place osm_file : option string)
  : IO bundle :=
  match given_str osm_file with
  | Some osm_file =>
      osm_data <- load_osm_file osm_file ;;
      lift (bundle_of_osm_data osm_data)
  | None =>
      match given_tuple bbox with
      | Some bbox =>
          n <- tuple_get bbox 3 ;;
          s <- tuple_get bbox 1 ;;
          e <- tuple_get bbox 2 ;;
          w <- tuple_get bbox 0 ;;
          G <- fetch (GraphFromBbox n s e w) ;;
          let result := dset "roads_graph" (BGraph G) [] in
          n <- tuple_get bbox 3 ;;
          s <- tuple_get bbox 1 ;;
          e <- tuple_get bbox 2 ;;
          w <- tuple_get bbox 0 ;;
          buildings <- fetch (GeometriesFromBbox n s e w "building") ;;
          let result := dset "buildings" (BFrame buildings) result in
          n <- tuple_get bbox 3 ;;
          s <- tuple_get bbox 1 ;;
          e <- tuple_get bbox 2 ;;
          w <- tuple_get bbox 0 ;;
          pois <- fetch (GeometriesFromBbox n s e w "amenity") ;;
          let result := dset "pois" (BFrame pois) result in
          ret result
      | None =>
          match given_str place with
          | Some place =>
              G <- fetch (GraphFromPlace place) ;;
              let result := dset "roads_graph" (BGraph G) [] in
              buildings <- fetch (GeometriesFromPlace place "building") ;;
              let result := dset "buildings" (BFrame buildings) result in
              pois <- fetch (GeometriesFromPlace place "amenity") ;;
              let result := dset "pois" (BFrame pois) result in
              ret result
          | None => raise (ValueError "Either bbox, place, or osm_file must be provided.")
          end
      end
  end.

(** [load_osm_cached] *)
Definition load_osm_cached (bbox : option (list float)) (place osm_file : option string)
  (cache_enabled : bool) (cache_dir : string) (ttl_hours : Z) : IO bundle :=
  cached_data <-
    (if cache_enabled then
       cache_key <- _get_cache_key bbox place osm_file ;;
       cached_data <- _load_from_cache cache_key cache_dir ttl_hours ;;
       match cached_data with
       | Some data =>
           print ("[i] Loaded OSM data from cache: " +:+ cache_key) ;;;
           ret (Some data)
       | None => ret None
       end
     else ret None) ;;
  match cached_data with
  | Some data => ret data
  | None =>
      data <- load_osm bbox place osm_file ;;
      (if cache_enabled then
         cache_key <- _get_cache_key bbox place osm_file ;;
         _save_to_cache data cache_key cache_dir ;;;
         print ("[i] Cached OSM data: " +:+ cache_key)
       else ret tt) ;;;
      ret data
  end.
End geometry_library.

(** The number of parse calls recorded in a trace. *)
Definition parse_calls (t : list event) : nat :=
  length (List.filter (fun e => match e with EParse _ => true | _ => false end) t).

End IO.

(** ** Exporting tables ([app/io.py]) *)

Module GeoExport.

(** A path as [pathlib] holds it: the directory and the final component. *)
Record path := Path { parent : string; name : string }.

(** The final component cut at its last dot ([name.rfind('.')]): what is
    before the dot and what is after it. *)
Fixpoint rsplit_dot (s : string) : option (string * string) :=
  match s with
  | EmptyString => None
  | String c s' =>
      match rsplit_dot s' with
      | Some (before, after) => Some (String c before, after)
      | None => if Ascii.eqb c "." then Some (EmptyString, s') else None
      end
  end.

(** [path.suffix]: the name from its last dot on, unless that dot is the
    first or the last character of the name. *)
Definition suffix (p : path) : string :=
  match rsplit_dot (name p) with
  | Some (String _ _, String c after) => String "." (String c after)
  | _ => EmptyString
  end.

(** [path.stem]: the name without its suffix. *)
Definition stem (p : path) : string :=
  match rsplit_dot (name p) with
  | Some (String c before, String _ _) => String c before
  | _ => name p
  end.

Fixpoint has_sep (s : string) : bool :=
  match s with
  | EmptyString => false
  | String c s' => Ascii.eqb c "/" || has_sep s'
  end.

(** [path.with_suffix(s)]: the suffix must be empty or a dot followed by
    something, without a separator, and the name must not be empty. *)
Definition with_suffix (p : path) (s : string) : result path :=
  if has_sep s then Raise (ValueError "Invalid suffix")
  else if match s with
          | EmptyString => false
          | String "."%char EmptyString => true
          | String "."%char _ => false
          | _ => true
          end
  then Raise (ValueError "Invalid suffix")
  else if String.eqb (name p) "" then Raise (ValueError "has an empty name")
  else Ok (Path (parent p) (stem p +:+ s)).

(** What an export does to the file system, in order. *)
Inductive action :=
| Mkdir (dir : string)
| ToFile (gdf : frame) (p : path) (driver : string) (layer : option string)
| ToParquet (gdf : frame) (p : path).

Definition E (A : Type) : Type := SE (list action) A.

Definition act (a : action) : E unit := fun done => (Ok tt, done ++ [a]).

Local Open Scope se_scope.

(** [export_geodataframe]; the writers of the table library are taken to
    succeed, so that a run of the model shows what the function has done
    when it returns. *)
Definition export_geodataframe (gdf : frame) (p : path) (format : string) : E unit :=
  act (Mkdir (parent p)) ;;;
  let format := str_lower format in
  if String.eqb format "geojson" then
    act (ToFile gdf p "GeoJSON" None)
  else if String.eqb format "geopackage" then
    p <- (if negb (String.eqb (suffix p) ".gpkg") then lift (with_suffix p ".gpkg")
          else ret p) ;;
    act (ToFile gdf p "GPKG" (Some (stem p)))
  else if String.eqb format "parquet" then
    p <- (if negb (String.eqb (suffix p) ".parquet") then lift (with_suffix p ".parquet")
          else ret p) ;;
    act (ToParquet gdf p)
  else raise (ValueError ("Unsupported format: " +:+ format)).

(** [export_geodataframe_multi] *)
Definition export_geodataframe_multi (gdf : frame) (base_path : path)
  (formats : list string) : E unit :=
  for_each formats tt (fun _ format =>
    if String.eqb (str_lower format) "geojson" then
      p <- lift (with_suffix base_path ".geojson") ;;
      export_geodataframe gdf p "geojson"
    else if String.eqb (str_lower format) "geopackage" then
      p <- lift (with_suffix base_path ".gpkg") ;;
      export_geodataframe gdf p "geopackage"
    else if String.eqb (str_lower format) "parquet" then
      p <- lift (with_suffix base_path ".parquet") ;;
      export_geodataframe gdf p "parquet"
    else ret tt).

End GeoExport.

(** * Vocabulary of the properties *)

Module ParserSpec.
Import OSMParser.

(** The coordinates a list of references resolves to: the references that
    are in the node table, in order. *)
Definition resolved (node_table : list (Z * coord)) (refs : list Z) : list coord :=
  omap (fun r => dget r node_table) refs.

(** The lines produced from a list of ways. *)
Definition lines_from (node_table : list (Z * coord)) (l : list (Z * way)) : list record :=
  fold_left (line_step node_table) l [].

Section geometry_library.
Context `{Shapely}.

Definition polygons_from (node_table : list (Z * coord)) (l : list (Z * way))
  : list record :=
  fst (fold_left (polygon_step node_table) l ([], [])).

Definition multipolygons_from (self : parser) (l : list (Z * relation)) : list record :=
  fst (fold_left (multipolygon_step self) l ([], [])).

(** The ways that the member loop collects as outer ways: the ways in
    the table that a member of kind way with role [outer] refers to. *)
Definition outer_ways_of (way_table : list (Z * way)) (members : list member)
  : list way :=
  omap (fun m =>
          if bool_decide (m_type m = Some "way" /\ m_role m = "outer")
          then dget (m_ref m) way_table else None)
       members.

End geometry_library.

(** The element [e] with its children replaced. *)
Definition with_children (e : element) (cs : list element) : element :=
  Element (etag e) (attrib e) cs.



(** A geometry library for the examples: every ring is built and valid. *)
Definition any_ring_valid : Shapely := fun _ => PolygonBuilt true.

(** A point with whole coordinates. *)
Definition pt (x y : Z) : coord := (Float x 0, Float y 0).

End ParserSpec.

Module IOSpec.
Import IO.

(** The world [dt] seconds later. *)
Definition advance (dt : Z) (w : world) : world :=
  World (cwd w) (files w) (clock w + dt) (readonly w) (service w) (trace w).


(** The text that [_get_cache_key] hashes for a file that exists. *)
Definition key_text (osm_file : string) (mtime : Z) : string :=
  osm_file +:+ ":" +:+ repr_time mtime.

(** The cache file of a key, as an absolute path. *)
Definition cache_path (wd cache_dir cache_key : string) : string :=
  abspath wd (join cache_dir (cache_key +:+ ".pkl")).

(** [w'] differs from [w] at most in its files and its trace, and [n]
    parse calls were made in between. *)
Definition after (n : nat) (w w' : world) : Prop :=
  cwd w' = cwd w /\ clock w' = clock w /\ readonly w' = readonly w
  /\ service w' = service w
  /\ parse_calls (trace w') = (parse_calls (trace w) + n)%nat.
End IOSpec.

Module StoreSpec.
Import Store Layers.

(** [m], run on a store of at least [n] objects, leaves the first [n]
    objects as they are, does not shrink the store, and returns a value
    that satisfies [post] when it returns one. *)
Definition keeps {A} (n : nat) (m : M A) (post : A -> Prop) : Prop :=
  forall h, (n <= length h)%nat ->
    take n (snd (m h)) = take n h
    /\ (length h <= length (snd (m h)))%nat
    /\ forall a, fst (m h) = Ok a -> post a.

(** Every reference held by a dictionary was created at or after [n]. *)
Definition fresh_dict (n : nat) (d : list (string * addr)) : Prop :=
  Forall (fun kv => (n <= snd kv)%nat) d.

Definition fresh_opt (n : nat) (x : option addr) : Prop :=
  match x with Some a => (n <= a)%nat | None => True end.

(** Every layer of the result was created at or after [n]. *)
Definition fresh_layers (n : nat) (l : ExtractedLayers) : Prop :=
  fresh_opt n (roads l) /\ fresh_opt n (buildings l) /\ fresh_dict n (amenities l)
  /\ fresh_dict n (pois l) /\ fresh_opt n (waterways l) /\ fresh_dict n (landuse l).
End StoreSpec.

Module LayerSpec.
Import Store Layers.

(** [m], run on the store [h], returns a value and a store that satisfy
    [post]. *)
Definition runs {A} (h : list obj) (m : M A) (post : A -> list obj -> Prop) : Prop :=
  exists a h', m h = (Ok a, h') /\ post a h'.

(** Whenever [m], run on the store [h], returns, its value and the store
    satisfy [post]. *)
Definition returns {A} (h : list obj) (m : M A) (post : A -> list obj -> Prop) : Prop :=
  forall a h', m h = (Ok a, h') -> post a h'.

(** The reference [a] leads to a data frame with the content [f]. *)
Definition frame_at (h : list obj) (a : nat) (f : frame) : Prop :=
  exists geo, h !! a = Some (OFrame geo f).

(** An optional layer and the frame it is expected to hold. *)
Definition layer_is (h : list obj) (layer : option nat) (expected : option frame) : Prop :=
  match layer, expected with
  | Some a, Some f => frame_at h a f
  | None, None => True
  | _, _ => False
  end.

(** The rows the classifier works on: those whose geometry is present. *)
Definition with_geometry (p : frame) : list record :=
  List.filter (fun r => notna (cell r (Some "geometry"))) (rows p).

(** The row carries the attribute [key] with a value that reads
    true, yes or 1, whatever the case of its letters. *)
Definition flag_match (key : string) (r : record) : bool := truthy (cell r (Some key)).

(** The bundle entries read by the first two blocks are usable: a road
    graph has edges with a geometry, a buildings table has a geometry
    column that holds geometries. *)
Definition roads_usable (h : list obj) (d : list (string * nat)) : Prop :=
  match dget "roads_graph" d with
  | None => True
  | Some g => exists edges, h !! g = Some (OGraph edges) /\ rows edges <> []
                            /\ has_column edges (Some "geometry") = true
  end.

Definition buildings_usable (h : list obj) (d : list (string * nat)) : Prop :=
  match dget "buildings" d with
  | None => True
  | Some b => exists geo f, h !! b = Some (OFrame geo f)
                            /\ has_column f (Some "geometry") = true
                            /\ geometries f = true
  end.

(** The objects of a loaded bundle: its entries in order, then the
    dictionary that refers to them.  The second component is the
    reference to the dictionary. *)
Definition obj_of (x : IO.bobj) : obj :=
  match x with
  | IO.BFrame f => OFrame true f
  | IO.BGraph edges => OGraph edges
  end.

Definition store_of_bundle (b : IO.bundle) : list obj * nat :=
  (map (fun kv => obj_of (snd kv)) b ++ [ODict (imap (fun i kv => (fst kv, i)) b)],
   length b).

(** The bundle of the unit test of the classifier. *)
Definition test_buildings : frame :=
  Frame [Some "building"; Some "name"; Some "geometry"]
        [[(Some "building", VStr "yes"); (Some "name", VStr "A");
          (Some "geometry", VGeom (Polygon [ParserSpec.pt 0 0; ParserSpec.pt 1 0;
                                            ParserSpec.pt 1 1; ParserSpec.pt 0 1]))];
         [(Some "building", VNone); (Some "name", VStr "B");
          (Some "geometry", VGeom (Point (ParserSpec.pt 0 0)))]].

Definition test_pois : frame :=
  Frame [Some "amenity"; Some "shop"; Some "geometry"]
        [[(Some "amenity", VStr "school"); (Some "shop", VNone);
          (Some "geometry", VGeom (Point (ParserSpec.pt 1 1)))];
         [(Some "amenity", VStr "hospital"); (Some "shop", VNone);
          (Some "geometry", VGeom (Point (ParserSpec.pt 2 2)))];
         [(Some "amenity", VStr "restaurant"); (Some "shop", VStr "bakery");
          (Some "geometry", VGeom (Point (ParserSpec.pt 3 3)))];
         [(Some "amenity", VNone); (Some "shop", VStr "supermarket");
          (Some "geometry", VGeom (Point (ParserSpec.pt 4 4)))]].

Definition test_store : list obj :=
  [OFrame true test_buildings; OFrame true test_pois;
   ODict [("buildings", 0%nat); ("pois", 1%nat)]].

(** A POI table in which one feature carries [supermarket = no] and
    another one [shop = supermarket]. *)
Definition flagged_pois : frame :=
  of_records
    [[(Some "supermarket", VStr "no");
      (Some "geometry", VGeom (Point (ParserSpec.pt 1 1)))];
     [(Some "shop", VStr "supermarket");
      (Some "geometry", VGeom (Point (ParserSpec.pt 2 2)))]].

Definition flagged_store : list obj :=
  [OFrame true flagged_pois; ODict [("pois", 0%nat)]].
End LayerSpec.

Module Examples.
Import OSMParser ParserSpec IO.

Definition node_el (ident lat lon : string) : element :=
  Element "node" [("id", ident); ("lat", lat); ("lon", lon)] [].

Definition nd_el (ref : string) : element := Element "nd" [("ref", ref)] [].

Definition tag_el (k v : string) : element := Element "tag" [("k", k); ("v", v)] [].

(** A document with three nodes, a residential street and a building. *)
Definition sample_root : element :=
  Element "osm" []
    [node_el "1" "0" "0"; node_el "2" "0" "1"; node_el "3" "1" "1";
     Element "way" [("id", "10")] [nd_el "1"; nd_el "2"; tag_el "highway" "residential"];
     Element "way" [("id", "11")]
       [nd_el "1"; nd_el "2"; nd_el "3"; nd_el "1"; tag_el "building" "yes"]].


(** A document with the three nodes of [sample_root] followed by the
    given ways and relations. *)
Definition document (items : list element) : element :=
  Element "osm" []
    ([node_el "1" "0" "0"; node_el "2" "0" "1"; node_el "3" "1" "1"] ++ items).

(** The street and the building of [sample_root]. *)
Definition street : element :=
  Element "way" [("id", "10")] [nd_el "1"; nd_el "2"; tag_el "highway" "residential"].

Definition house : element :=
  Element "way" [("id", "11")]
    [nd_el "1"; nd_el "2"; nd_el "3"; nd_el "1"; tag_el "building" "yes"].

(** A machine whose only file is that document, with nothing cached and
    no network. *)
Definition sample_world : world :=
  World "/data"
        [("/data/map.osm", File 1700000000 (Document (Some sample_root)))]
        1700000100 [] (fun _ => None) [].
End Examples.

Module ParserMore.
Import OSMParser ParserSpec.

(** The top-level elements that [parse_file] looks at. *)
Definition known_element (e : element) : bool :=
  String.eqb (etag e) "node" || String.eqb (etag e) "way" || String.eqb (etag e) "relation".

(** The children that the loops over a way and over a relation look at. *)
Definition way_part (c : element) : bool :=
  String.eqb (etag c) "nd" || String.eqb (etag c) "tag".

Definition relation_part (c : element) : bool :=
  String.eqb (etag c) "member" || String.eqb (etag c) "tag".

(** The [nd] children of a way element. *)
Definition nd_children (e : element) : list element :=
  List.filter (fun c => String.eqb (etag c) "nd") (children e).

(** One top-level element parses on its own. *)
Definition element_ok (e : element) : bool := is_ok (parse_element (Ok empty) e).

(** A dictionary as Python keeps it: no key twice. *)
Definition dict_ok {K V} (d : list (K * V)) : Prop := NoDup (keys d).

(** The tables of a parser object are dictionaries, every way and relation
    is stored under its own identifier, and tag maps are dictionaries. *)
Definition tables_ok (self : parser) : Prop :=
  dict_ok (nodes self) /\ dict_ok (ways self) /\ dict_ok (relations self)
  /\ Forall (fun kv => way_id (snd kv) = fst kv /\ dict_ok (way_tags (snd kv))) (ways self)
  /\ Forall (fun kv => rel_id (snd kv) = fst kv /\ dict_ok (rel_tags (snd kv)))
            (relations self).

(** The way resolves to at least [n] coordinates. *)
Definition resolves (n : nat) (node_table : list (Z * coord)) (item : Z * way) : bool :=
  (n <=? length (resolved node_table (way_nodes (snd item))))%nat.

(** The rows of the table stored under [name], none when there is no such
    table. *)
Definition table_rows (tables : list (string * frame)) (name : string) : list record :=
  match dget name tables with
  | Some f => rows f
  | None => []
  end.

(** The row shows every attribute of the feature record. *)
Definition carries (row feature : record) : Prop :=
  forall k, k ∈ keys feature -> cell row k = cell feature k.

(** The table [name] has one row per feature, in order, each showing the
    attributes of its feature; there is no table for an empty list. *)
Definition table_holds (tables : list (string * frame)) (name : string)
  (features : list record) : Prop :=
  Forall2 carries (table_rows tables name) features
  /\ dmem name tables = match features with [] => false | _ => true end.

(** The row of the object [ident] with geometry [g] and the given tags:
    identifier and geometry unless a tag of that name is written over
    them, and every tag. *)
Definition feature_row (row : record) (ident : Z) (g : geometry)
  (tags : list (key * option string)) : Prop :=
  (dget (Some "id") tags = None -> cell row (Some "id") = VInt ident)
  /\ (dget (Some "geometry") tags = None -> cell row (Some "geometry") = VGeom g)
  /\ forall k v, dget k tags = Some v -> cell row k = tag_value v.
End ParserMore.

Module ExportSpec.
Import GeoExport.

(** The path [p] with its suffix replaced by [ext]. *)
Definition renamed (p : path) (ext : string) : path := Path (parent p) (stem p +:+ ext).

(** What [export_geodataframe_multi] does for one entry of [formats]. *)
Definition written_for (gdf : frame) (base_path : path) (format : string) : list action :=
  if String.eqb (str_lower format) "geojson" then
    [Mkdir (parent base_path); ToFile gdf (renamed base_path ".geojson") "GeoJSON" None]
  else if String.eqb (str_lower format) "geopackage" then
    [Mkdir (parent base_path);
     ToFile gdf (renamed base_path ".gpkg") "GPKG" (Some (stem base_path))]
  else if String.eqb (str_lower format) "parquet" then
    [Mkdir (parent base_path); ToParquet gdf (renamed base_path ".parquet")]
  else [].

(** The formats that [export_geodataframe] knows, in lower case. *)
Definition known_format (format : string) : bool :=
  bool_decide (str_lower format ∈ ["geojson"; "geopackage"; "parquet"]).
End ExportSpec.

Module LayerMore.
Import Store Layers LayerSpec.

(** The table [f] cut down to the columns of [allow] that it has,
    followed by the geometry; to [fallback] when it has none of them. *)
Definition kept_table (allow fallback : list string) (f : frame) : frame :=
  select_columns f
    (map Some (match keep allow (columns f) with
               | [] => fallback
               | _ => keep allow (columns f) ++ ["geometry"]
               end)).

(** The roads layer for the edge table of a road graph. *)
Definition expected_roads (edges : frame) : frame :=
  kept_table ["highway"; "name"; "oneway"; "length"; "maxspeed"] ["geometry"] edges.

(** The rows of [f] whose geometry is a polygon or a multipolygon. *)
Definition polygonal_rows (f : frame) : list record :=
  List.filter (fun r => is_polygonal (cell r (Some "geometry"))) (rows f).

(** The buildings layer for a buildings table. *)
Definition expected_buildings (f : frame) : frame :=
  kept_table ["building"; "name"; "levels"; "height"] ["geometry"]
    (Frame (columns f) (polygonal_rows f)).

(** What [amenities[a]] holds for the POI table [p]. *)
Definition expected_amenity_layer (p : frame) (a : string) : option frame :=
  if has_column p (Some "amenity") then
    match List.filter (fun r => eq_str a (cell r (Some "amenity"))) (with_geometry p) with
    | [] => None
    | rs =>
        Some (select_columns (Frame (columns p) rs)
                (map Some (if has_column p (Some "name")
                           then ["amenity"; "name"; "geometry"]
                           else ["amenity"; "geometry"])))
    end
  else None.

(** The waterways layer for the POI table [p]. *)
Definition expected_waterways (p : frame) : option frame :=
  if has_column p (Some "waterway") then
    match List.filter (fun r => notna (cell r (Some "waterway"))) (with_geometry p) with
    | [] => None
    | rs =>
        Some (kept_table ["waterway"; "name"; "width"; "tunnel"; "bridge"]
                ["waterway"; "geometry"] (Frame (columns p) rs))
    end
  else None.

(** What [landuse[k]] holds for the POI table [p] when the values of its
    [landuse] column are strings. *)
Definition expected_landuse_layer (p : frame) (k : string) : option frame :=
  if has_column p (Some "landuse") then
    match List.filter (fun r => eq_str k (cell r (Some "landuse"))) (with_geometry p) with
    | [] => None
    | rs =>
        Some (kept_table ["landuse"; "name"; "area"] ["landuse"; "geometry"]
                (Frame (columns p) rs))
    end
  else None.

(** A cell that holds a string or nothing, as the cells made from tags do. *)
Definition textual (v : value) : bool :=
  match v with VNone | VStr _ => true | _ => false end.

(** The POI table of the bundle, if there is one, has a geometry column
    that holds geometries. *)
Definition pois_usable (h : list obj) (d : list (string * nat)) : Prop :=
  match dget "pois" d with
  | None => True
  | Some pa => exists geo p, h !! pa = Some (OFrame geo p)
                             /\ has_column p (Some "geometry") = true
                             /\ geometries p = true
  end.

(** Every generic key is aligned with the table: it names a column, or
    the table has both an [amenity] and a [shop] column, so that the
    fallback compares columns of the table itself and no default series
    with row labels of its own comes into play. *)
Definition keys_aligned (p : frame) (wanted_pois : list string) : Prop :=
  Forall (fun key => has_column p (Some key) = true
                     \/ (has_column p (Some "amenity") = true
                         /\ has_column p (Some "shop") = true))
         wanted_pois.

Definition pois_aligned (h : list obj) (d : list (string * nat))
  (wanted_pois : list string) : Prop :=
  forall pa geo p, dget "pois" d = Some pa -> h !! pa = Some (OFrame geo p) ->
    keys_aligned p wanted_pois.

(** The reference [bundle] leads to a bundle whose entries can be read. *)
Definition bundle_usable (h : list obj) (bundle : nat) (d : list (string * nat)) : Prop :=
  h !! bundle = Some (ODict d)
  /\ roads_usable h d /\ buildings_usable h d /\ pois_usable h d.

(** A property of a value and a store that survives allocation. *)
Definition stable {A} (P : A -> list obj -> Prop) : Prop :=
  forall a h h', P a h -> h `prefix_of` h' -> P a h'.
(** A bundle as the network branch of the loader builds it: a road graph
    with one edge, the buildings of the unit test, and a POI table (not a
    geo frame) with amenities, a river and two patches of land use; its
    last row has no geometry. *)
Definition town_edges : frame :=
  Frame [Some "highway"; Some "osmid"; Some "geometry"]
        [[(Some "highway", VStr "residential"); (Some "osmid", VInt 5);
          (Some "geometry", VGeom (LineString [ParserSpec.pt 0 0; ParserSpec.pt 1 0]))]].

Definition town_pois : frame :=
  Frame [Some "amenity"; Some "shop"; Some "name"; Some "waterway"; Some "landuse";
         Some "geometry"]
        [[(Some "amenity", VStr "school"); (Some "shop", VNone); (Some "name", VStr "S");
          (Some "waterway", VNone); (Some "landuse", VNone);
          (Some "geometry", VGeom (Point (ParserSpec.pt 1 1)))];
         [(Some "amenity", VNone); (Some "shop", VNone); (Some "name", VStr "R");
          (Some "waterway", VStr "river"); (Some "landuse", VNone);
          (Some "geometry", VGeom (LineString [ParserSpec.pt 0 0; ParserSpec.pt 2 2]))];
         [(Some "amenity", VNone); (Some "shop", VNone); (Some "name", VNone);
          (Some "waterway", VNone); (Some "landuse", VStr "forest");
          (Some "geometry", VGeom (Polygon [ParserSpec.pt 0 0; ParserSpec.pt 1 0;
                                            ParserSpec.pt 1 1; ParserSpec.pt 0 0]))];
         [(Some "amenity", VStr "school"); (Some "shop", VStr "kiosk");
          (Some "name", VStr "T"); (Some "waterway", VNone);
          (Some "landuse", VStr "forest"); (Some "geometry", VNone)]].

Definition town_bundle : list (string * nat) :=
  [("roads_graph", 0%nat); ("buildings", 1%nat); ("pois", 2%nat)].

Definition town_store : list obj :=
  [OGraph town_edges; OFrame true test_buildings; OFrame false town_pois;
   ODict town_bundle].
End LayerMore.

(** * Properties *)

(** ** Dictionaries *)

Section dict_facts.
Context {K V : Type} `{EqDecision K}.
Implicit Types (d : list (K * V)) (k : K) (v : V).

Lemma dget_dset_eq k v d : dget k (dset k v d) = Some v.
Proof.
  induction d as [|[k' v'] d IH]; simpl.
  - destruct (decide (k = k)); congruence.
  - destruct (decide (k = k')) as [->|Hne]; simpl.
    + destruct (decide (k' = k')); congruence.
    + destruct (decide (k = k')); [congruence | exact IH].
Qed.

Lemma dget_dset_ne k k' v d : k <> k' -> dget k' (dset k v d) = dget k' d.
Proof.
  intros Hne. induction d as [|[k0 v0] d IH]; simpl.
  - destruct (decide (k' = k)); congruence.
  - destruct (decide (k = k0)) as [->|Hk]; simpl.
    + destruct (decide (k' = k0)); congruence.
    + destruct (decide (k' = k0)); [reflexivity | exact IH].
Qed.



Lemma dget_None_not_key k d : dget k d = None -> k ∉ keys d.
Proof.
  induction d as [|[k' v'] d IH]; simpl; intros Hg Hin.
  - inversion Hin.
  - destruct (decide (k = k')); [discriminate|].
    apply elem_of_cons in Hin as [?|Hin]; [congruence | now apply IH].
Qed.

Lemma dget_not_key k d : k ∉ keys d -> dget k d = None.
Proof.
  induction d as [|[k' v'] d IH]; simpl; intros Hin; [reflexivity|].
  destruct (decide (k = k')) as [->|Hne].
  - exfalso. apply Hin. left.
  - apply IH. intros Hk. apply Hin. now right.
Qed.

(** Writing the entries of a dictionary without repeated keys over
    another one: its keys read back with its values, the other keys are
    those of the dictionary written over. *)
Lemma dget_dupdate_other k d1 d2 :
  k ∉ keys d2 -> dget k (dupdate d1 d2) = dget k d1.
Proof.
  unfold dupdate. revert d1. induction d2 as [|[k' v'] d2 IH]; simpl; intros d1 Hk.
  - reflexivity.
  - rewrite IH.
    + apply dget_dset_ne. intros ->. apply Hk. left.
    + intros Hin. apply Hk. now right.
Qed.

Lemma dget_dupdate_in k v d1 d2 :
  NoDup (keys d2) -> dget k d2 = Some v -> dget k (dupdate d1 d2) = Some v.
Proof.
  unfold dupdate. revert d1. induction d2 as [|[k' v'] d2 IH]; simpl; intros d1 Hnd Hg.
  - discriminate.
  - apply NoDup_cons in Hnd as [Hnotin Hnd].
    destruct (decide (k = k')) as [->|Hne].
    + injection Hg as ->.
      change (fold_left (fun acc kv => dset (fst kv) (snd kv) acc) d2 (dset k' v d1))
        with (dupdate (dset k' v d1) d2).
      rewrite dget_dupdate_other by exact Hnotin. apply dget_dset_eq.
    + now apply IH.
Qed.
End dict_facts.

(** ** Loops that append *)

Section appending_loops.
Context {A B : Type}.

(** A loop whose body only appends to the list it carries produces, from
    any starting list, that list followed by what it produces from []. *)
Lemma fold_left_appends (step : list B -> A -> list B) (l : list A) :
  (forall acc x, step acc x = acc ++ step [] x) ->
  forall acc, fold_left step l acc = acc ++ fold_left step l [].
Proof.
  intros Hstep. induction l as [|x l IH]; intros acc; simpl.
  - now rewrite app_nil_r.
  - rewrite (IH (step acc x)), (IH (step [] x)), (Hstep acc x).
    now rewrite <- app_assoc.
Qed.

Lemma fold_left_appends_app (step : list B -> A -> list B) (l1 l2 : list A) :
  (forall acc x, step acc x = acc ++ step [] x) ->
  fold_left step (l1 ++ l2) [] = fold_left step l1 [] ++ fold_left step l2 [].
Proof.
  intros Hstep. rewrite fold_left_app. now apply fold_left_appends.
Qed.

(** The same for a loop that carries two lists. *)
Lemma fold_left_appends2 {C} (step : list B * list C -> A -> list B * list C)
  (l : list A) :
  (forall acc x, step acc x
                 = (fst acc ++ fst (step ([], []) x), snd acc ++ snd (step ([], []) x))) ->
  forall acc, fold_left step l acc
              = (fst acc ++ fst (fold_left step l ([], [])),
                 snd acc ++ snd (fold_left step l ([], []))).
Proof.
  intros Hstep. induction l as [|x l IH]; intros acc; simpl.
  - rewrite !app_nil_r. now destruct acc.
  - rewrite (IH (step acc x)), (IH (step ([], []) x)), (Hstep acc x). simpl.
    now rewrite <- !app_assoc.
Qed.
End appending_loops.

(** ** The structural parser *)

Module ParserFacts.
Import OSMParser ParserSpec.

Lemma coordinates_of_resolved node_table refs :
  coordinates_of node_table refs = resolved node_table refs.
Proof.
  unfold coordinates_of, resolved.
  rewrite fold_left_appends.
  - simpl. induction refs as [|r refs IH]; csimpl; [reflexivity|].
    rewrite fold_left_appends.
    + destruct (dget r node_table); simpl; now rewrite IH.
    + intros acc x. destruct (dget x node_table); simpl; [reflexivity|now rewrite app_nil_r].
  - intros acc x. destruct (dget x node_table); simpl; [reflexivity|now rewrite app_nil_r].
Qed.

Lemma resolved_length node_table refs :
  (length (resolved node_table refs) <= length refs)%nat.
Proof.
  unfold resolved. induction refs as [|r refs IH]; csimpl; [lia|].
  destruct (dget r node_table); simpl; lia.
Qed.

Lemma line_step_appends node_table acc x :
  line_step node_table acc x = acc ++ line_step node_table [] x.
Proof.
  unfold line_step. destruct x as [wid w].
  destruct (length (way_nodes w) <? 2)%nat; [now rewrite app_nil_r|].
  destruct (length (coordinates_of node_table (way_nodes w)) <? 2)%nat;
    [now rewrite app_nil_r | reflexivity].
Qed.

Lemma lines_from_app node_table l1 l2 :
  lines_from node_table (l1 ++ l2) = lines_from node_table l1 ++ lines_from node_table l2.
Proof. apply fold_left_appends_app, line_step_appends. Qed.

Lemma lines_from_one node_table wid w :
  lines_from node_table [(wid, w)] =
    if (2 <=? length (resolved node_table (way_nodes w)))%nat
    then [feature_data wid (LineString (resolved node_table (way_nodes w))) (way_tags w)]
    else [].
Proof.
  unfold lines_from. cbn [fold_left]. unfold line_step.
  rewrite coordinates_of_resolved.
  pose proof (resolved_length node_table (way_nodes w)).
  destruct (Nat.ltb_spec (length (way_nodes w)) 2);
    destruct (Nat.ltb_spec (length (resolved node_table (way_nodes w))) 2);
    destruct (Nat.leb_spec 2 (length (resolved node_table (way_nodes w))));
    try reflexivity; lia.
Qed.

Lemma feature_data_carries_tags ident g tags k v :
  NoDup (keys tags) -> dget k tags = Some v ->
  dget k (feature_data ident g tags) = Some (tag_value v).
Proof.
  intros Hnd Hg. unfold feature_data. apply dget_dupdate_in.
  - unfold tag_cells, keys. rewrite map_map. exact Hnd.
  - unfold tag_cells. clear Hnd. induction tags as [|[k' v'] tags IH]; simpl in *.
    + discriminate.
    + destruct (decide (k = k')); [congruence | now apply IH].
Qed.

Lemma remove_dups_length {A} `{EqDecision A} (l : list A) :
  (length (remove_dups l) <= length l)%nat.
Proof.
  induction l as [|x l IH]; simpl; [lia|].
  destruct (decide_rel elem_of x l); simpl; lia.
Qed.

Section geometry_library.
Context `{Shapely}.

Lemma try_polygon_appends acc ident cs tags :
  try_polygon acc ident cs tags
  = (fst acc ++ fst (try_polygon ([], []) ident cs tags),
     snd acc ++ snd (try_polygon ([], []) ident cs tags)).
Proof.
  unfold try_polygon. destruct acc as [fs ws].
  destruct (shapely_polygon cs) as [|[|]]; simpl; now rewrite ?app_nil_r.
Qed.

Lemma polygon_step_appends node_table acc x :
  polygon_step node_table acc x
  = (fst acc ++ fst (polygon_step node_table ([], []) x),
     snd acc ++ snd (polygon_step node_table ([], []) x)).
Proof.
  unfold polygon_step. destruct x as [wid w].
  repeat match goal with
         | |- context [if ?b then _ else _] => destruct b
         end;
    try (destruct acc; simpl; now rewrite ?app_nil_r).
  apply try_polygon_appends.
Qed.

Lemma polygons_from_app node_table l1 l2 :
  polygons_from node_table (l1 ++ l2)
  = polygons_from node_table l1 ++ polygons_from node_table l2.
Proof.
  unfold polygons_from. rewrite fold_left_app.
  rewrite fold_left_appends2 by apply polygon_step_appends. reflexivity.
Qed.

Lemma polygons_from_one node_table wid w :
  polygons_from node_table [(wid, w)] =
    if (3 <=? length (way_nodes w))%nat
       && bool_decide (hd_error (way_nodes w) = last (way_nodes w))
       && (3 <=? length (resolved node_table (way_nodes w)))%nat
    then match shapely_polygon (resolved node_table (way_nodes w)) with
         | PolygonBuilt true =>
             [feature_data wid (Polygon (resolved node_table (way_nodes w))) (way_tags w)]
         | _ => []
         end
    else [].
Proof.
  unfold polygons_from. cbn [fold_left]. unfold polygon_step.
  rewrite coordinates_of_resolved.
  destruct (Nat.ltb_spec (length (way_nodes w)) 3);
    destruct (Nat.leb_spec 3 (length (way_nodes w))); try lia;
    cbn [andb negb fst]; [reflexivity|].
  destruct (bool_decide (hd_error (way_nodes w) = last (way_nodes w)));
    cbn [andb negb fst]; [|reflexivity].
  destruct (Nat.ltb_spec (length (resolved node_table (way_nodes w))) 3);
    destruct (Nat.leb_spec 3 (length (resolved node_table (way_nodes w))));
    try lia; cbn [andb negb fst]; [reflexivity|].
  unfold try_polygon.
  destruct (shapely_polygon (resolved node_table (way_nodes w))) as [|[|]]; reflexivity.
Qed.

Lemma multipolygon_step_appends self acc x :
  multipolygon_step self acc x
  = (fst acc ++ fst (multipolygon_step self ([], []) x),
     snd acc ++ snd (multipolygon_step self ([], []) x)).
Proof.
  unfold multipolygon_step. destruct x as [rid r].
  destruct (negb _); [destruct acc; simpl; now rewrite ?app_nil_r|].
  destruct (fst (outer_inner (ways self) (rel_members r))) as [|w ?];
    [destruct acc; simpl; now rewrite ?app_nil_r|].
  repeat match goal with
         | |- context [if ?b then _ else _] => destruct b
         end;
    try (destruct acc; simpl; now rewrite ?app_nil_r).
  apply try_polygon_appends.
Qed.

Lemma multipolygons_from_app self l1 l2 :
  multipolygons_from self (l1 ++ l2)
  = multipolygons_from self l1 ++ multipolygons_from self l2.
Proof.
  unfold multipolygons_from. rewrite fold_left_app.
  rewrite fold_left_appends2 by apply multipolygon_step_appends. reflexivity.
Qed.

Lemma member_step_appends way_table acc m :
  member_step way_table acc m
  = (fst acc ++ fst (member_step way_table ([], []) m),
     snd acc ++ snd (member_step way_table ([], []) m)).
Proof.
  unfold member_step.
  repeat match goal with
         | |- context [if ?b then _ else _] => destruct b
         | |- context [match ?o with Some _ => _ | None => _ end] => destruct o
         end;
    destruct acc; simpl; now rewrite ?app_nil_r.
Qed.

Lemma outer_inner_outer way_table members :
  fst (outer_inner way_table members) = outer_ways_of way_table members.
Proof.
  unfold outer_inner, outer_ways_of.
  induction members as [|m ms IH]; csimpl; [reflexivity|].
  rewrite fold_left_appends2 by apply member_step_appends.
  cbn [fst]. rewrite IH. unfold member_step.
  destruct (decide (m_type m = Some "way")) as [Ht|Ht].
  - rewrite (bool_decide_true _ Ht).
    destruct (String.eqb_spec (m_role m) "outer") as [Hr|Hr].
    + rewrite bool_decide_true by auto.
      destruct (dget (m_ref m) way_table); reflexivity.
    + rewrite (bool_decide_false (_ /\ _)) by (intros [_ ?]; contradiction).
      destruct (dget (m_ref m) way_table); [|reflexivity].
      destruct (m_role m =? "inner")%string; reflexivity.
  - rewrite (bool_decide_false _ Ht).
    rewrite (bool_decide_false (_ /\ _)) by (intros [? _]; contradiction).
    reflexivity.
Qed.

Lemma multipolygons_from_one self rid r :
  multipolygons_from self [(rid, r)] =
    if bool_decide (dget (Some "type") (rel_tags r) = Some (Some "multipolygon"))
    then match outer_ways_of (ways self) (rel_members r) with
         | [] => []
         | outer_way :: _ =>
             if (3 <=? length (resolved (nodes self) (way_nodes outer_way)))%nat
             then match shapely_polygon (resolved (nodes self) (way_nodes outer_way)) with
                  | PolygonBuilt true =>
                      [feature_data rid
                         (Polygon (resolved (nodes self) (way_nodes outer_way)))
                         (rel_tags r)]
                  | _ => []
                  end
             else []
         end
    else [].
Proof.
  unfold multipolygons_from. cbn [fold_left]. unfold multipolygon_step.
  rewrite outer_inner_outer.
  destruct (bool_decide (dget (Some "type") (rel_tags r) = Some (Some "multipolygon")));
    cbn [negb]; [|reflexivity].
  destruct (outer_ways_of (ways self) (rel_members r)) as [|w ws]; [reflexivity|].
  rewrite coordinates_of_resolved.
  pose proof (resolved_length (nodes self) (way_nodes w)).
  destruct (Nat.ltb_spec (length (way_nodes w)) 3);
    destruct (Nat.ltb_spec (length (resolved (nodes self) (way_nodes w))) 3);
    destruct (Nat.leb_spec 3 (length (resolved (nodes self) (way_nodes w))));
    try lia; try reflexivity.
  unfold try_polygon.
  destruct (shapely_polygon (resolved (nodes self) (way_nodes w))) as [|[|]]; reflexivity.
Qed.
End geometry_library.
End ParserFacts.

(** *** Tag elements of ways and relations *)

Module TagFacts.
Import OSMParser ParserSpec.









Lemma way_fold_raise l e : fold_left way_child l (Raise e) = Raise e.
Proof. induction l; simpl; auto. Qed.

Lemma relation_fold_raise l e : fold_left relation_child l (Raise e) = Raise e.
Proof. induction l; simpl; auto. Qed.




End TagFacts.

(** *** From the tables of the parser to the tables returned *)

Module TableFacts.
Import OSMParser OSMParserFrames ParserSpec ParserFacts TagFacts ParserMore.

Lemma parse_element_raise e x : parse_element (Raise x) e = Raise x.
Proof. reflexivity. Qed.

Lemma parse_fold_raise l x : fold_left parse_element l (Raise x) = Raise x.
Proof. induction l; simpl; auto. Qed.

Lemma keys_dset {K V} `{EqDecision K} (k : K) (v : V) (d : list (K * V)) :
  keys (dset k v d) = if decide (k ∈ keys d) then keys d else keys d ++ [k].
Proof.
  induction d as [|[k' v'] d IH]; cbn [dset keys map fst app].
  - destruct (decide (k ∈ [])) as [Hin|_]; [inversion Hin|reflexivity].
  - destruct (decide (k = k')) as [->|Hne]; cbn [map fst].
    + destruct (decide (k' ∈ k' :: map fst d)) as [_|Hn]; [reflexivity|].
      exfalso; apply Hn; left.
    + fold (keys (dset k v d)). rewrite IH. fold (keys d).
      destruct (decide (k ∈ keys d)) as [Hin|Hn];
        destruct (decide (k ∈ k' :: keys d)) as [Hin'|Hn']; try reflexivity.
      * exfalso; apply Hn'; now right.
      * exfalso. apply elem_of_cons in Hin' as [?|?]; [congruence|contradiction].
Qed.

Lemma dict_ok_dset {K V} `{EqDecision K} (k : K) (v : V) (d : list (K * V)) :
  dict_ok d -> dict_ok (dset k v d).
Proof.
  unfold dict_ok. intros Hd. rewrite keys_dset. destruct (decide (k ∈ keys d)); [exact Hd|].
  apply NoDup_app. split; [exact Hd|]. split.
  - intros x Hx Hx'. apply list_elem_of_singleton in Hx'. now subst.
  - apply NoDup_singleton.
Qed.

Lemma Forall_dset {K V} `{EqDecision K} (P : K * V -> Prop) (k : K) (v : V)
  (d : list (K * V)) :
  P (k, v) -> Forall P d -> Forall P (dset k v d).
Proof.
  intros Hkv. induction 1 as [|[k' v'] d Hx Hd IH]; cbn [dset].
  - now constructor.
  - destruct (decide (k = k')); constructor; auto.
Qed.

Lemma way_fold_tables cs : forall w wd,
  fold_left way_child cs (Ok w) = Ok wd -> dict_ok (way_tags w) ->
  way_id wd = way_id w /\ dict_ok (way_tags wd).
Proof.
  induction cs as [|c cs IH]; intros w wd Hf Hok.
  - injection Hf as <-. now split.
  - cbn [fold_left] in Hf. unfold way_child at 2 in Hf. cbn [rbind] in Hf.
    destruct (String.eqb (etag c) "nd").
    + destruct (py_int (eget c "ref")); cbn [rbind] in Hf;
        [|now rewrite way_fold_raise in Hf].
      apply IH in Hf; [exact Hf|exact Hok].
    + destruct (String.eqb (etag c) "tag").
      * apply IH in Hf; [exact Hf|]. cbn [way_tags]. now apply dict_ok_dset.
      * now apply IH in Hf.
Qed.

Lemma relation_fold_tables cs : forall r rd,
  fold_left relation_child cs (Ok r) = Ok rd -> dict_ok (rel_tags r) ->
  rel_id rd = rel_id r /\ dict_ok (rel_tags rd).
Proof.
  induction cs as [|c cs IH]; intros r rd Hf Hok.
  - injection Hf as <-. now split.
  - cbn [fold_left] in Hf. unfold relation_child at 2 in Hf. cbn [rbind] in Hf.
    destruct (String.eqb (etag c) "member").
    + destruct (py_int (eget c "ref")); cbn [rbind] in Hf;
        [|now rewrite relation_fold_raise in Hf].
      apply IH in Hf; [exact Hf|exact Hok].
    + destruct (String.eqb (etag c) "tag").
      * apply IH in Hf; [exact Hf|]. cbn [rel_tags]. now apply dict_ok_dset.
      * now apply IH in Hf.
Qed.

Lemma parse_element_tables p p' e :
  parse_element (Ok p) e = Ok p' -> tables_ok p -> tables_ok p'.
Proof.
  unfold parse_element, tables_ok. cbn [rbind].
  intros He (Hn & Hw & Hr & Hws & Hrs).
  destruct (String.eqb (etag e) "node").
  { unfold _parse_node in He.
    destruct (py_int (eget e "id")); [|discriminate]. cbn [rbind] in He.
    destruct (py_float (eget e "lat")); [|discriminate]. cbn [rbind] in He.
    destruct (py_float (eget e "lon")); [|discriminate]. cbn [rbind] in He.
    injection He as <-. cbn [nodes ways relations].
    repeat split; auto using dict_ok_dset. }
  destruct (String.eqb (etag e) "way").
  { unfold _parse_way in He. destruct (parse_way_data e) as [wd|] eqn:Hwd; [|discriminate].
    cbn [rbind] in He. injection He as <-. cbn [nodes ways relations].
    unfold parse_way_data in Hwd. destruct (py_int (eget e "id")); [|discriminate].
    cbn [rbind] in Hwd. apply way_fold_tables in Hwd as [_ Ht]; [|apply NoDup_nil_2].
    repeat split; auto using dict_ok_dset. apply Forall_dset; auto. }
  destruct (String.eqb (etag e) "relation").
  { unfold _parse_relation in He.
    destruct (parse_relation_data e) as [rd|] eqn:Hrd; [|discriminate].
    cbn [rbind] in He. injection He as <-. cbn [nodes ways relations].
    unfold parse_relation_data in Hrd. destruct (py_int (eget e "id")); [|discriminate].
    cbn [rbind] in Hrd. apply relation_fold_tables in Hrd as [_ Ht]; [|apply NoDup_nil_2].
    repeat split; auto using dict_ok_dset. apply Forall_dset; auto. }
  injection He as <-. repeat split; assumption.
Qed.

Lemma parse_root_tables_ok (root : element) (self : parser) :
  parse_root root = Ok self -> tables_ok self.
Proof.
  unfold parse_root.
  assert (Hgen : forall l p, tables_ok p ->
            fold_left parse_element l (Ok p) = Ok self -> tables_ok self).
  { induction l as [|e l IH]; intros p Hp Hf.
    - injection Hf as <-. exact Hp.
    - cbn [fold_left] in Hf. destruct (parse_element (Ok p) e) as [p'|x] eqn:He.
      + apply (IH p'); [|exact Hf]. eapply parse_element_tables; eauto.
      + now rewrite parse_fold_raise in Hf. }
  apply Hgen. unfold tables_ok, dict_ok, empty. cbn.
  repeat split; constructor.
Qed.

Lemma lines_from_cons node_table x l :
  lines_from node_table (x :: l) = lines_from node_table [x] ++ lines_from node_table l.
Proof. apply (lines_from_app node_table [x] l). Qed.

Lemma polygons_from_cons `{Shapely} node_table x l :
  polygons_from node_table (x :: l)
  = polygons_from node_table [x] ++ polygons_from node_table l.
Proof. apply (polygons_from_app node_table [x] l). Qed.

Lemma multipolygons_from_cons `{Shapely} self x l :
  multipolygons_from self (x :: l)
  = multipolygons_from self [x] ++ multipolygons_from self l.
Proof. apply (multipolygons_from_app self [x] l). Qed.

(** **** Tables of records *)

Lemma elem_of_add_labels (k : key) (new cols : list key) :
  k ∈ add_labels cols new <-> k ∈ cols \/ k ∈ new.
Proof.
  unfold add_labels. revert cols. induction new as [|x new IH]; intros cols; cbn [fold_left].
  - split; [now left | intros [Hc|Hn]; [exact Hc | inversion Hn]].
  - rewrite IH, (elem_of_cons new k x). case_bool_decide as E.
    + split; [intros [Hc|Hn]; [left | right; right]; assumption|].
      intros [Hc|[->|Hn]]; [left | left | right]; assumption.
    + rewrite elem_of_app, list_elem_of_singleton. tauto.
Qed.

Lemma elem_of_record_labels (k : key) (recs : list record) (cols : list key) :
  k ∈ fold_left (fun cols r => add_labels cols (keys r)) recs cols
  <-> k ∈ cols \/ exists r, r ∈ recs /\ k ∈ keys r.
Proof.
  revert cols. induction recs as [|r recs IH]; intros cols; cbn [fold_left].
  - split; [now left | intros [Hc|(r & Hr & _)]; [exact Hc | inversion Hr]].
  - rewrite IH, elem_of_add_labels. split.
    + intros [[Hc|Hk]|(r' & Hr' & Hk)].
      * now left.
      * right. exists r. split; [left | exact Hk].
      * right. exists r'. split; [now right | exact Hk].
    + intros [Hc|(r' & Hr' & Hk)]; [now left; left|].
      apply elem_of_cons in Hr' as [->|Hr']; [left; now right|].
      right. now exists r'.
Qed.

Lemma cell_project (cols : list key) (r : record) (c : key) :
  c ∈ cols -> cell (project cols r) c = cell r c.
Proof.
  intros Hin. unfold cell at 1, project.
  induction cols as [|c0 cols IH]; [inversion Hin|]. cbn [map dget].
  destruct (decide (c = c0)) as [->|Hne]; [reflexivity|].
  apply IH. apply elem_of_cons in Hin as [?|?]; [congruence|assumption].
Qed.

Lemma of_records_carries (recs : list record) :
  Forall2 carries (rows (of_records recs)) recs.
Proof.
  unfold of_records. cbn [rows].
  set (cols := fold_left (fun cols r => add_labels cols (keys r)) recs []).
  assert (Hall : forall r, r ∈ recs -> forall k, k ∈ keys r -> k ∈ cols).
  { intros r Hr k Hk. apply elem_of_record_labels. right. now exists r. }
  clearbody cols. induction recs as [|r recs IH]; cbn [map]; constructor.
  - intros k Hk. apply cell_project. apply (Hall r); [left | exact Hk].
  - apply IH. intros r' Hr'. apply Hall. now right.
Qed.

Lemma geodataframe_inv (recs : list record) (f : frame) :
  geodataframe recs = Ok f ->
  f = of_records recs /\ has_column f (Some "geometry") = true /\ geometries f = true.
Proof.
  unfold geodataframe. destruct (has_column _ _) eqn:Hc; [|discriminate].
  destruct (geometries _) eqn:Hg; [|discriminate]. cbn [andb]. intros [= <-]. auto.
Qed.

(** A table that was stored holds the records it was built from. *)
Lemma store_table_holds (name : string) (data : list record)
  (tables tables' : list (string * frame)) :
  store_table name data tables = Ok tables' ->
  dget name tables = None ->
  table_holds tables' name data
  /\ forall other, other <> name -> dget other tables' = dget other tables.
Proof.
  unfold store_table, table_holds, table_rows, dmem. intros Hs Hfree.
  destruct data as [|r data].
  - injection Hs as <-. rewrite Hfree. split; [split; [constructor | reflexivity]|].
    reflexivity.
  - destruct (geodataframe (r :: data)) as [f|e] eqn:Hf; [|discriminate].
    cbn [rbind] in Hs. injection Hs as <-.
    apply geodataframe_inv in Hf as (-> & _ & _). rewrite dget_dset_eq. split.
    + split; [apply of_records_carries | reflexivity].
    + intros other Hne. apply dget_dset_ne. congruence.
Qed.

Lemma table_holds_kept (name : string) (features : list record)
  (tables tables' : list (string * frame)) :
  table_holds tables name features ->
  dget name tables' = dget name tables ->
  table_holds tables' name features.
Proof. unfold table_holds, table_rows, dmem. now intros H ->. Qed.

Section geometry_library.
Context `{Shapely}.

(** The three tables returned by [_to_geodataframes] hold the line, the
    polygon and the multipolygon features. *)
Lemma tables_hold (self : parser) (tables : list (string * frame)) :
  _to_geodataframes self = Ok tables ->
  table_holds tables "ways" (lines_data self)
  /\ table_holds tables "polygons" (polygons_data self)
  /\ table_holds tables "multipolygons" (multipolygons_data self).
Proof.
  unfold _to_geodataframes. intros Ht.
  destruct (store_table "ways" (lines_data self) []) as [t1|] eqn:E1; [|discriminate].
  cbn [rbind] in Ht.
  destruct (store_table "polygons" (polygons_data self) t1) as [t2|] eqn:E2;
    [|discriminate].
  cbn [rbind] in Ht.
  destruct (store_table_holds _ _ _ _ E1 eq_refl) as [H1 O1].
  assert (F2 : dget "polygons" t1 = None) by (rewrite O1 by discriminate; reflexivity).
  destruct (store_table_holds _ _ _ _ E2 F2) as [H2 O2].
  assert (F3 : dget "multipolygons" t2 = None).
  { rewrite O2, O1 by discriminate. reflexivity. }
  destruct (store_table_holds _ _ _ _ Ht F3) as [H3 O3].
  split; [|split; [|exact H3]].
  - apply (table_holds_kept "ways" _ t1); [exact H1|].
    rewrite O3, O2 by discriminate. reflexivity.
  - apply (table_holds_kept "polygons" _ t2); [exact H2|].
    rewrite O3 by discriminate. reflexivity.
Qed.

Lemma parse_tree_tables (root : element) (self : parser) (tables : list (string * frame)) :
  parse_root root = Ok self -> parse_tree root = Ok tables ->
  _to_geodataframes self = Ok tables.
Proof. unfold parse_tree. now intros ->. Qed.
End geometry_library.

Lemma table_holds_length (tables : list (string * frame)) (name : string)
  (features : list record) :
  table_holds tables name features -> length (table_rows tables name) = length features.
Proof. intros [HF _]. now apply Forall2_length in HF. Qed.

(** **** What a feature record holds *)

Lemma dget_Some_key {K V} `{EqDecision K} (k : K) (v : V) (d : list (K * V)) :
  dget k d = Some v -> k ∈ keys d.
Proof.
  intros Hg. destruct (decide (k ∈ keys d)) as [Hin|Hn]; [exact Hin|].
  rewrite (dget_not_key k d Hn) in Hg. discriminate.
Qed.

Lemma keys_dupdate_base {K V} `{EqDecision K} (k : K) (d2 d1 : list (K * V)) :
  k ∈ keys d1 -> k ∈ keys (dupdate d1 d2).
Proof.
  unfold dupdate. revert d1. induction d2 as [|[k' v'] d2 IH]; intros d1 Hin;
    cbn [fold_left fst snd]; [exact Hin|].
  apply IH. rewrite keys_dset. destruct (decide (k' ∈ keys d1)); [exact Hin|].
  apply elem_of_app. now left.
Qed.

(** Without a tag named [id] the identifier is kept. *)
Lemma feature_data_keeps_id ident g (tags : list (key * option string)) :
  dget (Some "id") tags = None ->
  dget (Some "id") (feature_data ident g tags) = Some (VInt ident).
Proof.
  intros Hg. unfold feature_data. rewrite dget_dupdate_other; [reflexivity|].
  unfold tag_cells, keys. rewrite map_map. simpl.
  now apply dget_None_not_key.
Qed.

Lemma feature_has_id ident g (tags : list (key * option string)) :
  Some "id" ∈ keys (feature_data ident g tags).
Proof.
  unfold feature_data. apply keys_dupdate_base. cbn. left.
Qed.

Lemma feature_has_geometry ident g (tags : list (key * option string)) :
  Some "geometry" ∈ keys (feature_data ident g tags).
Proof.
  unfold feature_data. apply keys_dupdate_base. cbn. right. left.
Qed.

Lemma feature_geometry ident g (tags : list (key * option string)) :
  dget (Some "geometry") tags = None ->
  cell (feature_data ident g tags) (Some "geometry") = VGeom g.
Proof.
  intros Hg. unfold cell, feature_data. rewrite dget_dupdate_other; [reflexivity|].
  unfold tag_cells, keys. rewrite map_map. simpl.
  now apply dget_None_not_key.
Qed.

(** A row that carries a feature shows its identifier, its geometry and
    its tags. *)
Lemma carries_feature_row (row : record) ident g (tags : list (key * option string)) :
  NoDup (keys tags) ->
  carries row (feature_data ident g tags) -> feature_row row ident g tags.
Proof.
  intros Hnd Hc. split; [|split].
  - intros Hg. rewrite (Hc _ (feature_has_id ident g tags)).
    unfold cell. now rewrite feature_data_keeps_id.
  - intros Hg. rewrite (Hc _ (feature_has_geometry ident g tags)).
    now apply feature_geometry.
  - intros k v Hk.
    pose proof (feature_data_carries_tags ident g tags k v Hnd Hk) as Hf.
    rewrite (Hc k (dget_Some_key _ _ _ Hf)). unfold cell. now rewrite Hf.
Qed.

(** The row of one feature among the rows of a table. *)
Lemma table_holds_split (tables : list (string * frame)) (name : string)
  (before after : list record) ident g (tags : list (key * option string)) :
  NoDup (keys tags) ->
  table_holds tables name (before ++ [feature_data ident g tags] ++ after) ->
  exists rows_before row rows_after,
    table_rows tables name = rows_before ++ row :: rows_after
    /\ Forall2 carries rows_before before
    /\ Forall2 carries rows_after after
    /\ feature_row row ident g tags.
Proof.
  intros Hnd [HF _]. remember (table_rows tables name) as rs eqn:Hrs. clear Hrs.
  apply Forall2_app_inv_r in HF as (rb & rest & Hb & Hrest & ->).
  cbn [app] in Hrest. apply Forall2_cons_inv_r in Hrest as (row & ra & Hrow & Ha & ->).
  exists rb, row, ra. repeat split; try assumption;
    now apply (carries_feature_row row ident g tags Hnd Hrow).
Qed.

(** **** When the tables are built *)

Lemma geodataframe_returns (recs : list record) :
  recs <> [] ->
  Forall (fun r => Some "geometry" ∈ keys r
                   /\ geometry_cell (cell r (Some "geometry")) = true) recs ->
  geodataframe recs = Ok (of_records recs).
Proof.
  intros Hne Hall. unfold geodataframe.
  assert (Hcol : Some "geometry" ∈ columns (of_records recs)).
  { unfold of_records. cbn [columns]. apply elem_of_record_labels. right.
    destruct recs as [|r recs]; [congruence|]. apply Forall_cons in Hall as [[Hk _] _].
    exists r. split; [left | exact Hk]. }
  unfold has_column. rewrite (bool_decide_true _ Hcol). cbn [andb].
  assert (Hg : geometries (of_records recs) = true).
  { unfold geometries, column. apply forallb_forall. intros v Hv.
    apply in_map_iff in Hv as (row & <- & Hrow).
    revert Hrow Hcol. unfold of_records. cbn [rows columns].
    generalize (fold_left (fun cols r => add_labels cols (keys r)) recs []) as cols.
    intros cols Hrow Hcol. apply in_map_iff in Hrow as (r & <- & Hr).
    rewrite cell_project by exact Hcol.
    apply (proj1 (Forall_forall _ _) Hall r). now apply list_elem_of_In. }
  now rewrite Hg.
Qed.

Lemma store_table_returns (name : string) (data : list record)
  (tables : list (string * frame)) :
  Forall (fun r => Some "geometry" ∈ keys r
                   /\ geometry_cell (cell r (Some "geometry")) = true) data ->
  is_ok (store_table name data tables) = true.
Proof.
  intros Hall. unfold store_table. destruct data as [|r data]; [reflexivity|].
  rewrite geodataframe_returns by (congruence || exact Hall). reflexivity.
Qed.

Lemma feature_is_geometric ident g (tags : list (key * option string)) :
  dget (Some "geometry") tags = None ->
  Some "geometry" ∈ keys (feature_data ident g tags)
  /\ geometry_cell (cell (feature_data ident g tags) (Some "geometry")) = true.
Proof.
  intros Hg. split; [apply feature_has_geometry|]. now rewrite feature_geometry.
Qed.

Lemma lines_are_geometric node_table (l : list (Z * way)) :
  Forall (fun kv => dget (Some "geometry") (way_tags (snd kv)) = None) l ->
  Forall (fun r => Some "geometry" ∈ keys r
                   /\ geometry_cell (cell r (Some "geometry")) = true)
         (lines_from node_table l).
Proof.
  induction 1 as [|[wid w] l Hw Hl IH]; [constructor|].
  rewrite lines_from_cons, lines_from_one. apply Forall_app. split; [|exact IH].
  destruct (_ <=? _)%nat; [|constructor].
  constructor; [|constructor]. now apply feature_is_geometric.
Qed.

Section geometry_library.
Context `{Shapely}.

Lemma polygons_are_geometric node_table (l : list (Z * way)) :
  Forall (fun kv => dget (Some "geometry") (way_tags (snd kv)) = None) l ->
  Forall (fun r => Some "geometry" ∈ keys r
                   /\ geometry_cell (cell r (Some "geometry")) = true)
         (polygons_from node_table l).
Proof.
  induction 1 as [|[wid w] l Hw Hl IH]; [constructor|].
  rewrite polygons_from_cons, polygons_from_one. apply Forall_app. split; [|exact IH].
  destruct (_ && _ && _); [|constructor].
  destruct (shapely_polygon _) as [|[|]]; try constructor; [|constructor].
  now apply feature_is_geometric.
Qed.

Lemma multipolygons_are_geometric self (l : list (Z * relation)) :
  Forall (fun kv => dget (Some "geometry") (rel_tags (snd kv)) = None) l ->
  Forall (fun r => Some "geometry" ∈ keys r
                   /\ geometry_cell (cell r (Some "geometry")) = true)
         (multipolygons_from self l).
Proof.
  induction 1 as [|[rid r] l Hr Hl IH]; [constructor|].
  rewrite multipolygons_from_cons, multipolygons_from_one. apply Forall_app.
  split; [|exact IH].
  destruct (bool_decide _); [|constructor].
  destruct (outer_ways_of _ _) as [|w ws]; [constructor|].
  destruct (_ <=? _)%nat; [|constructor].
  destruct (shapely_polygon _) as [|[|]]; try constructor; [|constructor].
  now apply feature_is_geometric.
Qed.

(** Without a tag named [geometry] every table is built. *)
Lemma tables_are_built (self : parser) :
  Forall (fun kv => dget (Some "geometry") (way_tags (snd kv)) = None) (ways self) ->
  Forall (fun kv => dget (Some "geometry") (rel_tags (snd kv)) = None) (relations self) ->
  is_ok (_to_geodataframes self) = true.
Proof.
  intros Hw Hr. unfold _to_geodataframes.
  pose proof (store_table_returns "ways" (lines_data self) []
                (lines_are_geometric (nodes self) (ways self) Hw)) as H1.
  destruct (store_table "ways" (lines_data self) []) as [t1|]; [|discriminate].
  cbn [rbind].
  pose proof (store_table_returns "polygons" (polygons_data self) t1
                (polygons_are_geometric (nodes self) (ways self) Hw)) as H2.
  destruct (store_table "polygons" (polygons_data self) t1) as [t2|]; [|discriminate].
  cbn [rbind].
  apply store_table_returns. exact (multipolygons_are_geometric self (relations self) Hr).
Qed.
End geometry_library.
End TableFacts.

(** ** Claims about the structural parser *)

Section parser_claims.
Import OSMParser OSMParserFrames ParserSpec ParserMore ParserFacts TagFacts TableFacts Examples.




(** C5 fails on a way that carries a tag named [id]: way 7 with two
    resolvable nodes and the tag [id = x] yields a line record whose [id]
    attribute is the tag's string, not the identifier 7; the tags are
    unpacked over the two entries written first. *)
Theorem C5_id_tag_replaces_identifier :
  let self := Parser [(1, pt 0 0); (2, pt 1 1)]
                     [(7, Way 7 [1; 2] [(Some "id", Some "x")])] [] in
  lines_data self
  = [[(Some "id", VStr "x");
      (Some "geometry", VGeom (LineString [pt 0 0; pt 1 1]))]].
Proof. reflexivity. Qed.

(** C7 fails on a document in which some way carries a tag named
    [geometry].  The street, way 10, resolves to two coordinates, yet
    parsing the document that also holds way 12 with the tag
    [geometry = x] yields no line feature for it: the tag is written over
    the geometry of way 12's record, the constructor of the line table
    refuses the column, and the parse raises [ValueError].  Without way 12
    the street gets its one line feature, carrying its tag. *)
Theorem C7_geometry_tag_stops_every_line_feature :
  let odd := Element "way" [("id", "12")] [nd_el "2"; nd_el "3"; tag_el "geometry" "x"] in
  (exists self,
      parse_root (document [street; odd]) = Ok self
      /\ dget 10 (ways self) = Some (Way 10 [1; 2] [(Some "highway", Some "residential")])
      /\ resolved (nodes self) [1; 2] = [pt 0 0; pt 1 0])
  /\ (exists msg,
         @parse_tree any_ring_valid (document [street; odd]) = Raise (ValueError msg))
  /\ (exists tables,
         @parse_tree any_ring_valid (document [street]) = Ok tables
         /\ table_rows tables "ways"
            = [[(Some "id", VInt 10);
                (Some "geometry", VGeom (LineString [pt 0 0; pt 1 0]));
                (Some "highway", VStr "residential")]]).
Proof.
  intros odd. split; [|split].
  - match eval vm_compute in (parse_root (document [street; odd])) with
    | Ok ?p => exists p
    end.
    repeat split; vm_compute; reflexivity.
  - eexists. vm_compute. reflexivity.
  - match eval vm_compute in (@parse_tree any_ring_valid (document [street])) with
    | Ok ?t => exists t
    end.
    split; vm_compute; reflexivity.
Qed.

(** C8 fails in the same way on a closed way that carries a tag named
    [geometry].  Way 11 is closed and resolves to three distinct
    coordinates that form a ring the geometry library builds and finds
    valid; with the tag [geometry = x] beside [building = yes] neither a
    polygon feature nor a line feature is produced, and the parse is
    aborted with [ValueError].  Without that tag the way gets one polygon
    feature and one line feature. *)
Theorem C8_geometry_tag_stops_the_polygon_feature :
  let ring := [pt 0 0; pt 1 0; pt 1 1; pt 0 0] in
  let odd := Element "way" [("id", "11")]
               [nd_el "1"; nd_el "2"; nd_el "3"; nd_el "1";
                tag_el "building" "yes"; tag_el "geometry" "x"] in
  (exists self w,
      parse_root (document [odd]) = Ok self
      /\ dget 11 (ways self) = Some w
      /\ hd_error (way_nodes w) = last (way_nodes w)
      /\ resolved (nodes self) (way_nodes w) = ring
      /\ length (remove_dups ring) = 3%nat
      /\ @shapely_polygon any_ring_valid ring = PolygonBuilt true)
  /\ (exists msg, @parse_tree any_ring_valid (document [odd]) = Raise (ValueError msg))
  /\ (exists tables,
         @parse_tree any_ring_valid (document [house]) = Ok tables
         /\ table_rows tables "polygons"
            = [[(Some "id", VInt 11); (Some "geometry", VGeom (Polygon ring));
                (Some "building", VStr "yes")]]
         /\ table_rows tables "ways"
            = [[(Some "id", VInt 11); (Some "geometry", VGeom (LineString ring));
                (Some "building", VStr "yes")]]).
Proof.
  intros ring odd. split; [|split].
  - match eval vm_compute in (parse_root (document [odd])) with
    | Ok ?p => exists p;
               match eval vm_compute in (dget 11 (ways p)) with
               | Some ?w => exists w
               end
    end.
    repeat split; vm_compute; reflexivity.
  - eexists. vm_compute. reflexivity.
  - match eval vm_compute in (@parse_tree any_ring_valid (document [house])) with
    | Ok ?t => exists t
    end.
    repeat split; vm_compute; reflexivity.
Qed.



End parser_claims.

(** ** Loading and caching *)

Module IOFacts.
Import IO IOSpec.






(** Running a computation on a world given by its fields. *)
Ltac io_run :=
  cbv beta iota zeta delta
    [bind ret raise lift try_ path_exists stat_mtime unlink read_file write_file mkdir
     time print fetch get_world set_files log dmem fst snd
     cwd files clock readonly service trace f_mtime f_content].

Ltac io_go H := repeat (progress (io_run; cbn [negb]; rewrite ?H)).


Lemma given_str_some path : path <> "" -> given_str (Some path) = Some path.
Proof. destruct path; [congruence | reflexivity]. Qed.






Lemma bind_run {S A B} (m : SE S A) (k : A -> SE S B) (s : S) :
  bind m k s = match m s with (Ok a, s') => k a s' | (Raise e, s') => (Raise e, s') end.
Proof. reflexivity. Qed.



Section geometry_library.
Context `{Shapely}.



End geometry_library.
End IOFacts.

(** ** Claims about loading and caching *)

Section loading_claims.
Import IO IOSpec IOFacts Examples ParserSpec.




(** C4, as stated, fails on its first part: a load call is not required
    to name exactly one input.  Given both a file path and a place name,
    the call is accepted; the file is loaded and the place name is never
    looked at (the network of the sample world answers nothing, and no
    request is made). *)
Lemma C4_two_inputs_accepted :
  let run := @load_osm_cached any_ring_valid None (Some "Paris") (Some "map.osm")
               false ".cache" 24 sample_world in
  is_ok (fst run) = true
  /\ fst run = fst (@load_osm_cached any_ring_valid None None (Some "map.osm")
                      false ".cache" 24 sample_world)
  /\ trace (snd run)
     = [EParse "map.osm"; EExists "/data/map.osm"; ERead "/data/map.osm"].
Proof. vm_compute. repeat split; reflexivity. Qed.

(** C4, amended: at least one of a file path, a bounding box and a place
    name must be given.  A load call given none of them (absent, or empty)
    fails with the error for a missing input, and it fails before anything
    is read, written, fetched or printed: the world, trace of operations
    included, is left as it was; this holds with the cache enabled, where
    the key derivation rejects the call, and with the cache disabled, where
    the loader does.  A call given several inputs is not rejected: a file
    path makes the bounding box and the place name irrelevant, and without
    a file path a bounding box makes the place name irrelevant. *)
Theorem C4_missing_input_and_precedence `{Shapely}
  (w : world) (bbox : option (list float)) (place osm_file : option string)
  (cache_enabled : bool) (cache_dir : string) (ttl_hours : Z) :
  (given_str osm_file = None -> given_tuple bbox = None -> given_str place = None ->
   (exists msg,
       load_osm_cached bbox place osm_file cache_enabled cache_dir ttl_hours w
       = (Raise (ValueError msg), w))
   /\ (exists msg, load_osm bbox place osm_file w = (Raise (ValueError msg), w))
   /\ (exists msg, _get_cache_key bbox place osm_file w = (Raise (ValueError msg), w)))
  /\ (given_str osm_file <> None ->
      load_osm_cached bbox place osm_file cache_enabled cache_dir ttl_hours w
      = load_osm_cached None None osm_file cache_enabled cache_dir ttl_hours w)
  /\ (given_str osm_file = None -> given_tuple bbox <> None ->
      load_osm_cached bbox place osm_file cache_enabled cache_dir ttl_hours w
      = load_osm_cached bbox None None cache_enabled cache_dir ttl_hours w).
Proof.
  split; [|split].
  - intros Hf Hb Hp.
    assert (Hkey : _get_cache_key bbox place osm_file w
                   = (Raise (ValueError "No input specified"), w)).
    { unfold _get_cache_key. rewrite Hf, Hb, Hp. reflexivity. }
    assert (Hload : load_osm bbox place osm_file w
                    = (Raise (ValueError "Either bbox, place, or osm_file must be provided."),
                       w)).
    { unfold load_osm. rewrite Hf, Hb, Hp. reflexivity. }
    split; [|split]; [|eauto|eauto].
    unfold load_osm_cached. destruct cache_enabled.
    + eexists. rewrite !bind_run, Hkey. reflexivity.
    + eexists. rewrite !bind_run. cbv beta iota delta [ret]. rewrite bind_run, Hload.
      reflexivity.
  - intros Hf.
    assert (Hkey : _get_cache_key bbox place osm_file = _get_cache_key None None osm_file).
    { unfold _get_cache_key. now destruct (given_str osm_file). }
    assert (Hload : load_osm bbox place osm_file = load_osm None None osm_file).
    { unfold load_osm. now destruct (given_str osm_file). }
    unfold load_osm_cached. now rewrite Hkey, Hload.
  - intros Hf Hb.
    assert (Hkey : _get_cache_key bbox place osm_file = _get_cache_key bbox None None).
    { unfold _get_cache_key. rewrite Hf. cbn [given_str].
      now destruct (given_tuple bbox). }
    assert (Hload : load_osm bbox place osm_file = load_osm bbox None None).
    { unfold load_osm. rewrite Hf. cbn [given_str]. now destruct (given_tuple bbox). }
    unfold load_osm_cached. now rewrite Hkey, Hload.
Qed.

Lemma C4_witness :
  (exists msg,
      @load_osm_cached any_ring_valid None (Some "") None true ".cache" 24 sample_world
      = (Raise (ValueError msg), sample_world))
  /\ @load_osm_cached any_ring_valid None (Some "Paris") (Some "map.osm")
       false ".cache" 24 sample_world
     = @load_osm_cached any_ring_valid None None (Some "map.osm")
         false ".cache" 24 sample_world.
Proof.
  split.
  - exact (proj1 (proj1 (@C4_missing_input_and_precedence any_ring_valid sample_world
                           None (Some "") None true ".cache" 24)
                    eq_refl eq_refl eq_refl)).
  - apply (proj1 (proj2 (@C4_missing_input_and_precedence any_ring_valid sample_world
                           None (Some "Paris") (Some "map.osm") false ".cache" 24))).
    discriminate.
Defined.
End loading_claims.

(** ** The classifier and the store *)

Module StoreFacts.
Import Store Layers StoreSpec.
Local Open Scope se_scope.
Local Open Scope nat_scope.

Section keeps_rules.
Context {A B : Type} (n : nat).

Lemma keeps_ret (a : A) (post : A -> Prop) : post a -> keeps n (ret a) post.
Proof. intros Hp h Hn. simpl. repeat split; [lia|]. now intros ? [= <-]. Qed.

Lemma keeps_raise e (post : A -> Prop) : keeps n (raise e) post.
Proof. intros h Hn. simpl. repeat split; [lia | discriminate]. Qed.

Lemma keeps_bind (m : M A) (k : A -> M B) (mid : A -> Prop) (post : B -> Prop) :
  keeps n m mid -> (forall a, mid a -> keeps n (k a) post) -> keeps n (bind m k) post.
Proof.
  intros Hm Hk h Hn. destruct (Hm h Hn) as (Ht & Hl & Hv).
  unfold bind. destruct (m h) as [[a|e] h1]; simpl in *.
  - destruct (Hk a (Hv a eq_refl) h1 ltac:(lia)) as (Ht2 & Hl2 & Hv2).
    repeat split; [congruence | lia | exact Hv2].
  - repeat split; [exact Ht | exact Hl | discriminate].
Qed.

Lemma keeps_weaken (m : M A) (post post' : A -> Prop) :
  keeps n m post -> (forall a, post a -> post' a) -> keeps n m post'.
Proof.
  intros Hm Hw h Hn. destruct (Hm h Hn) as (Ht & Hl & Hv). repeat split; auto.
Qed.
End keeps_rules.

Lemma keeps_alloc n o : keeps n (alloc o) (fun a => n <= a).
Proof.
  intros h Hn. simpl. rewrite length_app. simpl.
  repeat split; [now apply take_app_le | lia | now intros ? [= <-]].
Qed.

Lemma keeps_deref n a : keeps n (deref a) (fun _ => True).
Proof.
  intros h Hn. unfold deref. destruct (h !! a); simpl; repeat split; auto; lia.
Qed.

(** In-place assignment keeps the first [n] objects when its target was
    created at or after [n]. *)
Lemma keeps_assign n a o : n <= a -> keeps n (assign a o) (fun _ => True).
Proof.
  intros Ha h Hn. unfold assign. cbn [fst snd]. rewrite length_insert.
  repeat split; [now apply take_insert_ge | lia].
Qed.

Lemma keeps_for_each {X V} n (l : list X) (body : V -> X -> M V) (inv : V -> Prop) v :
  (forall v x, inv v -> keeps n (body v x) inv) -> inv v -> keeps n (for_each l v body) inv.
Proof.
  intros Hbody. revert v. induction l as [|x l IH]; intros v Hv; simpl.
  - now apply keeps_ret.
  - eapply keeps_bind; [now apply Hbody | exact IH].
Qed.

Ltac keeps_read :=
  eapply keeps_bind; [apply keeps_deref | intros [] _];
  try apply keeps_raise; apply keeps_ret; exact I.

Lemma keeps_get_frame n a : keeps n (get_frame a) (fun _ => True).
Proof. unfold get_frame. keeps_read. Qed.

Lemma keeps_get_dict n a : keeps n (get_dict a) (fun _ => True).
Proof. unfold get_dict. keeps_read. Qed.

Lemma keeps_is_geodataframe n a : keeps n (is_geodataframe a) (fun _ => True).
Proof. unfold is_geodataframe. keeps_read. Qed.

Ltac keeps_frame_read :=
  eapply keeps_bind; [apply keeps_get_frame | intros [? ?] _];
  repeat match goal with |- context [if ?b then _ else _] => destruct b end;
  try apply keeps_raise; apply keeps_ret; exact I.

Lemma keeps_get_columns n a : keeps n (get_columns a) (fun _ => True).
Proof. unfold get_columns. keeps_frame_read. Qed.

Lemma keeps_get_empty n a : keeps n (get_empty a) (fun _ => True).
Proof. unfold get_empty. keeps_frame_read. Qed.

Lemma keeps_get_len n a : keeps n (get_len a) (fun _ => True).
Proof. unfold get_len. keeps_frame_read. Qed.

Lemma keeps_getitem n a c : keeps n (getitem a c) (fun _ => True).
Proof. unfold getitem. keeps_frame_read. Qed.

Lemma keeps_get_geometry n a : keeps n (get_geometry a) (fun _ => True).
Proof. unfold get_geometry. keeps_frame_read. Qed.

Lemma keeps_get_or n a c d : keeps n (get_or a c d) (fun _ => True).
Proof. unfold get_or. keeps_frame_read. Qed.

Ltac keeps_frame_new :=
  eapply keeps_bind; [apply keeps_get_frame | intros [? ?] _];
  repeat match goal with
         | |- context [if ?b then _ else _] => destruct b
         | |- context [match ?l with [] => _ | _ :: _ => _ end] => destruct l
         end;
  try apply keeps_raise; apply keeps_alloc.

Lemma keeps_to_geodataframe n a : keeps n (to_geodataframe a) (fun a' => n <= a').
Proof. unfold to_geodataframe. keeps_frame_new. Qed.

Lemma keeps_getitem_mask n a m : keeps n (getitem_mask a m) (fun a' => n <= a').
Proof. unfold getitem_mask. keeps_frame_new. Qed.

Lemma keeps_getitem_cols n a cols : keeps n (getitem_cols a cols) (fun a' => n <= a').
Proof. unfold getitem_cols. keeps_frame_new. Qed.

Lemma keeps_copy n a : keeps n (copy a) (fun a' => n <= a').
Proof. unfold copy. keeps_frame_new. Qed.

Lemma keeps_graph_to_gdfs n g : keeps n (graph_to_gdfs g) (fun a' => n <= a').
Proof.
  unfold graph_to_gdfs. eapply keeps_bind; [apply keeps_deref | intros [] _];
    try apply keeps_raise.
  destruct (rows edges); [apply keeps_raise | apply keeps_alloc].
Qed.

Lemma keeps_setitem n a c v : n <= a -> keeps n (setitem a c v) (fun _ => True).
Proof.
  intros Ha. unfold setitem.
  eapply keeps_bind; [apply keeps_get_frame | intros [? ?] _]. now apply keeps_assign.
Qed.

Lemma keeps_select_kept n x keep_cols fallback :
  keeps n (select_kept x keep_cols fallback) (fun a' => n <= a').
Proof. apply keeps_getitem_cols. Qed.

Lemma fresh_dict_dset n k a d : n <= a -> fresh_dict n d -> fresh_dict n (dset k a d).
Proof.
  intros Ha. unfold fresh_dict. induction d as [|[k' a'] d IH]; simpl; intros Hd.
  - repeat constructor. exact Ha.
  - apply Forall_cons in Hd as [H1 H2].
    destruct (decide (k = k')); constructor; auto.
Qed.

Create HintDb keeps discriminated.
#[local] Hint Resolve keeps_get_columns keeps_get_empty keeps_get_len keeps_getitem
  keeps_get_geometry keeps_get_or keeps_to_geodataframe keeps_getitem_mask
  keeps_getitem_cols keeps_copy keeps_graph_to_gdfs keeps_select_kept
  keeps_is_geodataframe keeps_get_dict keeps_get_frame : keeps.

(** One statement of a block: run it, name its result. *)
Ltac keeps_go :=
  repeat first
    [ apply keeps_raise
    | match goal with
      | |- keeps _ (bind (if ?b then _ else _) _) _ => destruct b
      | |- keeps _ (bind (ret _) _) _ =>
          eapply keeps_bind; [apply keeps_ret; exact I | intros ? _]
      | |- keeps _ (bind _ _) _ =>
          eapply keeps_bind; [solve [eauto with keeps] | intros ? ?]
      | |- keeps _ (if ?b then _ else _) _ => destruct b
      | |- keeps _ (match ?o with Some _ => _ | None => _ end) _ => destruct o
      end ].

Lemma keeps_extract_roads n d : keeps n (extract_roads d) (fresh_opt n).
Proof. unfold extract_roads. keeps_go; now apply keeps_ret. Qed.

Lemma keeps_pois_frame n p : keeps n (pois_frame p) (fun a => n <= a).
Proof.
  unfold pois_frame. keeps_go; apply keeps_copy.
Qed.

Lemma keeps_extract_buildings n d : keeps n (extract_buildings d) (fresh_opt n).
Proof.
  unfold extract_buildings. keeps_go; now apply keeps_ret.
Qed.

Lemma keeps_amenity_step n p amenities a :
  fresh_dict n amenities -> keeps n (amenity_step p amenities a) (fresh_dict n).
Proof.
  intros Hd. unfold amenity_step. keeps_go; apply keeps_ret; auto using fresh_dict_dset.
Qed.

(** The one in-place update of the classifier, [subset["label"] = key],
    targets the copy made two statements earlier. *)
Lemma keeps_poi_step n p pois key :
  fresh_dict n pois -> keeps n (poi_step p pois key) (fresh_dict n).
Proof.
  intros Hd. unfold poi_step. keeps_go; try (apply keeps_ret; auto using fresh_dict_dset).
  eapply keeps_bind; [now apply keeps_setitem | intros _ _].
  keeps_go. apply keeps_ret; auto using fresh_dict_dset.
Qed.

Lemma keeps_landuse_step n ld landuse v :
  fresh_dict n landuse -> keeps n (landuse_step ld landuse v) (fresh_dict n).
Proof.
  intros Hd. unfold landuse_step. keeps_go; apply keeps_ret; auto using fresh_dict_dset.
Qed.

Lemma keeps_extract_amenities_pois n d wa wp :
  keeps n (extract_amenities_pois d wa wp)
        (fun ap => fresh_dict n (fst ap) /\ fresh_dict n (snd ap)).
Proof.
  unfold extract_amenities_pois. destruct (dget "pois" d) as [p|].
  - eapply keeps_bind; [apply keeps_pois_frame | intros p' Hp'].
    eapply keeps_bind; [apply keeps_get_columns | intros cols _].
    eapply keeps_bind with (mid := fresh_dict n).
    + destruct (bool_decide _).
      * apply keeps_for_each; [intros; now apply keeps_amenity_step | constructor].
      * apply keeps_ret. constructor.
    + intros amenities Ha.
      eapply keeps_bind with (mid := fresh_dict n).
      * apply keeps_for_each; [intros; now apply keeps_poi_step | constructor].
      * intros pois Hpois. apply keeps_ret. now split.
  - apply keeps_ret. split; constructor.
Qed.

Lemma keeps_extract_waterways n d : keeps n (extract_waterways d) (fresh_opt n).
Proof.
  unfold extract_waterways. destruct (dget "pois" d) as [p|]; [|now apply keeps_ret].
  eapply keeps_bind; [apply keeps_pois_frame | intros p' Hp'].
  keeps_go; now apply keeps_ret.
Qed.

Lemma keeps_extract_landuse n d : keeps n (extract_landuse d) (fresh_dict n).
Proof.
  unfold extract_landuse. destruct (dget "pois" d) as [p|]; [|apply keeps_ret; constructor].
  eapply keeps_bind; [apply keeps_pois_frame | intros p' Hp'].
  keeps_go; try (apply keeps_ret; constructor).
  apply keeps_for_each; [intros; now apply keeps_landuse_step | constructor].
Qed.

Lemma keeps_extract_layers n bundle wa wp :
  keeps n (extract_layers bundle wa wp) (fresh_layers n).
Proof.
  unfold extract_layers.
  eapply keeps_bind; [apply keeps_get_dict | intros d _].
  eapply keeps_bind; [apply keeps_extract_roads | intros r Hr].
  eapply keeps_bind; [apply keeps_extract_buildings | intros b Hb].
  eapply keeps_bind; [apply keeps_extract_amenities_pois | intros ap [Ha Hp]].
  eapply keeps_bind; [apply keeps_extract_waterways | intros w Hw].
  eapply keeps_bind; [apply keeps_extract_landuse | intros l Hl].
  apply keeps_ret. repeat split; assumption.
Qed.
End StoreFacts.

Module LayerFacts.
Import Store Layers StoreSpec LayerSpec.
Local Open Scope se_scope.
Local Open Scope nat_scope.

Lemma runs_ret {A} h (a : A) (post : A -> list obj -> Prop) :
  post a h -> runs h (ret a) post.
Proof. intros Hp. exists a, h. now split. Qed.

Lemma runs_bind {A B} h (m : M A) (k : A -> M B) mid post :
  runs h m mid -> (forall a h1, mid a h1 -> runs h1 (k a) post) -> runs h (bind m k) post.
Proof.
  intros (a & h1 & Hm & Hmid) Hk. destruct (Hk a h1 Hmid) as (b & h2 & Hkr & Hp).
  exists b, h2. split; [|exact Hp]. unfold bind. now rewrite Hm.
Qed.

Lemma runs_weaken {A} h (m : M A) (post post' : A -> list obj -> Prop) :
  runs h m post -> (forall a h', post a h' -> post' a h') -> runs h m post'.
Proof. intros (a & h' & Hm & Hp) Hw. exists a, h'. auto. Qed.

(** *** Masks *)

Lemma filter_by_mask {X} (P : X -> bool) (l : list X) :
  map snd (List.filter fst (combine (map P l) l)) = List.filter P l.
Proof.
  induction l as [|x l IH]; simpl; [reflexivity|].
  destruct (P x); simpl; now rewrite IH.
Qed.

Lemma select_mask_column f c (P : value -> bool) :
  select_mask f (map P (column f c))
  = Frame (columns f) (List.filter (fun r => P (cell r c)) (rows f)).
Proof.
  unfold select_mask, column. rewrite map_map. now rewrite filter_by_mask.
Qed.

Lemma mask_or_maps {X} (P Q : X -> bool) (l : list X) :
  mask_or (map P l) (map Q l) = map (fun x => P x || Q x) l.
Proof.
  unfold mask_or. induction l as [|x l IH]; simpl; [reflexivity | now rewrite IH].
Qed.

Lemma map_repeat_length {X Y Z} (g : Y -> Z) (y : Y) (l : list X) :
  map g (repeat y (length l)) = map (fun _ => g y) l.
Proof. induction l as [|x l IH]; simpl; [reflexivity | now rewrite IH]. Qed.

(** *** The operations on a store where the frame is known *)

Section known_frame.
Context (h : list obj) (a : nat) (geo : bool) (f : frame).
Hypothesis Ha : h !! a = Some (OFrame geo f).

Lemma get_frame_run : get_frame a h = (Ok (geo, f), h).
Proof. unfold get_frame, bind, deref. now rewrite Ha. Qed.

Lemma runs_get_columns : runs h (get_columns a) (fun v h' => v = columns f /\ h' = h).
Proof. eexists _, _. unfold get_columns, bind. rewrite get_frame_run. now split. Qed.

Lemma runs_get_empty : runs h (get_empty a) (fun v h' => v = is_empty f /\ h' = h).
Proof. eexists _, _. unfold get_empty, bind. rewrite get_frame_run. now split. Qed.

Lemma runs_get_len : runs h (get_len a) (fun v h' => v = length (rows f) /\ h' = h).
Proof. eexists _, _. unfold get_len, bind. rewrite get_frame_run. now split. Qed.

Lemma runs_is_geodataframe : runs h (is_geodataframe a) (fun v h' => v = geo /\ h' = h).
Proof. eexists _, _. unfold is_geodataframe, bind, deref. rewrite Ha. now split. Qed.

Lemma runs_getitem c :
  has_column f (Some c) = true ->
  runs h (getitem a c) (fun v h' => v = column f (Some c) /\ h' = h).
Proof.
  intros Hc. eexists _, _. unfold getitem, bind. rewrite get_frame_run. simpl.
  rewrite Hc. now split.
Qed.

Lemma runs_get_geometry :
  has_column f (Some "geometry") = true ->
  runs h (get_geometry a) (fun v h' => v = column f (Some "geometry") /\ h' = h).
Proof.
  intros Hc. eexists _, _. unfold get_geometry, bind. rewrite get_frame_run. simpl.
  rewrite Hc. now split.
Qed.

Lemma runs_get_or c dflt :
  runs h (get_or a c dflt)
       (fun v h' => v = (if has_column f (Some c) then column f (Some c) else dflt)
                    /\ h' = h).
Proof. eexists _, _. unfold get_or, bind. rewrite get_frame_run. now split. Qed.

Lemma runs_getitem_mask m :
  runs h (getitem_mask a m)
       (fun v h' => v = length h /\ h' = h ++ [OFrame geo (select_mask f m)]).
Proof. eexists _, _. unfold getitem_mask, bind. rewrite get_frame_run. now split. Qed.

Lemma runs_copy :
  runs h (copy a) (fun v h' => v = length h /\ h' = h ++ [OFrame geo f]).
Proof. eexists _, _. unfold copy, bind. rewrite get_frame_run. now split. Qed.

Lemma runs_to_geodataframe :
  has_column f (Some "geometry") = true -> geometries f = true ->
  runs h (to_geodataframe a) (fun v h' => v = length h /\ h' = h ++ [OFrame true f]).
Proof.
  intros Hc Hgeo. eexists _, _. unfold to_geodataframe, bind. rewrite get_frame_run. simpl.
  rewrite Hc, Hgeo. now split.
Qed.

Lemma runs_getitem_cols cols :
  Forall (fun c => has_column f (Some c) = true) cols ->
  runs h (getitem_cols a cols)
       (fun v h' => v = length h
                    /\ h' = h ++ [OFrame geo (select_columns f (map Some cols))]).
Proof.
  intros Hc. eexists _, _. unfold getitem_cols, bind. rewrite get_frame_run. simpl.
  replace (List.filter (fun c => negb (has_column f (Some c))) cols) with (@nil string).
  - now split.
  - symmetry. induction Hc as [|c cols Hc1 Hc2 IH]; simpl; [reflexivity|].
    now rewrite Hc1.
Qed.

Lemma runs_setitem c v :
  runs h (setitem a c v)
       (fun _ h' => h' = <[a := OFrame geo (set_column f (Some c) v)]> h).
Proof. eexists _, _. unfold setitem, bind. rewrite get_frame_run. now split. Qed.
End known_frame.

Lemma runs_graph_to_gdfs h g edges :
  h !! g = Some (OGraph edges) -> rows edges <> [] ->
  runs h (graph_to_gdfs g) (fun v h' => v = length h /\ h' = h ++ [OFrame true edges]).
Proof.
  intros Hg Hr. eexists _, _. unfold graph_to_gdfs, bind, deref. rewrite Hg.
  destruct (rows edges); [congruence|]. now split.
Qed.

Lemma lookup_last {X} (l : list X) (x : X) : (l ++ [x]) !! length l = Some x.
Proof. now apply list_lookup_middle. Qed.

Lemma insert_last {X} (l : list X) (x y : X) : <[length l := y]> (l ++ [x]) = l ++ [y].
Proof.
  replace (length l) with (length l + 0) by lia. now rewrite insert_app_r.
Qed.

Lemma keep_has_columns allow cols f :
  cols = columns f ->
  Forall (fun c => has_column f (Some c) = true) (keep allow cols).
Proof.
  intros ->. unfold keep. apply Forall_forall. intros c Hin.
  apply list_elem_of_In, filter_In in Hin as [_ Hc]. exact Hc.
Qed.

(** *** The blocks of the classifier on a well-formed bundle *)

Ltac lk := first [ eassumption | apply lookup_last | apply lookup_app_l_Some; lk ].

Ltac run lem :=
  eapply runs_bind; [ eapply lem; try lk | intros ? ? [-> ->] ].

Ltac run_ret :=
  match goal with
  | |- runs ?h (bind (ret ?x) _) _ =>
      eapply (runs_bind h _ _ (fun a h1 => a = x /\ h1 = h));
      [apply runs_ret; split; reflexivity | intros ? ? [-> ->]]
  end.

Ltac prefix_tac :=
  repeat first [ reflexivity | apply prefix_app_r ].

Lemma kept_columns_ok (f : frame) allow cols fallback :
  cols = columns f ->
  has_column f (Some "geometry") = true ->
  Forall (fun c => has_column f (Some c) = true) fallback ->
  Forall (fun c => has_column f (Some c) = true)
         (match keep allow cols with [] => fallback | _ => keep allow cols ++ ["geometry"] end).
Proof.
  intros Hc Hg Hf. pose proof (keep_has_columns allow cols f Hc) as Hk.
  destruct (keep allow cols); [exact Hf|].
  apply Forall_app. split; [exact Hk|]. now repeat constructor.
Qed.

Lemma runs_select_kept h a geo f allow cols fallback :
  h !! a = Some (OFrame geo f) ->
  cols = columns f ->
  has_column f (Some "geometry") = true ->
  Forall (fun c => has_column f (Some c) = true) fallback ->
  runs h (select_kept a (keep allow cols) fallback)
       (fun v h' => v = length h /\ exists f', h' = h ++ [OFrame geo f']).
Proof.
  intros Ha Hc Hg Hf. unfold select_kept.
  eapply runs_weaken.
  - eapply runs_getitem_cols; [exact Ha|]. now apply kept_columns_ok.
  - intros v h' [-> ->]. eauto.
Qed.

Lemma runs_pois_frame h pa geo p :
  h !! pa = Some (OFrame geo p) ->
  has_column p (Some "geometry") = true ->
  geometries p = true ->
  runs h (pois_frame pa)
       (fun a h' => h `prefix_of` h'
                    /\ frame_at h' a (Frame (columns p) (with_geometry p))).
Proof.
  intros Hp Hg Hgeo. unfold pois_frame. run runs_is_geodataframe.
  destruct geo.
  - run_ret.
    run runs_get_geometry. run runs_getitem_mask.
    eapply runs_weaken; [eapply runs_copy; lk|]. intros v h' [-> ->].
    split; [prefix_tac|]. eexists. rewrite select_mask_column. apply lookup_last.
  - run runs_to_geodataframe.
    run runs_get_geometry. run runs_getitem_mask.
    eapply runs_weaken; [eapply runs_copy; lk|]. intros v h' [-> ->].
    split; [prefix_tac|]. eexists. rewrite select_mask_column. apply lookup_last.
Qed.

Lemma runs_extract_roads h d :
  roads_usable h d ->
  runs h (extract_roads d) (fun _ h' => h `prefix_of` h').
Proof.
  unfold roads_usable, extract_roads. destruct (dget "roads_graph" d) as [g|].
  - intros (edges & Hg & Hr & Hc). run runs_graph_to_gdfs.
    run runs_get_columns.
    eapply runs_bind.
    + eapply runs_select_kept; [lk | reflexivity | exact Hc | now repeat constructor].
    + intros ? ? (-> & f' & ->). apply runs_ret. prefix_tac.
  - intros _. now apply runs_ret.
Qed.

Lemma runs_extract_buildings h d :
  buildings_usable h d ->
  runs h (extract_buildings d) (fun _ h' => h `prefix_of` h').
Proof.
  unfold buildings_usable, extract_buildings. destruct (dget "buildings" d) as [b|].
  - intros (geo & f & Hb & Hc & Hgeo). run runs_is_geodataframe.
    assert (Hrest : forall h1 b1 geo1, h `prefix_of` h1 -> h1 !! b1 = Some (OFrame geo1 f) ->
              runs h1
                (g <- get_geometry b1;;
                 b2 <- getitem_mask b1 (map notna g);;
                 g0 <- get_geometry b2;;
                 buildings <- getitem_mask b2 (map is_polygonal g0);;
                 buildings0 <- copy buildings;;
                 cols <- get_columns buildings0;;
                 buildings1 <- select_kept buildings0
                                 (keep ["building"; "name"; "levels"; "height"] cols)
                                 ["geometry"];;
                 ret (Some buildings1))
                (fun _ h' => h `prefix_of` h')).
    { intros h1 b1 geo1 Hpre Hb1.
      run runs_get_geometry. run runs_getitem_mask.
      run runs_get_geometry. run runs_getitem_mask.
      run runs_copy. run runs_get_columns.
      eapply runs_bind.
      - eapply runs_select_kept; [lk | reflexivity | exact Hc | now repeat constructor].
      - intros ? ? (-> & f' & ->). apply runs_ret.
        etrans; [exact Hpre|]. prefix_tac. }
    destruct geo.
    + run_ret.
      now apply (Hrest h b true).
    + run runs_to_geodataframe. apply (Hrest _ _ true); [prefix_tac | lk].
  - intros _. now apply runs_ret.
Qed.

Lemma frame_at_prefix h h' a f : frame_at h a f -> h `prefix_of` h' -> frame_at h' a f.
Proof. intros [g Hg] Hp. exists g. eapply prefix_lookup_Some; eauto. Qed.

Lemma is_empty_rows cols rs :
  cols <> [] -> is_empty (Frame cols rs) = match rs with [] => true | _ => false end.
Proof. intros Hc. unfold is_empty; simpl. destruct rs, cols; congruence. Qed.

Lemma has_column_nonempty f c : has_column f c = true -> columns f <> [].
Proof.
  unfold has_column. intros Hc E. rewrite E in Hc.
  apply bool_decide_eq_true_1 in Hc. inversion Hc.
Qed.

Lemma select_mask_rows f (P : record -> bool) :
  select_mask f (map P (rows f)) = Frame (columns f) (List.filter P (rows f)).
Proof. unfold select_mask. now rewrite filter_by_mask. Qed.

(** A loop whose body keeps an invariant of the carried value and the
    store runs to the end and establishes it. *)
Lemma runs_for_each {X V} (body : V -> X -> M V) (inv : V -> list obj -> Prop) l :
  (forall v x h1, inv v h1 -> runs h1 (body v x) inv) ->
  forall v h, inv v h -> runs h (for_each l v body) inv.
Proof.
  intros Hbody. induction l as [|x l IH]; intros v h Hv; cbn [for_each].
  - now apply runs_ret.
  - eapply runs_bind; [now apply Hbody | intros v' h1 Hv']. now apply IH.
Qed.

Lemma runs_amenity_step h pa fp amenities a :
  frame_at h pa fp ->
  has_column fp (Some "amenity") = true ->
  has_column fp (Some "geometry") = true ->
  runs h (amenity_step pa amenities a) (fun _ h' => h `prefix_of` h').
Proof.
  intros [geo Hp] Ham Hg. unfold amenity_step.
  run runs_getitem. run runs_getitem_mask. run runs_copy. run runs_get_empty.
  destruct (negb _); [|apply runs_ret; prefix_tac].
  run runs_get_columns.
  eapply runs_bind.
  - eapply runs_getitem_cols; [lk|].
    destruct (bool_decide _) eqn:E; repeat constructor; auto.
  - intros ? ? [-> ->]. apply runs_ret. prefix_tac.
Qed.

Lemma runs_landuse_step h ld fl landuse v :
  frame_at h ld fl ->
  has_column fl (Some "landuse") = true ->
  has_column fl (Some "geometry") = true ->
  runs h (landuse_step ld landuse v) (fun _ h' => h `prefix_of` h').
Proof.
  intros [geo Hp] Hl Hg. unfold landuse_step.
  destruct (notna v); [|apply runs_ret; prefix_tac].
  run runs_getitem. run runs_getitem_mask. run runs_copy. run runs_get_empty.
  destruct (negb _); [|apply runs_ret; prefix_tac].
  run runs_get_columns.
  eapply runs_bind.
  - eapply runs_select_kept; [lk | reflexivity | exact Hg | now repeat constructor].
  - intros ? ? (-> & f' & ->). apply runs_ret. prefix_tac.
Qed.

Lemma runs_extract_waterways h d pa geo p :
  dget "pois" d = Some pa ->
  h !! pa = Some (OFrame geo p) ->
  has_column p (Some "geometry") = true ->
  geometries p = true ->
  runs h (extract_waterways d) (fun _ h' => h `prefix_of` h').
Proof.
  intros Hd Hp Hg Hgeo. unfold extract_waterways. rewrite Hd.
  eapply runs_bind; [eapply runs_pois_frame; eauto | intros p' h1 [Hpre [geo' Hp']]].
  run runs_get_columns. cbn [columns].
  destruct (bool_decide (Some "waterway" ∈ columns p)) eqn:Hw;
    [|apply runs_ret; exact Hpre].
  run runs_getitem. run runs_getitem_mask. run runs_copy. run runs_get_empty.
  destruct (negb _); [|apply runs_ret; etrans; [exact Hpre | prefix_tac]].
  run runs_get_columns.
  eapply runs_bind.
  - eapply runs_select_kept; [lk | reflexivity | exact Hg | now repeat constructor].
  - intros ? ? (-> & f' & ->). apply runs_ret. etrans; [exact Hpre | prefix_tac].
Qed.

Lemma runs_extract_landuse h d pa geo p :
  dget "pois" d = Some pa ->
  h !! pa = Some (OFrame geo p) ->
  has_column p (Some "geometry") = true ->
  geometries p = true ->
  runs h (extract_landuse d) (fun _ h' => h `prefix_of` h').
Proof.
  intros Hd Hp Hg Hgeo. unfold extract_landuse. rewrite Hd.
  eapply runs_bind; [eapply runs_pois_frame; eauto | intros p' h1 [Hpre [geo' Hp']]].
  run runs_get_columns. cbn [columns].
  destruct (bool_decide (Some "landuse" ∈ columns p)) eqn:Hw;
    [|apply runs_ret; exact Hpre].
  run runs_getitem. run runs_getitem_mask. run runs_copy. run runs_get_empty.
  destruct (negb _); [|apply runs_ret; etrans; [exact Hpre | prefix_tac]].
  run runs_getitem.
  match goal with
  | |- runs ?hs (for_each _ _ (landuse_step ?ld)) _ =>
      eapply runs_weaken;
      [ apply (runs_for_each (landuse_step ld)
                 (fun _ h' => hs `prefix_of` h')) | ]
  end.
  - intros v x h2 Hpre2.
    eapply runs_weaken.
    + eapply runs_landuse_step.
      * eapply frame_at_prefix; [|exact Hpre2]. eexists. lk.
      * exact Hw.
      * exact Hg.
    + intros ? h3 Hpre3. etrans; eassumption.
  - reflexivity.
  - intros ? h3 Hpre3. etrans; [exact Hpre|]. etrans; [|exact Hpre3]. prefix_tac.
Qed.

(** One turn of the loop over the requested keys returns when the key is
    matched without a default series: it names a column of the table, or
    the table has both an [amenity] and a [shop] column. *)
Lemma runs_poi_step h pa p pois key :
  frame_at h pa (Frame (columns p) (with_geometry p)) ->
  has_column p (Some "geometry") = true ->
  has_column p (Some key) = true
  \/ (has_column p (Some "amenity") = true /\ has_column p (Some "shop") = true) ->
  runs h (poi_step pa pois key) (fun _ h' => h `prefix_of` h').
Proof.
  intros [geo Hp] Hg _. unfold poi_step.
  run runs_get_columns. cbn [columns].
  change (bool_decide (Some key ∈ columns p)) with (has_column p (Some key)).
  destruct (has_column p (Some key)) eqn:Hk.
  - run runs_getitem. run runs_getitem_mask. run runs_copy. run runs_get_empty.
    destruct (negb _); [|apply runs_ret; prefix_tac].
    rewrite select_mask_column.
    eapply runs_bind.
    + eapply runs_getitem_cols; [lk|]. repeat constructor; assumption.
    + intros ? ? [-> ->]. apply runs_ret. prefix_tac.
  - run runs_get_len. run runs_get_or. run runs_get_len. run runs_get_or.
    run runs_getitem_mask. run runs_copy. run runs_get_empty.
    destruct (negb _); [|apply runs_ret; prefix_tac].
    eapply runs_bind; [eapply runs_setitem; lk | intros ? ? ->].
    rewrite insert_last.
    eapply runs_bind.
    + eapply runs_getitem_cols; [lk|].
      unfold set_column, select_mask, has_column. cbn [columns].
      change (bool_decide (Some "label" ∈ columns p))
        with (has_column p (Some "label")).
      repeat constructor.
      * destruct (has_column p (Some "label")) eqn:Hl; [exact Hl|].
        apply bool_decide_eq_true_2, elem_of_app. right. left.
      * destruct (has_column p (Some "label")) eqn:Hl; [exact Hg|].
        apply bool_decide_eq_true_2, elem_of_app. left.
        now apply bool_decide_eq_true_1 in Hg.
    + intros ? ? [-> ->]. apply runs_ret. prefix_tac.
Qed.

End LayerFacts.

(** ** Claims about the layer classifier *)

Section classifier_claims.
Import Store Layers StoreSpec StoreFacts LayerSpec LayerFacts IO Examples ParserSpec.

(** No bundle produced from a file has a ["roads_graph"] entry: the file
    branch of the loader files the road lines under ["roads"]. *)
Lemma file_bundle_has_no_roads_graph osm_data b :
  bundle_of_osm_data osm_data = Ok b -> dget "roads_graph" b = None.
Proof.
  unfold bundle_of_osm_data. intros Hb.
  assert (Hset : forall (k : string) v (d : bundle),
             k <> "roads_graph" -> dget "roads_graph" d = None ->
             dget "roads_graph" (dset k v d) = None).
  { intros k v d Hk Hd. now rewrite dget_dset_ne. }
  destruct (dget "ways" osm_data) as [ways|]; simpl in Hb.
  - destruct (dget "polygons" osm_data) as [polygons|]; simpl in Hb; [|discriminate].
    repeat match type of Hb with
           | context [if ?c then _ else _] => destruct c; simpl in Hb
           | context [match ?l with [] => _ | _ :: _ => _ end] => destruct l; simpl in Hb
           end;
      injection Hb as <-; reflexivity.
  - repeat match type of Hb with
           | context [match ?l with [] => _ | _ :: _ => _ end] => destruct l; simpl in Hb
           end;
      injection Hb as <-; reflexivity.
Qed.

(** C1 fails on the file-based path.  Loading the sample document gives
    a bundle whose ["roads"] table holds the residential street, with a
    non-empty [highway]; the classifier, which only looks for
    ["roads_graph"], returns no roads layer for it. *)
Theorem C1_file_bundle_gets_no_roads_layer :
  let loaded := @load_osm any_ring_valid None None (Some "map.osm") sample_world in
  exists b roads_table layers h',
    fst loaded = Ok b
    /\ dget "roads" b = Some (BFrame roads_table)
    /\ column roads_table (Some "highway") = [VStr "residential"]
    /\ extract_layers (snd (store_of_bundle b)) ["school"; "hospital"] ["bank"; "atm"]
         (fst (store_of_bundle b)) = (Ok layers, h')
    /\ roads layers = None.
Proof.
  intros loaded.
  let r := eval vm_compute in (fst loaded) in
  match r with
  | Ok ?b =>
      exists b;
      let t := eval vm_compute in (dget "roads" b) in
      match t with
      | Some (BFrame ?f) => exists f
      end;
      let run := eval vm_compute in
        (extract_layers (snd (store_of_bundle b)) ["school"; "hospital"] ["bank"; "atm"]
           (fst (store_of_bundle b))) in
      match run with
      | (Ok ?layers, ?h') => exists layers, h'
      end
  end.
  repeat split; vm_compute; reflexivity.
Qed.

(** C6 fails when the key names a column of the table.  Here a feature
    has [shop = supermarket] and no [supermarket] attribute, so that it
    should be found under [supermarket] with a label; but another feature
    carries [supermarket = no], the table therefore has a column of that
    name, the fallback on [amenity] and [shop] is not tried for any
    feature, and [pois] has no entry for [supermarket]. *)
Lemma C6_no_fallback_when_column_exists :
  exists r1 r2 layers h',
    rows flagged_pois = [r1; r2]
    /\ flag_match "supermarket" r2 = false
    /\ eq_str "supermarket" (cell r2 (Some "shop")) = true
    /\ extract_layers 1 [] ["bank"; "supermarket"] flagged_store = (Ok layers, h')
    /\ dget "supermarket" (pois layers) = None.
Proof.
  let rs := eval vm_compute in (rows flagged_pois) in
  match rs with
  | [?r1; ?r2] => exists r1, r2
  end.
  let run := eval vm_compute in (extract_layers 1 [] ["bank"; "supermarket"] flagged_store) in
  match run with
  | (Ok ?layers, ?h') => exists layers, h'
  end.
  repeat split; vm_compute; reflexivity.
Qed.

(** C10: whatever the store and the reference passed as the bundle, a
    call of the classifier leaves every object that existed before it
    (the bundle mapping, the tables it refers to, anything else) as it
    was, and every layer it returns is an object created during the
    call. *)
Theorem C10_extract_layers_leaves_its_input
  (h : list obj) (osm_bundle : nat) (wanted_amenities wanted_pois : list string) :
  (forall a o, h !! a = Some o ->
     snd (extract_layers osm_bundle wanted_amenities wanted_pois h) !! a = Some o)
  /\ (forall layers,
        fst (extract_layers osm_bundle wanted_amenities wanted_pois h) = Ok layers ->
        fresh_layers (length h) layers).
Proof.
  destruct (keeps_extract_layers (length h) osm_bundle wanted_amenities wanted_pois h)
    as (Htake & Hlen & Hfresh); [reflexivity|].
  split; [|exact Hfresh].
  intros a o Ha.
  pose proof (lookup_lt_Some _ _ _ Ha) as Hlt.
  rewrite <- (lookup_take_lt _ (length h)) by exact Hlt.
  rewrite Htake, take_ge by reflexivity. exact Ha.
Qed.

Lemma C10_witness :
  let run := extract_layers 2 ["school"; "hospital"] ["bank"; "supermarket"] test_store in
  test_store !! 1%nat = Some (OFrame true test_pois)
  /\ is_ok (fst run) = true
  /\ snd run !! 1%nat = Some (OFrame true test_pois).
Proof.
  intros run. split; [reflexivity|]. split; [vm_compute; reflexivity|].
  apply (proj1 (C10_extract_layers_leaves_its_input test_store 2
                  ["school"; "hospital"] ["bank"; "supermarket"])).
  reflexivity.
Defined.
End classifier_claims.

(** * Further properties *)

(** ** The structural parser *)

Section parser_more.
Import OSMParser OSMParserFrames ParserSpec ParserFacts ParserMore TagFacts TableFacts IO.

Lemma parse_element_unknown acc e : known_element e = false -> parse_element acc e = acc.
Proof.
  unfold known_element, parse_element. intros Hk.
  apply orb_false_elim in Hk as [Hk Hr]. apply orb_false_elim in Hk as [Hn Hw].
  destruct acc as [p|x]; simpl; [|reflexivity]. now rewrite Hn, Hw, Hr.
Qed.

Lemma way_child_unknown acc c : way_part c = false -> way_child acc c = acc.
Proof.
  unfold way_part, way_child. intros Hk. apply orb_false_elim in Hk as [Hn Ht].
  destruct acc as [p|x]; simpl; [|reflexivity]. now rewrite Hn, Ht.
Qed.

Lemma relation_child_unknown acc c : relation_part c = false -> relation_child acc c = acc.
Proof.
  unfold relation_part, relation_child. intros Hk. apply orb_false_elim in Hk as [Hn Ht].
  destruct acc as [p|x]; simpl; [|reflexivity]. now rewrite Hn, Ht.
Qed.

Lemma fold_left_skips {A B} (step : A -> B -> A) (keep : B -> bool) (l : list B) :
  (forall a b, keep b = false -> step a b = a) ->
  forall a, fold_left step l a = fold_left step (List.filter keep l) a.
Proof.
  intros Hskip. induction l as [|b l IH]; intros a; simpl; [reflexivity|].
  destruct (keep b) eqn:Hb; simpl; [apply IH|]. rewrite (Hskip a b Hb). apply IH.
Qed.

(** Elements that the parser does not know are passed over: at top level
    anything but node, way and relation, inside a way anything but nd and
    tag, inside a relation anything but member and tag.  Parsing gives the
    same result as for the document without them. *)
Theorem unknown_elements_are_ignored (e : element) :
  parse_root e = parse_root (with_children e (List.filter known_element (children e)))
  /\ parse_way_data e
     = parse_way_data (with_children e (List.filter way_part (children e)))
  /\ parse_relation_data e
     = parse_relation_data (with_children e (List.filter relation_part (children e))).
Proof.
  destruct e as [t a cs]. unfold parse_root, parse_way_data, parse_relation_data,
    with_children, eget. cbn [children attrib etag].
  split; [|split].
  - apply fold_left_skips. intros; now apply parse_element_unknown.
  - destruct (py_int (dget "id" a)); [|reflexivity]. cbn [rbind].
    apply fold_left_skips. intros; now apply way_child_unknown.
  - destruct (py_int (dget "id" a)); [|reflexivity]. cbn [rbind].
    apply fold_left_skips. intros; now apply relation_child_unknown.
Qed.

Lemma parse_element_any p q e :
  match parse_element (Ok p) e with
  | Ok _ => is_ok (parse_element (Ok q) e) = true
  | Raise x => parse_element (Ok q) e = Raise x
  end.
Proof.
  unfold parse_element, _parse_node, _parse_way, _parse_relation. cbn [rbind].
  repeat match goal with |- context [String.eqb ?a ?b] => destruct (String.eqb a b) end;
    repeat match goal with
           | |- context [rbind ?r _] => destruct r; cbn [rbind is_ok]
           end; reflexivity.
Qed.

Lemma parse_fold_ok l : forall p,
  is_ok (fold_left parse_element l (Ok p)) = forallb element_ok l.
Proof.
  induction l as [|e l IH]; intros p; [reflexivity|]. cbn [fold_left forallb].
  unfold element_ok at 1. pose proof (parse_element_any p empty e) as Hany.
  destruct (parse_element (Ok p) e) as [p'|x] eqn:He.
  - rewrite Hany. apply IH.
  - rewrite Hany, parse_fold_raise. reflexivity.
Qed.

(** The element loop of [parse_file] completes exactly when each
    top-level element parses on its own, and [parse_file] returns only if
    it does: one element with a missing or malformed number makes the
    whole parse fail, with the error of the first such element, before any
    table is built. *)
Theorem one_bad_element_fails_the_document `{Shapely} (root : element) :
  is_ok (parse_root root) = forallb element_ok (children root)
  /\ (is_ok (parse_tree root) = true -> forallb element_ok (children root) = true)
  /\ forall pre e post x,
       children root = pre ++ e :: post ->
       forallb element_ok pre = true ->
       parse_element (Ok empty) e = Raise x ->
       parse_root root = Raise x /\ parse_tree root = Raise x.
Proof.
  split; [apply parse_fold_ok|]. split.
  - unfold parse_tree. pose proof (parse_fold_ok (children root) empty) as Hp.
    fold (parse_root root) in Hp. rewrite <- Hp.
    destruct (parse_root root); [reflexivity|]. cbn [rbind is_ok]. discriminate.
  - intros pre e post x Hc Hpre He.
    assert (Hroot : parse_root root = Raise x).
    { unfold parse_root. rewrite Hc, fold_left_app.
      pose proof (parse_fold_ok pre empty) as Hp. rewrite Hpre in Hp.
      destruct (fold_left parse_element pre (Ok empty)) as [p|y]; [|discriminate].
      cbn [fold_left]. pose proof (parse_element_any empty p e) as Hany.
      rewrite He in Hany. rewrite Hany. apply parse_fold_raise. }
    split; [exact Hroot|]. unfold parse_tree. now rewrite Hroot.
Qed.

Lemma one_bad_element_fails_the_document_witness :
  let doc := Element "osm" [] [Examples.node_el "1" "0" "0"; Element "way" [] [];
                               Examples.node_el "2" "0" "1"] in
  parse_root doc = Raise TypeError /\ @parse_tree any_ring_valid doc = Raise TypeError.
Proof.
  intros doc.
  apply (proj2 (proj2 (@one_bad_element_fails_the_document any_ring_valid doc))
            [Examples.node_el "1" "0" "0"] (Element "way" [] [])
            [Examples.node_el "2" "0" "1"] TypeError).
  - reflexivity.
  - vm_compute. reflexivity.
  - vm_compute. reflexivity.
Defined.

Lemma way_fold_nodes cs : forall wid ns ts wd,
  fold_left way_child cs (Ok (Way wid ns ts)) = Ok wd ->
  way_id wd = wid
  /\ exists refs, way_nodes wd = ns ++ refs
       /\ map (fun c => py_int (eget c "ref"))
              (List.filter (fun c => String.eqb (etag c) "nd") cs) = map Ok refs.
Proof.
  induction cs as [|c cs IH]; intros wid ns ts wd Hf.
  - simpl in Hf. injection Hf as <-. split; [reflexivity|]. exists []. now rewrite app_nil_r.
  - cbn [fold_left] in Hf. unfold way_child at 2 in Hf. cbn [rbind] in Hf.
    cbn [List.filter]. destruct (String.eqb (etag c) "nd") eqn:Hnd.
    + destruct (py_int (eget c "ref")) as [r|x] eqn:Hr; cbn [rbind] in Hf.
      * cbn [way_id way_nodes way_tags] in Hf. apply IH in Hf as (Hid & refs & Hn & Hm).
        split; [exact Hid|]. exists (r :: refs). split.
        -- now rewrite Hn, <- app_assoc.
        -- cbn [map]. now rewrite Hr, Hm.
      * now rewrite way_fold_raise in Hf.
    + destruct (String.eqb (etag c) "tag"); cbn [way_id way_nodes way_tags] in Hf;
        [apply IH in Hf|destruct (Way wid ns ts) eqn:E; injection E as -> -> ->;
                         apply IH in Hf]; exact Hf.
Qed.

Lemma way_fold_builds cs : forall wid ns ts refs,
  map (fun c => py_int (eget c "ref"))
      (List.filter (fun c => String.eqb (etag c) "nd") cs) = map Ok refs ->
  exists tags, fold_left way_child cs (Ok (Way wid ns ts)) = Ok (Way wid (ns ++ refs) tags).
Proof.
  induction cs as [|c cs IH]; intros wid ns ts refs Hm.
  - destruct refs; [|discriminate]. exists ts. now rewrite app_nil_r.
  - cbn [fold_left]. unfold way_child at 2. cbn [rbind].
    cbn [List.filter] in Hm. destruct (String.eqb (etag c) "nd") eqn:Hnd.
    + destruct refs as [|r refs]; [discriminate|]. cbn [map] in Hm.
      injection Hm as Hr Hm. rewrite Hr. cbn [rbind way_id way_nodes way_tags].
      destruct (IH wid (ns ++ [r]) ts refs Hm) as [tags Ht]. exists tags.
      now rewrite Ht, <- app_assoc.
    + destruct (String.eqb (etag c) "tag"); cbn [way_id way_nodes way_tags];
        now apply IH.
Qed.

(** The node list of a way is the list of the [ref] attributes of its
    [nd] children, read as integers, in document order and with
    repetitions; a way element parses exactly when its [id] and all these
    references are integers. *)
Theorem way_nodes_are_the_nd_references (e : element) (wid : Z) (refs : list Z) :
  (exists tags, parse_way_data e = Ok (Way wid refs tags))
  <-> py_int (eget e "id") = Ok wid
      /\ map (fun c => py_int (eget c "ref")) (nd_children e) = map Ok refs.
Proof.
  unfold parse_way_data, nd_children. split.
  - intros [tags Hp]. destruct (py_int (eget e "id")) as [i|x]; [|discriminate].
    cbn [rbind] in Hp. apply way_fold_nodes in Hp as (Hid & refs' & Hn & Hm).
    cbn in Hid, Hn. subst. now split.
  - intros [Hid Hm]. rewrite Hid. cbn [rbind].
    destruct (way_fold_builds (children e) wid [] [] refs Hm) as [tags Ht].
    now exists tags.
Qed.

(** *** The tables are dictionaries *)

(** Whatever the document, the tables of a finished parse are proper
    dictionaries: no identifier occurs twice in the node, way or relation
    table (a repeated identifier overwrites), every way and relation is
    stored under its own identifier, and no tag key occurs twice. *)
Theorem parsed_tables_are_dictionaries (root : element) (self : parser) :
  parse_root root = Ok self -> tables_ok self.
Proof. apply parse_root_tables_ok. Qed.

Lemma parsed_tables_are_dictionaries_witness :
  exists self, parse_root Examples.sample_root = Ok self /\ tables_ok self.
Proof.
  eexists. split; [vm_compute; reflexivity|].
  apply (parsed_tables_are_dictionaries Examples.sample_root). vm_compute. reflexivity.
Defined.

(** *** How many features *)

Lemma feature_list_counts `{Shapely} (self : parser) :
  length (lines_data self) = length (List.filter (resolves 2 (nodes self)) (ways self))
  /\ (length (polygons_data self)
      <= length (List.filter (resolves 3 (nodes self)) (ways self)))%nat
  /\ (length (polygons_data self) <= length (lines_data self))%nat.
Proof.
  change (lines_data self) with (lines_from (nodes self) (ways self)).
  change (polygons_data self) with (polygons_from (nodes self) (ways self)).
  generalize (nodes self) as nt. intros nt.
  induction (ways self) as [|[wid w] l (IH1 & IH2 & IH3)]; [repeat split; cbn; lia|].
  rewrite lines_from_cons, polygons_from_cons, !length_app, lines_from_one,
    polygons_from_one.
  cbn [List.filter].
  change (resolves 2 nt (wid, w)) with (2 <=? length (resolved nt (way_nodes w)))%nat.
  change (resolves 3 nt (wid, w)) with (3 <=? length (resolved nt (way_nodes w)))%nat.
  destruct (Nat.leb_spec 2 (length (resolved nt (way_nodes w)))) as [H2|H2];
    destruct (Nat.leb_spec 3 (length (resolved nt (way_nodes w)))) as [H3|H3]; try lia;
    rewrite ?andb_false_r; cbn [length].
  - destruct (_ && _ && true);
      [destruct (shapely_polygon _) as [|[|]]|]; cbn [length]; lia.
  - lia.
  - lia.
Qed.

(** Whenever the tables are built, the table [ways] has one row for each
    way that resolves to at least two coordinates, and the table
    [polygons] at most one for each way that resolves to at least three:
    every way with a polygon row also has a line row, so there are never
    more polygon rows than line rows. *)
Theorem feature_counts `{Shapely} (self : parser) (tables : list (string * frame)) :
  _to_geodataframes self = Ok tables ->
  length (table_rows tables "ways")
  = length (List.filter (resolves 2 (nodes self)) (ways self))
  /\ (length (table_rows tables "polygons")
      <= length (List.filter (resolves 3 (nodes self)) (ways self)))%nat
  /\ (length (table_rows tables "polygons") <= length (table_rows tables "ways"))%nat.
Proof.
  intros Ht. destruct (tables_hold self tables Ht) as (Hw & Hp & _).
  rewrite (table_holds_length _ _ _ Hw), (table_holds_length _ _ _ Hp).
  apply feature_list_counts.
Qed.

Lemma feature_counts_witness :
  let self := Parser [(1, pt 0 0); (2, pt 1 0); (3, pt 1 1)]
                     [(10, Way 10 [1; 2] [(Some "highway", Some "residential")]);
                      (11, Way 11 [1; 2; 3; 1] [(Some "building", Some "yes")]);
                      (12, Way 12 [1; 7] [])] [] in
  exists tables,
    @_to_geodataframes any_ring_valid self = Ok tables
    /\ length (table_rows tables "ways") = 2%nat
    /\ (length (table_rows tables "polygons") <= 1)%nat.
Proof.
  intros self.
  match eval vm_compute in (@_to_geodataframes any_ring_valid self) with
  | Ok ?t => pose (tables := t)
  end.
  assert (Ht : @_to_geodataframes any_ring_valid self = Ok tables)
    by (vm_compute; reflexivity).
  exists tables. split; [exact Ht|].
  destruct (@feature_counts any_ring_valid self tables Ht) as (Hw & Hp & _).
  split; [exact Hw | exact Hp].
Defined.

(** *** The rows of the tables *)



(** Whenever the parse returns its tables, a way whose first and last
    node references are equal and whose coordinates (at least three
    distinct ones) form a ring that the geometry library builds and finds
    valid has exactly one row in the table [polygons] and exactly one in
    the table [ways].  A way whose ring has fewer than three coordinates,
    is refused by the library or is found invalid has no polygon row, and
    the polygon rows of the ways before and after it are there all the
    same. *)
Theorem closed_way_with_valid_ring_has_its_rows `{Shapely}
  (root : element) (self : parser) (tables : list (string * frame))
  (pre post : list (Z * way)) (wid : Z) (w : way) :
  parse_root root = Ok self ->
  parse_tree root = Ok tables ->
  ways self = pre ++ (wid, w) :: post ->
  let coordinates := resolved (nodes self) (way_nodes w) in
  (hd_error (way_nodes w) = last (way_nodes w) ->
   (3 <= length (remove_dups coordinates))%nat ->
   shapely_polygon coordinates = PolygonBuilt true ->
   (exists rows_before row rows_after,
       table_rows tables "polygons" = rows_before ++ row :: rows_after
       /\ Forall2 carries rows_before (polygons_from (nodes self) pre)
       /\ Forall2 carries rows_after (polygons_from (nodes self) post)
       /\ feature_row row wid (Polygon coordinates) (way_tags w))
   /\ (exists rows_before row rows_after,
          table_rows tables "ways" = rows_before ++ row :: rows_after
          /\ Forall2 carries rows_before (lines_from (nodes self) pre)
          /\ Forall2 carries rows_after (lines_from (nodes self) post)
          /\ feature_row row wid (LineString coordinates) (way_tags w)))
  /\ ((length coordinates < 3)%nat \/ shapely_polygon coordinates <> PolygonBuilt true ->
      table_holds tables "polygons"
        (polygons_from (nodes self) pre ++ polygons_from (nodes self) post)).
Proof.
  intros Hroot Htree Hw coordinates.
  pose proof (parse_root_tables_ok root self Hroot) as (_ & _ & _ & Hways & _).
  assert (Hnd : NoDup (keys (way_tags w))).
  { rewrite Hw in Hways. apply Forall_app in Hways as [_ Hways].
    apply Forall_cons in Hways as [[_ Hnd] _]. exact Hnd. }
  destruct (tables_hold self tables (parse_tree_tables root self tables Hroot Htree))
    as (Hl & Hp & _).
  assert (Hsplit : polygons_data self
                   = polygons_from (nodes self) pre
                       ++ polygons_from (nodes self) [(wid, w)]
                       ++ polygons_from (nodes self) post).
  { unfold polygons_data, polygons_loop. rewrite Hw.
    change (fst (fold_left (polygon_step (nodes self)) (pre ++ (wid, w) :: post) ([], [])))
      with (polygons_from (nodes self) (pre ++ [(wid, w)] ++ post)).
    now rewrite !polygons_from_app. }
  assert (Hlines : lines_data self
                   = lines_from (nodes self) pre
                       ++ lines_from (nodes self) [(wid, w)]
                       ++ lines_from (nodes self) post).
  { unfold lines_data. rewrite Hw.
    change (fold_left (line_step (nodes self)) (pre ++ (wid, w) :: post) [])
      with (lines_from (nodes self) (pre ++ [(wid, w)] ++ post)).
    now rewrite !lines_from_app. }
  rewrite Hsplit, polygons_from_one in Hp. rewrite Hlines, lines_from_one in Hl.
  clear Hsplit Hlines. fold coordinates in Hp, Hl.
  pose proof (resolved_length (nodes self) (way_nodes w)) as Hle.
  fold coordinates in Hle.
  split.
  - intros Hclosed Hdistinct Hvalid.
    pose proof (remove_dups_length coordinates) as Hrd.
    rewrite Hvalid in Hp. rewrite (bool_decide_true _ Hclosed) in Hp.
    destruct (Nat.leb_spec 3 (length (way_nodes w))); [|lia].
    destruct (Nat.leb_spec 3 (length coordinates)); [|lia].
    destruct (Nat.leb_spec 2 (length coordinates)); [|lia].
    split; now apply table_holds_split.
  - intros Hbad.
    destruct (Nat.leb_spec 3 (length coordinates)) as [Hge|Hlt].
    + destruct Hbad as [Hlen|Hbad]; [lia|].
      rewrite andb_true_r in Hp.
      destruct (shapely_polygon coordinates) as [|[|]] eqn:E;
        try (destruct (andb _ _) in Hp; exact Hp).
      congruence.
    + rewrite andb_false_r in Hp. exact Hp.
Qed.

Lemma closed_way_with_valid_ring_has_its_rows_witness :
  let w10 := Way 10 [1; 2] [(Some "highway", Some "residential")] in
  let w11 := Way 11 [1; 2; 3; 1] [(Some "building", Some "yes")] in
  let self := Parser [(1, pt 0 0); (2, pt 1 0); (3, pt 1 1)] [(10, w10); (11, w11)] [] in
  exists tables,
    @parse_tree any_ring_valid Examples.sample_root = Ok tables
    /\ exists rows_before row rows_after,
         table_rows tables "polygons" = rows_before ++ row :: rows_after
         /\ Forall2 carries rows_before (@polygons_from any_ring_valid (nodes self) [(10, w10)])
         /\ Forall2 carries rows_after (@polygons_from any_ring_valid (nodes self) [])
         /\ feature_row row 11 (Polygon [pt 0 0; pt 1 0; pt 1 1; pt 0 0]) (way_tags w11).
Proof.
  intros w10 w11 self.
  assert (Hroot : parse_root Examples.sample_root = Ok self) by (vm_compute; reflexivity).
  match eval vm_compute in (@parse_tree any_ring_valid Examples.sample_root) with
  | Ok ?t => pose (tables := t)
  end.
  assert (Htree : @parse_tree any_ring_valid Examples.sample_root = Ok tables)
    by (vm_compute; reflexivity).
  exists tables. split; [exact Htree|].
  refine (proj1 (proj1 (@closed_way_with_valid_ring_has_its_rows any_ring_valid
                          Examples.sample_root self tables [(10, w10)] [] 11 w11
                          Hroot Htree eq_refl) _ _ _)).
  - reflexivity.
  - vm_compute. lia.
  - reflexivity.
Defined.

(** When the element loop completes and no way or relation carries a tag
    named [geometry], the parse returns: it gives the tables [ways],
    [polygons] and [multipolygons], each present exactly when it has a
    feature and holding one row per feature, in order. *)
Theorem parse_returns_without_geometry_tags `{Shapely} (root : element) (self : parser) :
  parse_root root = Ok self ->
  Forall (fun kv => dget (Some "geometry") (way_tags (snd kv)) = None) (ways self) ->
  Forall (fun kv => dget (Some "geometry") (rel_tags (snd kv)) = None) (relations self) ->
  exists tables,
    parse_tree root = Ok tables
    /\ table_holds tables "ways" (lines_data self)
    /\ table_holds tables "polygons" (polygons_data self)
    /\ table_holds tables "multipolygons" (multipolygons_data self).
Proof.
  intros Hroot Hw Hr. unfold parse_tree. rewrite Hroot. cbn [rbind].
  pose proof (tables_are_built self Hw Hr) as Hok.
  destruct (_to_geodataframes self) as [tables|] eqn:Ht; [|discriminate].
  exists tables. split; [reflexivity|]. now apply tables_hold.
Qed.

Lemma parse_returns_without_geometry_tags_witness :
  exists tables,
    @parse_tree any_ring_valid Examples.sample_root = Ok tables
    /\ dmem "ways" tables = true /\ dmem "polygons" tables = true
    /\ dmem "multipolygons" tables = false.
Proof.
  pose (self := Parser [(1, pt 0 0); (2, pt 1 0); (3, pt 1 1)]
                  [(10, Way 10 [1; 2] [(Some "highway", Some "residential")]);
                   (11, Way 11 [1; 2; 3; 1] [(Some "building", Some "yes")])] []).
  assert (Hroot : parse_root Examples.sample_root = Ok self) by (vm_compute; reflexivity).
  destruct (@parse_returns_without_geometry_tags any_ring_valid Examples.sample_root self
              Hroot)
    as (tables & Ht & (_ & Hw) & (_ & Hp) & (_ & Hm)).
  - repeat constructor.
  - constructor.
  - exists tables. split; [exact Ht|]. repeat split; assumption.
Defined.

(** A relation whose [type] tag is not [multipolygon] (or is missing)
    contributes no feature, whatever its members. *)
Theorem other_relations_give_no_feature `{Shapely}
  (self : parser) (pre post : list (Z * relation)) (rid : Z) (r : relation) :
  relations self = pre ++ (rid, r) :: post ->
  dget (Some "type") (rel_tags r) <> Some (Some "multipolygon") ->
  multipolygons_data self
  = multipolygons_from self pre ++ multipolygons_from self post.
Proof.
  intros Hr Ht. change (multipolygons_data self)
    with (multipolygons_from self (relations self)).
  rewrite Hr, multipolygons_from_app, multipolygons_from_cons, multipolygons_from_one.
  now rewrite bool_decide_false.
Qed.

Lemma other_relations_give_no_feature_witness :
  @multipolygons_data any_ring_valid
    (Parser [(1, pt 0 0); (2, pt 1 0); (3, pt 1 1)]
            [(10, Way 10 [1; 2; 3; 1] [])]
            [(20, Relation 20 [Member (Some "way") 10 "outer"]
                    [(Some "type", Some "boundary")])]) = [].
Proof.
  apply (@other_relations_give_no_feature any_ring_valid
           (Parser [(1, pt 0 0); (2, pt 1 0); (3, pt 1 1)]
                   [(10, Way 10 [1; 2; 3; 1] [])]
                   [(20, Relation 20 [Member (Some "way") 10 "outer"]
                           [(Some "type", Some "boundary")])])
           [] [] 20
           (Relation 20 [Member (Some "way") 10 "outer"] [(Some "type", Some "boundary")])).
  - reflexivity.
  - vm_compute. discriminate.
Defined.

(** *** From the tables to a bundle *)

Lemma bundle_of_osm_data_ok osm_data :
  is_ok (bundle_of_osm_data osm_data)
  = match dget "ways" osm_data, dget "polygons" osm_data with
    | Some _, None => false
    | _, _ => true
    end.
Proof.
  unfold bundle_of_osm_data.
  destruct (dget "ways" osm_data) as [w|]; [destruct (dget "polygons" osm_data) as [p|]|];
    cbn [rbind is_ok]; try reflexivity;
    repeat match goal with
           | |- context [rbind (if ?b then _ else _) _] => destruct b; cbn [rbind]
           end;
    match goal with |- context [match ?l with [] => _ | _ => _ end] => destruct l end;
    reflexivity.
Qed.

Lemma table_present (tables : list (string * frame)) (name : string)
  (features : list record) :
  table_holds tables name features ->
  match features with
  | [] => dget name tables = None
  | _ => exists f, dget name tables = Some f
  end.
Proof.
  intros [_ Hm]. unfold dmem in Hm.
  destruct features; destruct (dget name tables) as [f|]; try discriminate;
    [reflexivity | now exists f].
Qed.

(** The file branch of [load_osm] reads [osm_data['polygons']] whenever
    there is a line table.  Once the parser has built its tables, the
    bundle is made exactly when the parse produced no line feature or at
    least one polygon feature; for a document with lines but no polygon
    the branch raises [KeyError], so that such a document cannot be
    loaded, whether or not the tables were built. *)
Theorem lines_without_polygons_cannot_be_loaded `{Shapely} (self : parser) :
  (forall tables, _to_geodataframes self = Ok tables ->
     is_ok (bundle_of_osm_data tables)
     = match lines_data self, polygons_data self with
       | _ :: _, [] => false
       | _, _ => true
       end)
  /\ (lines_data self <> [] -> polygons_data self = [] ->
      (forall tables, _to_geodataframes self = Ok tables ->
         bundle_of_osm_data tables = Raise (KeyError "polygons"))
      /\ is_ok (rbind (_to_geodataframes self) bundle_of_osm_data) = false).
Proof.
  assert (Hget : forall tables, _to_geodataframes self = Ok tables ->
            match lines_data self with
            | [] => dget "ways" tables = None
            | _ => exists f, dget "ways" tables = Some f
            end
            /\ match polygons_data self with
               | [] => dget "polygons" tables = None
               | _ => exists f, dget "polygons" tables = Some f
               end).
  { intros tables Ht. destruct (tables_hold self tables Ht) as (Hw & Hp & _).
    split; now apply table_present. }
  assert (Hraise : lines_data self <> [] -> polygons_data self = [] ->
            forall tables, _to_geodataframes self = Ok tables ->
              bundle_of_osm_data tables = Raise (KeyError "polygons")).
  { intros Hl Hpoly tables Ht. destruct (Hget tables Ht) as [Hw Hp].
    rewrite Hpoly in Hp. destruct (lines_data self); [congruence|].
    destruct Hw as [f Hw]. unfold bundle_of_osm_data. now rewrite Hw, Hp. }
  split.
  - intros tables Ht. destruct (Hget tables Ht) as [Hw Hp].
    rewrite bundle_of_osm_data_ok.
    destruct (lines_data self); destruct (polygons_data self);
      repeat match goal with
             | H : exists _, _ |- _ => destruct H as [? H]
             end; rewrite Hw, ?Hp; reflexivity.
  - intros Hl Hpoly. split; [now apply Hraise|].
    destruct (_to_geodataframes self) as [tables|] eqn:Ht; [|reflexivity].
    cbn [rbind]. now rewrite (Hraise Hl Hpoly tables eq_refl).
Qed.

Lemma lines_without_polygons_cannot_be_loaded_witness :
  let self := Parser [(1, pt 0 0); (2, pt 1 0)]
                     [(10, Way 10 [1; 2] [(Some "highway", Some "path")])] [] in
  exists tables,
    @_to_geodataframes any_ring_valid self = Ok tables
    /\ bundle_of_osm_data tables = Raise (KeyError "polygons").
Proof.
  intros self.
  match eval vm_compute in (@_to_geodataframes any_ring_valid self) with
  | Ok ?t => pose (tables := t)
  end.
  assert (Ht : @_to_geodataframes any_ring_valid self = Ok tables)
    by (vm_compute; reflexivity).
  exists tables. split; [exact Ht|].
  refine (proj1 (proj2 (@lines_without_polygons_cannot_be_loaded any_ring_valid self) _ _)
            tables Ht).
  - vm_compute. discriminate.
  - vm_compute. reflexivity.
Defined.
End parser_more.

(** ** Loading and caching *)

Section loading_more.
Import ParserSpec IO IOSpec IOFacts Examples.







(** With the cache switched off, [load_osm_cached] is [load_osm]: same
    result, same effects, and the cache directory and time to live play no
    part. *)
Theorem disabled_cache_is_plain_load `{Shapely}
  (bbox : option (list float)) (place osm_file : option string)
  (dir : string) (ttl : Z) (w : world) :
  load_osm_cached bbox place osm_file false dir ttl w = load_osm bbox place osm_file w.
Proof.
  unfold load_osm_cached. rewrite !bind_run. cbv beta iota delta [ret].
  rewrite bind_run. destruct (load_osm bbox place osm_file w) as [[b|e] w']; reflexivity.
Qed.

(** When the cache directory is there (it already holds an entry, so
    that the directory step has nothing to make) and the cache file cannot
    be written, the load does not fail: the parsed bundle is returned, no
    file changes, a warning that starts with [Warning: Failed to save
    cache: ] is printed, and so is the line that reports the bundle as
    cached. *)
Theorem unwritable_cache_does_not_fail_the_load `{Shapely}
  (w : world) (bbox : option (list float)) (place : option string) (path dir : string)
  (ttl t : Z) (root : element) (b : bundle) (other : string) (entry : file) :
  path <> "" ->
  dget (abspath (cwd w) path) (files w) = Some (File t (Document (Some root))) ->
  rbind (OSMParserFrames.parse_tree root) bundle_of_osm_data = Ok b ->
  dget (cache_path (cwd w) dir other) (files w) = Some entry ->
  dget (cache_path (cwd w) dir (MD5.hexdigest (key_text path t))) (files w) = None ->
  cache_path (cwd w) dir (MD5.hexdigest (key_text path t)) ∈ readonly w ->
  exists w', load_osm_cached bbox place (Some path) true dir ttl w = (Ok b, w')
             /\ files w' = files w
             /\ (exists reason,
                   EPrint ("Warning: Failed to save cache: " +:+ reason) ∈ trace w')
             /\ EPrint ("[i] Cached OSM data: " +:+ MD5.hexdigest (key_text path t))
                  ∈ trace w'.
Proof.
  intros Hp Hsrc Hb _ Habs Hro.
  unfold load_osm_cached, _get_cache_key, _load_from_cache, load_osm, load_osm_file,
    _save_to_cache, cache_path, key_text in *.
  rewrite (given_str_some _ Hp).
  destruct w as [wd fs ck ro sv tr]. cbn [cwd files clock readonly] in *.
  io_go Hsrc. io_go Habs. cbn [negb]. io_go Hsrc. cbn [negb]. io_go Hsrc.
  destruct (OSMParserFrames.parse_tree root) as [d|e]; cbn [rbind] in Hb; [|discriminate].
  rewrite Hb. io_go Hsrc.
  rewrite (bool_decide_true _ Hro). io_go Hsrc.
  eexists. split; [reflexivity|]. split; [reflexivity|]. cbn [trace]. split.
  - exists (str_exn OSError). rewrite !elem_of_app. left. right.
    apply list_elem_of_singleton. reflexivity.
  - rewrite !elem_of_app. right. apply list_elem_of_singleton. reflexivity.
Qed.

(** A source file that is missing or is not a well-formed document fails
    the load with [FileNotFoundError] respectively a parse error; with the
    cache enabled nothing is written to it. *)
Theorem unreadable_source_fails_and_caches_nothing `{Shapely}
  (w : world) (bbox : option (list float)) (place : option string) (path dir : string)
  (ttl : Z) (enabled : bool) :
  path <> "" ->
  let source := dget (abspath (cwd w) path) (files w) in
  let key := MD5.hexdigest (match source with
                            | Some f => key_text path (f_mtime f)
                            | None => path
                            end) in
  (source = None \/ exists t, source = Some (File t (Document None))) ->
  dget (cache_path (cwd w) dir key) (files w) = None ->
  exists w',
    load_osm_cached bbox place (Some path) enabled dir ttl w
    = (Raise (match source with
              | None => FileNotFoundError path
              | Some _ => ParseError
              end), w')
    /\ files w' = files w.
Proof.
  intros Hp source key Hsrc Habs. subst source key.
  unfold load_osm_cached, _get_cache_key, _load_from_cache, load_osm, load_osm_file,
    _save_to_cache, cache_path, key_text in *.
  rewrite (given_str_some _ Hp).
  destruct w as [wd fs ck ro sv tr]. cbn [cwd files clock readonly] in *.
  destruct Hsrc as [Hsrc|[t Hsrc]]; rewrite Hsrc in *; cbn [f_mtime] in Habs;
    destruct enabled; io_go Hsrc; io_go Habs; cbn [negb]; io_go Hsrc; cbn [negb];
    io_go Hsrc; (eexists; split; [reflexivity|reflexivity]).
Qed.

Lemma unreadable_source_fails_and_caches_nothing_witness :
  exists w',
    @load_osm_cached any_ring_valid None None (Some "other.osm") true ".cache" 24
      sample_world
    = (Raise (FileNotFoundError "other.osm"), w')
    /\ files w' = files sample_world.
Proof.
  apply (@unreadable_source_fails_and_caches_nothing any_ring_valid sample_world
           None None "other.osm" ".cache" 24 true).
  - discriminate.
  - left. vm_compute. reflexivity.
  - vm_compute. reflexivity.
Defined.

(** A bounding box with one to three numbers is taken as the input (it is
    not empty) and fails with [IndexError] on [bbox[3]], before any network
    request; a place name given beside it is not used instead. *)
Theorem short_bbox_raises_index_error `{Shapely}
  (t : list float) (place : option string) (w : world) :
  t <> [] -> (length t < 4)%nat ->
  load_osm (Some t) place None w = (Raise IndexError, w).
Proof.
  intros Ht Hlen. unfold load_osm. cbn [given_str].
  destruct t as [|a [|b [|c [|d t]]]]; cbn [given_tuple length] in *;
    try congruence; try lia; reflexivity.
Qed.

Lemma short_bbox_raises_index_error_witness :
  @load_osm any_ring_valid (Some [Float 1 0; Float 2 0]) (Some "Paris") None sample_world
  = (Raise IndexError, sample_world).
Proof.
  apply (@short_bbox_raises_index_error any_ring_valid).
  - discriminate.
  - cbn. lia.
Defined.

(** Loading a place asks the network for the road graph, the buildings
    and the amenities, in this order, and stops at the first request that
    fails; when all three are answered the bundle holds the graph under
    [roads_graph] and the two tables under [buildings] and [pois]. *)
Theorem place_is_loaded_with_three_requests `{Shapely} (place : string) (w : world) :
  place <> "" ->
  let q1 := GraphFromPlace place in
  let q2 := GeometriesFromPlace place "building" in
  let q3 := GeometriesFromPlace place "amenity" in
  let '(r, w') := load_osm None (Some place) None w in
  files w' = files w
  /\ match service w q1, service w q2, service w q3 with
     | Some g, Some b, Some p =>
         r = Ok [("roads_graph", BGraph g); ("buildings", BFrame b); ("pois", BFrame p)]
         /\ trace w' = trace w ++ [EFetch q1; EFetch q2; EFetch q3]
     | Some _, Some _, None =>
         r = Raise NetworkError /\ trace w' = trace w ++ [EFetch q1; EFetch q2; EFetch q3]
     | Some _, None, _ =>
         r = Raise NetworkError /\ trace w' = trace w ++ [EFetch q1; EFetch q2]
     | None, _, _ =>
         r = Raise NetworkError /\ trace w' = trace w ++ [EFetch q1]
     end.
Proof.
  intros Hp q1 q2 q3. unfold load_osm. rewrite (given_str_some _ Hp).
  cbn [given_str given_tuple]. subst q1 q2 q3.
  destruct w as [wd fs ck ro sv tr]. io_run.
  destruct (sv (GraphFromPlace place)) as [g|]; io_run; [|split; [reflexivity|now split]].
  destruct (sv (GeometriesFromPlace place "building")) as [b|]; io_run;
    [|split; [reflexivity|split; [reflexivity|now rewrite <- app_assoc]]].
  destruct (sv (GeometriesFromPlace place "amenity")) as [p|]; io_run;
    (split; [reflexivity|split; [reflexivity|now rewrite <- !app_assoc]]).
Qed.

Lemma place_is_loaded_with_three_requests_witness :
  fst (@load_osm any_ring_valid None (Some "Paris") None
         (World "/data" [] 0 [] (fun _ => Some (Frame [] [])) []))
  = Ok [("roads_graph", BGraph (Frame [] [])); ("buildings", BFrame (Frame [] []));
        ("pois", BFrame (Frame [] []))].
Proof.
  pose proof (@place_is_loaded_with_three_requests any_ring_valid "Paris"
                (World "/data" [] 0 [] (fun _ => Some (Frame [] [])) [])) as Hw.
  assert (Hp : "Paris" <> "") by discriminate.
  specialize (Hw Hp). vm_compute in Hw. destruct Hw as (_ & Hr & _).
  vm_compute. exact Hr.
Defined.

(** A bundle loaded from the network is stored in the cache under the key
    of the place, and a second call within the time to live is answered
    from that entry: it makes no network request at all. *)
Theorem network_bundle_is_served_from_the_cache `{Shapely}
  (w : world) (place dir : string) (ttl dt : Z) (g b p : frame) :
  place <> "" ->
  service w (GraphFromPlace place) = Some g ->
  service w (GeometriesFromPlace place "building") = Some b ->
  service w (GeometriesFromPlace place "amenity") = Some p ->
  let key := MD5.hexdigest ("place:" +:+ place) in
  let entry := cache_path (cwd w) dir key in
  let data := [("roads_graph", BGraph g); ("buildings", BFrame b); ("pois", BFrame p)] in
  dget entry (files w) = None ->
  entry ∉ readonly w ->
  0 <= dt <= 3600 * ttl ->
  exists w1,
    load_osm_cached None (Some place) None true dir ttl w = (Ok data, w1)
    /\ dget entry (files w1) = Some (File (clock w) (Pickle (Some data)))
    /\ exists w2,
         load_osm_cached None (Some place) None true dir ttl (advance dt w1)
         = (Ok data, w2)
         /\ files w2 = files w1
         /\ trace w2
            = trace w1 ++ [EExists entry; ETime; EStat entry; ERead entry;
                           EPrint ("[i] Loaded OSM data from cache: " +:+ key)].
Proof.
  intros Hp Hg Hb Hpois key entry data Habs Hro Hdt. subst key entry data.
  unfold load_osm_cached, _get_cache_key, _load_from_cache, load_osm,
    _save_to_cache, cache_path, advance in *.
  rewrite (given_str_some _ Hp). cbn [given_str given_tuple].
  destruct w as [wd fs ck ro sv tr]. cbn [cwd files clock readonly service trace] in *.
  io_go Habs. cbn [negb]. io_run. rewrite Hg. io_run. rewrite Hb. io_run. rewrite Hpois.
  io_run. rewrite (bool_decide_false _ Hro). io_run.
  eexists. split; [reflexivity|]. cbn [files]. split; [apply dget_dset_eq|].
  match goal with
  | |- context [dset ?k ?v fs] => pose proof (dget_dset_eq k v fs) as Hhit
  end.
  io_go Hhit. cbn [negb]. io_go Hhit.
  replace (3600 * ttl <? ck + dt - ck) with false by (symmetry; apply Z.ltb_ge; lia).
  io_go Hhit.
  eexists. split; [reflexivity|]. split; [reflexivity|].
  cbn [trace]. now rewrite <- !app_assoc.
Qed.

Lemma network_bundle_is_served_from_the_cache_witness :
  let w := World "/data" [] 0 [] (fun _ => Some (Frame [] [])) [] in
  exists data w1 w2,
    @load_osm_cached any_ring_valid None (Some "Paris") None true ".cache" 24 w
    = (Ok data, w1)
    /\ @load_osm_cached any_ring_valid None (Some "Paris") None true ".cache" 24
         (advance 60 w1) = (Ok data, w2)
    /\ files w2 = files w1.
Proof.
  intros w.
  destruct (@network_bundle_is_served_from_the_cache any_ring_valid w "Paris" ".cache"
              24 60 (Frame [] []) (Frame [] []) (Frame [] []))
    as (w1 & Hrun & _ & w2 & Hrun2 & Hfiles & _).
  - discriminate.
  - reflexivity.
  - reflexivity.
  - reflexivity.
  - vm_compute. reflexivity.
  - vm_compute. apply not_elem_of_nil.
  - lia.
  - eexists _, w1, w2. split; [exact Hrun|]. split; [exact Hrun2 | exact Hfiles].
Defined.

Lemma unwritable_cache_does_not_fail_the_load_witness :
  let target := cache_path "/data" ".cache"
                  (MD5.hexdigest (key_text "map.osm" 1700000000)) in
  let old := File 1600000000 (Pickle None) in
  let w := World "/data" (files sample_world ++ [("/data/.cache/old.pkl", old)])
                 1700000100 [target] (fun _ => None) [] in
  exists b w',
    @load_osm_cached any_ring_valid None None (Some "map.osm") true ".cache" 24 w
    = (Ok b, w')
    /\ files w' = files w.
Proof.
  intros target old w.
  let v := eval vm_compute in
    (rbind (@OSMParserFrames.parse_tree any_ring_valid sample_root) bundle_of_osm_data) in
  match v with
  | Ok ?b =>
      destruct (@unwritable_cache_does_not_fail_the_load any_ring_valid w None None
                  "map.osm" ".cache" 24 1700000000 sample_root b "old" old)
        as (w' & Hrun & Hfiles & _);
      [ discriminate | reflexivity | vm_compute; reflexivity | vm_compute; reflexivity
      | vm_compute; reflexivity
      | vm_compute; apply list_elem_of_singleton; reflexivity
      | exists b, w'; split; [exact Hrun | exact Hfiles] ]
  end.
Defined.
End loading_more.

(** ** Exporting tables *)

Section export_more.
Import GeoExport ExportSpec IOFacts.

Lemma rsplit_dot_app (b s x a : string) :
  rsplit_dot s = Some (x, a) -> rsplit_dot (b +:+ s) = Some (b +:+ x, a).
Proof.
  intros Hs. induction b as [|c b IH]; [exact Hs|].
  change (String c b +:+ s) with (String c (b +:+ s)).
  change (String c b +:+ x) with (String c (b +:+ x)).
  cbn [rsplit_dot]. now rewrite IH.
Qed.

Lemma stem_nonempty (p : path) : name p <> "" -> stem p <> "".
Proof.
  unfold stem. intros Hn. destruct (rsplit_dot (name p)) as [[[|c b] [|c' a]]|];
    try exact Hn; discriminate.
Qed.

(** Replacing the suffix by a dot and a word without dots gives a path
    with that suffix and the same stem. *)
Lemma renamed_suffix (p : path) (c : ascii) (ext : string) :
  name p <> "" -> rsplit_dot (String "." (String c ext)) = Some ("", String c ext) ->
  suffix (renamed p (String "." (String c ext))) = String "." (String c ext)
  /\ stem (renamed p (String "." (String c ext))) = stem p.
Proof.
  intros Hn Hext. pose proof (stem_nonempty p Hn) as Hs.
  unfold suffix at 1, stem at 1, renamed. cbn [name].
  rewrite (rsplit_dot_app (stem p) _ _ _ Hext).
  destruct (stem p) as [|c0 s0] eqn:E; [congruence|].
  change (String c0 s0 +:+ "") with (String c0 (s0 +:+ "")).
  split; [reflexivity|]. f_equal.
  clear. induction s0 as [|c1 s1 IH]; [reflexivity|].
  change (String c1 s1 +:+ "") with (String c1 (s1 +:+ "")). f_equal. exact IH.
Qed.

Lemma with_suffix_renamed (p : path) (ext : string) :
  name p <> "" -> ext ∈ [".geojson"; ".gpkg"; ".parquet"] ->
  with_suffix p ext = Ok (renamed p ext)
  /\ suffix (renamed p ext) = ext
  /\ stem (renamed p ext) = stem p
  /\ name (renamed p ext) <> "".
Proof.
  intros Hn Hext. unfold with_suffix.
  assert (Hne : String.eqb (name p) "" = false) by now apply String.eqb_neq.
  assert (Hnn : forall e, stem p +:+ String "." e <> "").
  { intros e. destruct (stem p); discriminate. }
  repeat (apply elem_of_cons in Hext as [->|Hext]);
    [| | |now apply elem_of_nil in Hext]; cbn [has_sep Ascii.eqb orb]; rewrite Hne;
    (split; [reflexivity|]);
    (split; [apply (renamed_suffix p); [exact Hn|reflexivity]|]);
    (split; [apply (renamed_suffix p); [exact Hn|reflexivity]|]); apply Hnn.
Qed.

Lemma known_format_false (format : string) :
  known_format format = false ->
  String.eqb (str_lower format) "geojson" = false
  /\ String.eqb (str_lower format) "geopackage" = false
  /\ String.eqb (str_lower format) "parquet" = false.
Proof.
  unfold known_format. intros Hk. apply bool_decide_eq_false in Hk.
  repeat split; apply String.eqb_neq; intros Heq; apply Hk; rewrite Heq;
    repeat first [apply list_elem_of_here | apply list_elem_of_further].
Qed.

(** A format that is none of geojson, geopackage and parquet (in any
    case of letters) makes [export_geodataframe] raise [ValueError], after
    the directory has been created and without a write; the same entry in
    the list of [export_geodataframe_multi] is passed over in silence. *)
Theorem unknown_format_raises_in_one_and_is_skipped_in_many
  (gdf : frame) (p : path) (format : string) (done : list action) :
  known_format format = false ->
  export_geodataframe gdf p format done
  = (Raise (ValueError ("Unsupported format: " +:+ str_lower format)),
     done ++ [Mkdir (parent p)])
  /\ export_geodataframe_multi gdf p [format] done = (Ok tt, done).
Proof.
  intros Hk. destruct (known_format_false format Hk) as (H1 & H2 & H3).
  unfold export_geodataframe_multi, export_geodataframe. cbn [for_each].
  rewrite !bind_run. cbv beta iota zeta delta [act]. rewrite H1, H2, H3.
  split; reflexivity.
Qed.

Lemma unknown_format_raises_in_one_and_is_skipped_in_many_witness :
  export_geodataframe (Frame [] []) (Path "out" "roads.shp") "Shapefile" []
  = (Raise (ValueError "Unsupported format: shapefile"), [Mkdir "out"])
  /\ export_geodataframe_multi (Frame [] []) (Path "out" "roads.shp") ["Shapefile"] []
     = (Ok tt, []).
Proof.
  apply (unknown_format_raises_in_one_and_is_skipped_in_many
           (Frame [] []) (Path "out" "roads.shp") "Shapefile" []).
  vm_compute. reflexivity.
Defined.

(** A GeoJSON export writes to the path as given, whatever its suffix; a
    GeoPackage or Parquet export writes to a path whose suffix is [.gpkg]
    respectively [.parquet], in the same directory and with the same stem,
    and a GeoPackage layer is named after that stem. *)
Theorem geopackage_and_parquet_exports_fix_the_suffix
  (gdf : frame) (p : path) (format : string) (done : list action) :
  (str_lower format = "geojson" ->
   export_geodataframe gdf p format done
   = (Ok tt, done ++ [Mkdir (parent p); ToFile gdf p "GeoJSON" None]))
  /\ (name p <> "" -> str_lower format = "geopackage" ->
      exists p',
        export_geodataframe gdf p format done
        = (Ok tt, done ++ [Mkdir (parent p); ToFile gdf p' "GPKG" (Some (stem p))])
        /\ suffix p' = ".gpkg" /\ parent p' = parent p /\ stem p' = stem p)
  /\ (name p <> "" -> str_lower format = "parquet" ->
      exists p',
        export_geodataframe gdf p format done
        = (Ok tt, done ++ [Mkdir (parent p); ToParquet gdf p'])
        /\ suffix p' = ".parquet" /\ parent p' = parent p /\ stem p' = stem p).
Proof.
  unfold export_geodataframe. rewrite bind_run. cbv beta iota zeta delta [act].
  split; [|split].
  - intros ->. change (String.eqb "geojson" "geojson") with true. cbv beta iota.
    now rewrite <- app_assoc.
  - intros Hn ->. change (String.eqb "geopackage" "geojson") with false.
    change (String.eqb "geopackage" "geopackage") with true. cbv beta iota.
    destruct (String.eqb_spec (suffix p) ".gpkg") as [Hs|Hs]; cbn [negb].
    + exists p. rewrite bind_run. cbv beta iota delta [ret].
      rewrite <- app_assoc. repeat split; auto.
    + destruct (with_suffix_renamed p ".gpkg" Hn) as (Hw & Hsuf & Hstem & _);
        [repeat first [apply list_elem_of_here | apply list_elem_of_further]|].
      exists (renamed p ".gpkg"). rewrite bind_run, Hw.
      cbv beta iota delta [lift]. rewrite <- app_assoc, Hstem. repeat split; auto.
  - intros Hn ->. change (String.eqb "parquet" "geojson") with false.
    change (String.eqb "parquet" "geopackage") with false.
    change (String.eqb "parquet" "parquet") with true. cbv beta iota.
    destruct (String.eqb_spec (suffix p) ".parquet") as [Hs|Hs]; cbn [negb].
    + exists p. rewrite bind_run. cbv beta iota delta [ret].
      rewrite <- app_assoc. repeat split; auto.
    + destruct (with_suffix_renamed p ".parquet" Hn) as (Hw & Hsuf & Hstem & _);
        [repeat first [apply list_elem_of_here | apply list_elem_of_further]|].
      exists (renamed p ".parquet"). rewrite bind_run, Hw.
      cbv beta iota delta [lift]. rewrite <- app_assoc. repeat split; auto.
Qed.

Lemma geopackage_and_parquet_exports_fix_the_suffix_witness :
  exists p',
    export_geodataframe (Frame [] []) (Path "out" "roads.geojson") "GeoPackage" []
    = (Ok tt, [Mkdir "out"; ToFile (Frame [] []) p' "GPKG" (Some "roads")])
    /\ suffix p' = ".gpkg".
Proof.
  destruct (proj1 (proj2 (geopackage_and_parquet_exports_fix_the_suffix
                            (Frame [] []) (Path "out" "roads.geojson") "GeoPackage" [])))
    as (p' & Hrun & Hsuf & _).
  - discriminate.
  - vm_compute. reflexivity.
  - exists p'. split; [exact Hrun | exact Hsuf].
Defined.

Lemma export_literal_format (gdf : frame) (q : path) (done : list action) :
  export_geodataframe gdf q "geojson" done
  = (Ok tt, done ++ [Mkdir (parent q); ToFile gdf q "GeoJSON" None])
  /\ (suffix q = ".gpkg" ->
      export_geodataframe gdf q "geopackage" done
      = (Ok tt, done ++ [Mkdir (parent q); ToFile gdf q "GPKG" (Some (stem q))]))
  /\ (suffix q = ".parquet" ->
      export_geodataframe gdf q "parquet" done
      = (Ok tt, done ++ [Mkdir (parent q); ToParquet gdf q])).
Proof.
  unfold export_geodataframe. rewrite !bind_run. cbv beta iota zeta delta [act].
  split; [|split].
  - change (str_lower "geojson") with "geojson".
    change (String.eqb "geojson" "geojson") with true. cbv beta iota.
    now rewrite <- app_assoc.
  - intros Hs. change (str_lower "geopackage") with "geopackage".
    change (String.eqb "geopackage" "geojson") with false.
    change (String.eqb "geopackage" "geopackage") with true. cbv beta iota.
    rewrite Hs. change (String.eqb ".gpkg" ".gpkg") with true. cbn [negb].
    rewrite bind_run. cbv beta iota delta [ret]. now rewrite <- app_assoc.
  - intros Hs. change (str_lower "parquet") with "parquet".
    change (String.eqb "parquet" "geojson") with false.
    change (String.eqb "parquet" "geopackage") with false.
    change (String.eqb "parquet" "parquet") with true. cbv beta iota.
    rewrite Hs. change (String.eqb ".parquet" ".parquet") with true. cbn [negb].
    rewrite bind_run. cbv beta iota delta [ret]. now rewrite <- app_assoc.
Qed.

Lemma for_each_cons {S A V} (x : A) (l : list A) (v : V) (body : V -> A -> SE S V) s :
  for_each (x :: l) v body s
  = match body v x s with
    | (Ok v', s') => for_each l v' body s'
    | (Raise e, s') => (Raise e, s')
    end.
Proof. reflexivity. Qed.

(** With the writers of the table library taken to succeed, a base path
    with a name is exported for every entry of the list. *)
Lemma multi_export_run
  (gdf : frame) (base_path : path) (formats : list string) (done : list action) :
  name base_path <> "" ->
  export_geodataframe_multi gdf base_path formats done
  = (Ok tt, done ++ flat_map (written_for gdf base_path) formats).
Proof.
  intros Hn. unfold export_geodataframe_multi.
  set (body := fun (_ : unit) (format : string) => _).
  assert (Hstep : forall f done,
             body tt f done = (Ok tt, done ++ written_for gdf base_path f)).
  { intros f done'. subst body. cbv beta. unfold written_for.
    destruct (String.eqb (str_lower f) "geojson");
      [|destruct (String.eqb (str_lower f) "geopackage");
        [|destruct (String.eqb (str_lower f) "parquet")]].
    - destruct (with_suffix_renamed base_path ".geojson" Hn) as (Hw & _);
        [repeat first [apply list_elem_of_here | apply list_elem_of_further]|].
      rewrite bind_run, Hw. cbv beta iota delta [lift].
      apply (export_literal_format gdf (renamed base_path ".geojson") done').
    - destruct (with_suffix_renamed base_path ".gpkg" Hn) as (Hw & Hsuf & Hstem & _);
        [repeat first [apply list_elem_of_here | apply list_elem_of_further]|].
      rewrite bind_run, Hw. cbv beta iota delta [lift].
      rewrite (proj1 (proj2 (export_literal_format gdf (renamed base_path ".gpkg") done'))
                 Hsuf).
      now rewrite Hstem.
    - destruct (with_suffix_renamed base_path ".parquet" Hn) as (Hw & Hsuf & _);
        [repeat first [apply list_elem_of_here | apply list_elem_of_further]|].
      rewrite bind_run, Hw. cbv beta iota delta [lift].
      apply (export_literal_format gdf (renamed base_path ".parquet") done'), Hsuf.
    - cbv beta iota delta [ret]. now rewrite app_nil_r. }
  clearbody body. revert done.
  induction formats as [|f formats IH]; intros done.
  - cbn. now rewrite app_nil_r.
  - rewrite for_each_cons, Hstep, IH. cbn [flat_map]. now rewrite <- app_assoc.
Qed.

(** A base path without a name is refused at the first entry that reads
    geojson, geopackage or parquet; the entries before it did nothing. *)
Lemma multi_export_without_name
  (gdf : frame) (base_path : path) (formats : list string) (done done' : list action) :
  name base_path = "" ->
  export_geodataframe_multi gdf base_path formats done = (Ok tt, done') ->
  done' = done /\ flat_map (written_for gdf base_path) formats = [].
Proof.
  intros Hn. unfold export_geodataframe_multi.
  assert (Hw : forall ext, ext ∈ [".geojson"; ".gpkg"; ".parquet"] ->
                 with_suffix base_path ext = Raise (ValueError "has an empty name")).
  { intros ext Hext. unfold with_suffix. rewrite Hn.
    repeat (apply elem_of_cons in Hext as [->|Hext]);
      [| | |now apply elem_of_nil in Hext]; reflexivity. }
  induction formats as [|f formats IH]; intros Hrun.
  - cbn in Hrun. injection Hrun as <-. now split.
  - rewrite for_each_cons in Hrun. cbn [flat_map]. unfold written_for at 1.
    destruct (String.eqb (str_lower f) "geojson");
      [|destruct (String.eqb (str_lower f) "geopackage");
        [|destruct (String.eqb (str_lower f) "parquet")]].
    + rewrite bind_run, Hw in Hrun
        by repeat first [apply list_elem_of_here | apply list_elem_of_further].
      discriminate.
    + rewrite bind_run, Hw in Hrun
        by repeat first [apply list_elem_of_here | apply list_elem_of_further].
      discriminate.
    + rewrite bind_run, Hw in Hrun
        by repeat first [apply list_elem_of_here | apply list_elem_of_further].
      discriminate.
    + cbv beta iota delta [ret] in Hrun. now apply IH.
Qed.

(** Whenever [export_geodataframe_multi] returns, it has gone through the
    list in order: each entry that reads geojson, geopackage or parquet
    (in any case of letters) has created the directory and written one
    file named after the stem of the base path with the suffix of the
    format; every other entry has done nothing, and a repeated entry has
    been written again. *)
Theorem multi_export_writes_one_file_per_known_format
  (gdf : frame) (base_path : path) (formats : list string) (done done' : list action) :
  export_geodataframe_multi gdf base_path formats done = (Ok tt, done') ->
  done' = done ++ flat_map (written_for gdf base_path) formats.
Proof.
  intros Hrun. destruct (decide (name base_path = "")) as [Hn|Hn].
  - destruct (multi_export_without_name gdf base_path formats done done' Hn Hrun)
      as [-> ->].
    now rewrite app_nil_r.
  - rewrite (multi_export_run gdf base_path formats done Hn) in Hrun.
    now injection Hrun as <-.
Qed.

Lemma multi_export_writes_one_file_per_known_format_witness :
  let written := [Mkdir "out";
                  ToFile (Frame [] []) (Path "out" "roads.geojson") "GeoJSON" None;
                  Mkdir "out"; ToParquet (Frame [] []) (Path "out" "roads.parquet")] in
  export_geodataframe_multi (Frame [] []) (Path "out" "roads.tmp")
    ["GeoJSON"; "shp"; "parquet"] [] = (Ok tt, written)
  /\ written = [] ++ flat_map (written_for (Frame [] []) (Path "out" "roads.tmp"))
                       ["GeoJSON"; "shp"; "parquet"].
Proof.
  intros written.
  assert (Hrun : export_geodataframe_multi (Frame [] []) (Path "out" "roads.tmp")
                   ["GeoJSON"; "shp"; "parquet"] [] = (Ok tt, written))
    by (vm_compute; reflexivity).
  split; [exact Hrun|].
  exact (multi_export_writes_one_file_per_known_format
           (Frame [] []) (Path "out" "roads.tmp") ["GeoJSON"; "shp"; "parquet"] []
           written Hrun).
Defined.
End export_more.

(** ** The layer classifier, block by block *)

Module LayerBlocks.
Import Store Layers StoreSpec LayerSpec LayerFacts LayerMore.
Local Open Scope se_scope.
Local Open Scope nat_scope.

Lemma usable_prefix h h' bundle d :
  bundle_usable h bundle d -> h `prefix_of` h' -> bundle_usable h' bundle d.
Proof.
  unfold bundle_usable, roads_usable, buildings_usable, pois_usable.
  intros (Hb & Hr & Hbu & Hp) Hpre. split; [eapply prefix_lookup_Some; eassumption|].
  split; [|split].
  - destruct (dget "roads_graph" d); [|exact I].
    destruct Hr as (e & He & ?). exists e. split; [eapply prefix_lookup_Some; eassumption|].
    assumption.
  - destruct (dget "buildings" d); [|exact I].
    destruct Hbu as (g & f & Hf & ?). exists g, f.
    split; [eapply prefix_lookup_Some; eassumption|assumption].
  - destruct (dget "pois" d); [|exact I].
    destruct Hp as (g & f & Hf & ?). exists g, f.
    split; [eapply prefix_lookup_Some; eassumption|assumption].
Qed.

(** *** What a call gives when it returns *)

Lemma runs_returns {A} h (m : M A) (post : A -> list obj -> Prop) :
  runs h m post -> returns h m post.
Proof.
  intros (a & h' & E & P) a0 h0 E0. rewrite E in E0. injection E0 as <- <-. exact P.
Qed.

Lemma returns_bind {A B} h (m : M A) (k : A -> M B)
  (mid : A -> list obj -> Prop) (post : B -> list obj -> Prop) :
  returns h m mid ->
  (forall a h1, mid a h1 -> returns h1 (k a) post) ->
  returns h (bind m k) post.
Proof.
  intros Hm Hk b h' E. unfold bind in E.
  destruct (m h) as [[a|e] h1] eqn:Em; [|discriminate].
  exact (Hk a h1 (Hm a h1 Em) b h' E).
Qed.

Lemma returns_weaken {A} h (m : M A) (post post' : A -> list obj -> Prop) :
  returns h m post -> (forall a h', post a h' -> post' a h') -> returns h m post'.
Proof. intros Hm Himp a h' E. apply Himp, (Hm a h' E). Qed.

(** A computation that leaves the objects of the store as they are can
    only extend the store. *)
Lemma keeps_returns {A} h (m : M A) (post : A -> Prop) :
  keeps (length h) m post -> returns h m (fun _ h' => h `prefix_of` h' /\ True).
Proof.
  intros Hk a h' E. destruct (Hk h (le_n _)) as (Ht & _ & _).
  rewrite E in Ht. cbn [snd] in Ht. rewrite (take_ge h) in Ht by reflexivity.
  split; [|exact I]. exists (drop (length h) h').
  rewrite <- (take_drop (length h) h') at 1. now rewrite Ht.
Qed.

Lemma runs_kept_table h a geo f allow fallback :
  h !! a = Some (OFrame geo f) ->
  has_column f (Some "geometry") = true ->
  Forall (fun c => has_column f (Some c) = true) fallback ->
  runs h (select_kept a (keep allow (columns f)) fallback)
       (fun v h' => v = length h /\ h' = h ++ [OFrame geo (kept_table allow fallback f)]).
Proof.
  intros Ha Hg Hf. unfold select_kept, kept_table.
  eapply runs_getitem_cols; [exact Ha|]. now apply kept_columns_ok.
Qed.

(** *** Roads *)

Lemma runs_roads_block h d :
  roads_usable h d ->
  runs h (extract_roads d)
       (fun r h' =>
          h `prefix_of` h'
          /\ match dget "roads_graph" d with
             | None => r = None
             | Some g => exists edges a,
                 h !! g = Some (OGraph edges) /\ r = Some a
                 /\ frame_at h' a (expected_roads edges)
             end).
Proof.
  unfold roads_usable, extract_roads. destruct (dget "roads_graph" d) as [g|].
  - intros (edges & Hg & Hr & Hc). run runs_graph_to_gdfs.
    run runs_get_columns.
    eapply runs_bind.
    + eapply runs_kept_table; [lk | exact Hc | now repeat constructor].
    + intros ? ? [-> ->]. apply runs_ret. split; [prefix_tac|].
      exists edges. eexists. split; [exact Hg|]. split; [reflexivity|].
      eexists. apply lookup_last.
  - intros _. apply runs_ret. now split.
Qed.

(** *** Buildings *)

Lemma filter_filter_implied {X} (P Q : X -> bool) (l : list X) :
  (forall x, P x = true -> Q x = true) ->
  List.filter P (List.filter Q l) = List.filter P l.
Proof.
  intros Himp. induction l as [|x l IH]; [reflexivity|]. cbn [List.filter].
  destruct (Q x) eqn:Eq; cbn [List.filter].
  - now rewrite IH.
  - destruct (P x) eqn:Ep; [|exact IH]. apply Himp in Ep. congruence.
Qed.

Lemma polygonal_has_geometry (f : frame) :
  List.filter (fun r => is_polygonal (cell r (Some "geometry")))
    (List.filter (fun r => notna (cell r (Some "geometry"))) (rows f))
  = polygonal_rows f.
Proof.
  apply filter_filter_implied. intros r. now destruct (cell r (Some "geometry")).
Qed.

Lemma runs_buildings_block h d :
  buildings_usable h d ->
  runs h (extract_buildings d)
       (fun r h' =>
          h `prefix_of` h'
          /\ match dget "buildings" d with
             | None => r = None
             | Some b => exists geo f a,
                 h !! b = Some (OFrame geo f) /\ r = Some a
                 /\ frame_at h' a (expected_buildings f)
             end).
Proof.
  unfold buildings_usable, extract_buildings. destruct (dget "buildings" d) as [b|].
  - intros (geo & f & Hb & Hc & Hgeo). run runs_is_geodataframe.
    assert (Hrest : forall h1 b1 geo1, h `prefix_of` h1 -> h1 !! b1 = Some (OFrame geo1 f) ->
              runs h1
                (g <- get_geometry b1;;
                 b2 <- getitem_mask b1 (map notna g);;
                 g0 <- get_geometry b2;;
                 buildings <- getitem_mask b2 (map is_polygonal g0);;
                 buildings0 <- copy buildings;;
                 cols <- get_columns buildings0;;
                 buildings1 <- select_kept buildings0
                                 (keep ["building"; "name"; "levels"; "height"] cols)
                                 ["geometry"];;
                 ret (Some buildings1))
                (fun r h' => h `prefix_of` h'
                             /\ exists a, r = Some a
                                          /\ frame_at h' a (expected_buildings f))).
    { intros h1 b1 geo1 Hpre Hb1.
      run runs_get_geometry. run runs_getitem_mask.
      run runs_get_geometry. run runs_getitem_mask.
      rewrite !select_mask_column. cbn [rows columns]. rewrite polygonal_has_geometry.
      run runs_copy. run runs_get_columns. cbn [columns].
      eapply runs_bind.
      - eapply (runs_kept_table _ _ _ (Frame (columns f) (polygonal_rows f)));
          [lk | exact Hc | now repeat constructor].
      - intros ? ? [-> ->]. apply runs_ret.
        split; [etrans; [exact Hpre|]; prefix_tac|].
        eexists. split; [reflexivity|]. eexists. apply lookup_last. }
    destruct geo.
    + run_ret. eapply runs_weaken; [now apply (Hrest h b true)|].
      intros r h' (Hpre & a & -> & Ha). split; [exact Hpre|]. now exists true, f, a.
    + run runs_to_geodataframe.
      eapply runs_weaken; [apply (Hrest _ _ true); [prefix_tac | lk]|].
      intros r h' (Hpre & a & -> & Ha). split; [exact Hpre|]. now exists false, f, a.
  - intros _. apply runs_ret. now split.
Qed.

(** *** Loops that fill a dictionary of layers *)

Lemma runs_layer_loop (step : list (string * nat) -> string -> M (list (string * nat)))
  (expected : string -> option frame) (pa : nat) (fp : frame) :
  (forall h v key, frame_at h pa fp ->
     runs h (step v key)
          (fun v' h' =>
             h `prefix_of` h'
             /\ match expected key with
                | Some f => exists a, v' = dset key a v /\ frame_at h' a f
                | None => v' = v
                end)) ->
  forall wanted h v,
    frame_at h pa fp ->
    runs h (for_each wanted v step)
         (fun v' h' =>
            h `prefix_of` h'
            /\ (forall key, key ∈ wanted ->
                  match expected key with
                  | Some f => exists a, dget key v' = Some a /\ frame_at h' a f
                  | None => dget key v' = dget key v
                  end)
            /\ (forall key, key ∉ wanted -> dget key v' = dget key v)).
Proof.
  intros Hstep. induction wanted as [|x rest IH]; intros h v Hp; cbn [for_each].
  - apply runs_ret. split; [reflexivity|]. split; [|reflexivity].
    intros key Hin. inversion Hin.
  - eapply runs_bind; [apply Hstep; exact Hp |].
    intros v1 h1 [Hpre1 Hone].
    eapply runs_weaken; [apply IH; eapply frame_at_prefix; eassumption|].
    intros v' h' (Hpre & Hin & Hout).
    assert (Hother : forall key, key <> x -> dget key v1 = dget key v).
    { intros key Hne. destruct (expected x).
      - destruct Hone as (a & -> & _). now apply dget_dset_ne.
      - now subst. }
    split; [etrans; eassumption|]. split.
    + intros key Hkey. destruct (decide (key ∈ rest)) as [Hr|Hr].
      * specialize (Hin key Hr). destruct (expected key) eqn:He; [exact Hin|].
        rewrite Hin. destruct (decide (key = x)) as [->|Hne]; [|now apply Hother].
        rewrite He in Hone. now subst.
      * apply elem_of_cons in Hkey as [->|Hkey]; [|contradiction].
        rewrite (Hout x Hr).
        destruct (expected x).
        -- destruct Hone as (a & -> & Ha). exists a. rewrite dget_dset_eq.
           split; [reflexivity|]. eapply frame_at_prefix; eassumption.
        -- now subst.
    + intros key Hkey. rewrite Hout by (intros Hr; apply Hkey; now right).
      apply Hother. intros ->. apply Hkey. left.
Qed.

(** *** Amenities *)

Lemma runs_amenity_turn h pa p amenities a :
  has_column p (Some "amenity") = true ->
  has_column p (Some "geometry") = true ->
  frame_at h pa (Frame (columns p) (with_geometry p)) ->
  runs h (amenity_step pa amenities a)
       (fun am' h' =>
          h `prefix_of` h'
          /\ match expected_amenity_layer p a with
             | Some f => exists x, am' = dset a x amenities /\ frame_at h' x f
             | None => am' = amenities
             end).
Proof.
  intros Ham Hg [geo Hp]. unfold amenity_step, expected_amenity_layer. rewrite Ham.
  pose proof (has_column_nonempty _ _ Hg) as Hne.
  run runs_getitem. run runs_getitem_mask. run runs_copy. run runs_get_empty.
  rewrite select_mask_column. cbn [rows columns].
  rewrite is_empty_rows by exact Hne.
  destruct (List.filter (fun r => eq_str a (cell r (Some "amenity"))) (with_geometry p))
    as [|r rs] eqn:Hrs; cbn [negb].
  - apply runs_ret. split; [prefix_tac | reflexivity].
  - run runs_get_columns. cbn [columns].
    change (bool_decide (Some "name" ∈ columns p)) with (has_column p (Some "name")).
    eapply runs_bind.
    + eapply runs_getitem_cols; [lk|].
      destruct (has_column p (Some "name")) eqn:E; repeat constructor; assumption.
    + intros ? ? [-> ->]. apply runs_ret. split; [prefix_tac|].
      eexists. split; [reflexivity|]. eexists. apply lookup_last.
Qed.

(** The amenity layers, whenever the block returns: the loop over the
    generic keys that follows the amenity loop can only add objects. *)
Lemma returns_amenities_pois_block h d wanted_amenities wanted_pois :
  pois_usable h d ->
  returns h (extract_amenities_pois d wanted_amenities wanted_pois)
       (fun ap h' =>
          h `prefix_of` h'
          /\ match dget "pois" d with
             | None => ap = ([], [])
             | Some pa => exists geo p,
                 h !! pa = Some (OFrame geo p)
                 /\ (forall a, a ∈ wanted_amenities ->
                       layer_is h' (dget a (fst ap)) (expected_amenity_layer p a))
                 /\ (forall a, a ∉ wanted_amenities -> dget a (fst ap) = None)
             end).
Proof.
  unfold pois_usable, extract_amenities_pois. destruct (dget "pois" d) as [pa|];
    [|intros _; apply runs_returns, runs_ret; now split].
  intros (geo & p & Hp & Hg & Hgeo).
  eapply returns_bind;
    [apply runs_returns; eapply runs_pois_frame; eauto | intros p' h1 [Hpre [geo' Hp']]].
  eapply returns_bind;
    [apply runs_returns; eapply runs_get_columns; lk | intros ? ? [-> ->]].
  cbn [columns].
  change (bool_decide (Some "amenity" ∈ columns p)) with (has_column p (Some "amenity")).
  eapply (returns_bind _ _ _
            (fun am h2 =>
               h1 `prefix_of` h2
               /\ (forall a, a ∈ wanted_amenities ->
                     layer_is h2 (dget a am) (expected_amenity_layer p a))
               /\ (forall a, a ∉ wanted_amenities -> dget a am = None))).
  - apply runs_returns. destruct (has_column p (Some "amenity")) eqn:Ham.
    + eapply runs_weaken.
      * apply (runs_layer_loop (amenity_step p') (expected_amenity_layer p) p'
                 (Frame (columns p) (with_geometry p))).
        -- intros h2 v key Hf. now apply runs_amenity_turn.
        -- eexists. exact Hp'.
      * intros am h2 (Hpre2 & Hin & Hout). split; [exact Hpre2|]. split.
        -- intros a Ha. specialize (Hin a Ha). unfold layer_is.
           destruct (expected_amenity_layer p a).
           ++ destruct Hin as (x & -> & Hx). exact Hx.
           ++ now rewrite Hin.
        -- intros a Ha. now rewrite Hout.
    + apply runs_ret. split; [reflexivity|]. split; [|reflexivity].
      intros a _. unfold expected_amenity_layer. rewrite Ham. exact I.
  - intros am h2 (Hpre2 & Hin & Hout).
    eapply returns_bind.
    + apply (keeps_returns h2 _ (fresh_dict (length h2))).
      apply StoreFacts.keeps_for_each;
        [intros; now apply StoreFacts.keeps_poi_step | constructor].
    + intros pois' h3 [Hpre3 _]. apply runs_returns, runs_ret. cbn [fst snd].
      split; [etrans; [exact Hpre|]; etrans; eassumption|].
      exists geo, p. split; [exact Hp|]. split; [|exact Hout].
      intros a Ha. specialize (Hin a Ha). unfold layer_is in *.
      destruct (dget a am), (expected_amenity_layer p a); try exact Hin.
      eapply frame_at_prefix; eassumption.
Qed.

(** When every generic key is aligned with the table, the loop over the
    keys runs to its end. *)
Lemma runs_poi_loop pa p wanted_pois :
  has_column p (Some "geometry") = true ->
  keys_aligned p wanted_pois ->
  forall h v,
    frame_at h pa (Frame (columns p) (with_geometry p)) ->
    runs h (for_each wanted_pois v (poi_step pa)) (fun _ h' => h `prefix_of` h').
Proof.
  intros Hg. induction 1 as [|key rest Hkey Hrest IH]; intros h v Hf; cbn [for_each].
  - now apply runs_ret.
  - eapply runs_bind; [now apply (runs_poi_step h pa p v key) | intros v1 h1 Hpre1].
    eapply runs_weaken; [apply IH; eapply frame_at_prefix; eassumption|].
    intros ? h' Hpre. cbv beta in *. etrans; eassumption.
Qed.

Lemma runs_amenities_pois_any h d wanted_amenities wanted_pois :
  pois_usable h d ->
  pois_aligned h d wanted_pois ->
  runs h (extract_amenities_pois d wanted_amenities wanted_pois)
       (fun _ h' => h `prefix_of` h').
Proof.
  unfold pois_usable, pois_aligned, extract_amenities_pois.
  destruct (dget "pois" d) as [pa|]; [|intros _ _; now apply runs_ret].
  intros (geo & p & Hp & Hg & Hgeo) Hal. specialize (Hal pa geo p eq_refl Hp).
  eapply runs_bind; [eapply runs_pois_frame; eauto | intros p' h1 [Hpre [geo' Hp']]].
  run runs_get_columns. cbn [columns].
  change (bool_decide (Some "amenity" ∈ columns p)) with (has_column p (Some "amenity")).
  eapply (runs_bind _ _ _ (fun _ h2 => h1 `prefix_of` h2)).
  - destruct (has_column p (Some "amenity")) eqn:Ham; [|now apply runs_ret].
    apply (runs_for_each (amenity_step p') (fun _ h2 => h1 `prefix_of` h2));
      [|reflexivity].
    intros v x h2 Hpre2. eapply runs_weaken.
    + apply (runs_amenity_step h2 p' (Frame (columns p) (with_geometry p)) v x);
        [eapply frame_at_prefix; [eexists; exact Hp' | exact Hpre2] | exact Ham | exact Hg].
    + intros ? h3 Hpre3. cbv beta in *. etrans; eassumption.
  - intros am h2 Hpre2.
    eapply runs_bind.
    + apply (runs_poi_loop p' p wanted_pois Hg Hal).
      eapply frame_at_prefix; [eexists; exact Hp' | exact Hpre2].
    + intros pois' h3 Hpre3. apply runs_ret.
      etrans; [exact Hpre|]. etrans; eassumption.
Qed.

(** *** Waterways *)

Lemma runs_waterways_block h d :
  pois_usable h d ->
  runs h (extract_waterways d)
       (fun w h' =>
          h `prefix_of` h'
          /\ match dget "pois" d with
             | None => w = None
             | Some pa => exists geo p,
                 h !! pa = Some (OFrame geo p) /\ layer_is h' w (expected_waterways p)
             end).
Proof.
  unfold pois_usable, extract_waterways. destruct (dget "pois" d) as [pa|];
    [|intros _; apply runs_ret; now split].
  intros (geo & p & Hp & Hg & Hgeo). unfold expected_waterways.
  pose proof (has_column_nonempty _ _ Hg) as Hne.
  eapply runs_bind; [eapply runs_pois_frame; eauto | intros p' h1 [Hpre [geo' Hp']]].
  run runs_get_columns. cbn [columns].
  change (bool_decide (Some "waterway" ∈ columns p)) with (has_column p (Some "waterway")).
  destruct (has_column p (Some "waterway")) eqn:Hw.
  2: { apply runs_ret. split; [exact Hpre|]. exists geo, p. split; [exact Hp|].
       rewrite ?Hw. exact I. }
  run runs_getitem. run runs_getitem_mask. run runs_copy. run runs_get_empty.
  rewrite select_mask_column. cbn [rows columns].
  rewrite is_empty_rows by exact Hne.
  destruct (List.filter (fun r => notna (cell r (Some "waterway"))) (with_geometry p))
    as [|r rs] eqn:Hrs; cbn [negb].
  - apply runs_ret. split; [etrans; [exact Hpre|]; prefix_tac|]. exists geo, p.
    split; [exact Hp|]. rewrite ?Hw, ?Hrs. exact I.
  - run runs_get_columns. cbn [columns].
    eapply runs_bind.
    + eapply (runs_kept_table _ _ _ (Frame (columns p) (r :: rs)));
        [lk | exact Hg | now repeat constructor].
    + intros ? ? [-> ->]. apply runs_ret.
      split; [etrans; [exact Hpre|]; prefix_tac|]. exists geo, p. split; [exact Hp|].
      rewrite ?Hw, ?Hrs. eexists. apply lookup_last.
Qed.

(** *** Land use *)

Lemma unique_fold_elem (v : value) (s seen : series) :
  v ∈ fold_left (fun seen v => if bool_decide (v ∈ seen) then seen else seen ++ [v]) s seen
  <-> v ∈ seen \/ v ∈ s.
Proof.
  revert seen. induction s as [|x s IH]; intros seen; cbn [fold_left].
  - split; [now left | intros [H|H]; [exact H | inversion H]].
  - rewrite IH. case_bool_decide as E.
    + rewrite (elem_of_cons s v x). split.
      * intros [H|H]; [left | right; right]; exact H.
      * intros [H|[H|H]]; [left; exact H | left; subst; exact E | right; exact H].
    + rewrite elem_of_app, list_elem_of_singleton, (elem_of_cons s v x). tauto.
Qed.

Lemma unique_elem (v : value) (s : series) : v ∈ unique s <-> v ∈ s.
Proof.
  unfold unique. rewrite unique_fold_elem. split.
  - intros [H|H]; [inversion H | exact H].
  - now right.
Qed.

Lemma strings_of (l : series) :
  Forall (fun v => textual v = true /\ notna v = true) l ->
  exists ks, l = map VStr ks.
Proof.
  induction 1 as [|v l [Ht Hn] _ [ks ->]]; [now exists []|].
  destruct v; try discriminate. now exists (s :: ks).
Qed.

Lemma for_each_map {S X Y V} (g : X -> Y) (l : list X) (body : V -> Y -> SE S V) :
  forall v s, for_each (map g l) v body s = for_each l v (fun v x => body v (g x)) s.
Proof.
  induction l as [|x l IH]; intros v s; cbn [map for_each]; [reflexivity|].
  unfold bind. destruct (body v (g x) s) as [[v'|e] s']; [apply IH | reflexivity].
Qed.

Lemma runs_landuse_turn h ld p landuse k :
  has_column p (Some "landuse") = true ->
  has_column p (Some "geometry") = true ->
  frame_at h ld (Frame (columns p)
                   (List.filter (fun r => notna (cell r (Some "landuse")))
                      (with_geometry p))) ->
  runs h (landuse_step ld landuse (VStr k))
       (fun l' h' =>
          h `prefix_of` h'
          /\ match expected_landuse_layer p k with
             | Some f => exists x, l' = dset k x landuse /\ frame_at h' x f
             | None => l' = landuse
             end).
Proof.
  intros Hl Hg [geo Hp]. unfold landuse_step, expected_landuse_layer. rewrite Hl.
  pose proof (has_column_nonempty _ _ Hg) as Hne.
  change (notna (VStr k)) with true. cbv iota.
  run runs_getitem. run runs_getitem_mask. run runs_copy. run runs_get_empty.
  rewrite select_mask_column. cbn [rows columns].
  change (fun r : record => bool_decide (cell r (Some "landuse") = VStr k))
    with (fun r : record => eq_str k (cell r (Some "landuse"))).
  rewrite filter_filter_implied
    by (intros r; unfold eq_str; intros E; apply bool_decide_eq_true_1 in E;
        now rewrite E).
  rewrite is_empty_rows by exact Hne.
  destruct (List.filter (fun r => eq_str k (cell r (Some "landuse"))) (with_geometry p))
    as [|r rs] eqn:Hrs; cbn [negb].
  - apply runs_ret. split; [prefix_tac | reflexivity].
  - run runs_get_columns. cbn [columns].
    eapply runs_bind.
    + eapply (runs_kept_table _ _ _ (Frame (columns p) (r :: rs)));
        [lk | exact Hg | now repeat constructor].
    + intros ? ? [-> ->]. apply runs_ret. split; [prefix_tac|].
      eexists. split; [reflexivity|]. eexists. apply lookup_last.
Qed.

Lemma runs_landuse_block h d :
  pois_usable h d ->
  (forall pa geo p, dget "pois" d = Some pa -> h !! pa = Some (OFrame geo p) ->
     Forall (fun r => textual (cell r (Some "landuse")) = true) (rows p)) ->
  runs h (extract_landuse d)
       (fun l h' =>
          h `prefix_of` h'
          /\ match dget "pois" d with
             | None => l = []
             | Some pa => exists geo p,
                 h !! pa = Some (OFrame geo p)
                 /\ forall k, layer_is h' (dget k l) (expected_landuse_layer p k)
             end).
Proof.
  unfold pois_usable, extract_landuse. destruct (dget "pois" d) as [pa|];
    [|intros _ _; apply runs_ret; now split].
  intros (geo & p & Hp & Hg & Hgeo) Htext. specialize (Htext pa geo p eq_refl Hp).
  pose proof (has_column_nonempty _ _ Hg) as Hne.
  eapply runs_bind; [eapply runs_pois_frame; eauto | intros p' h1 [Hpre [geo' Hp']]].
  run runs_get_columns. cbn [columns].
  change (bool_decide (Some "landuse" ∈ columns p)) with (has_column p (Some "landuse")).
  destruct (has_column p (Some "landuse")) eqn:Hl.
  2: { apply runs_ret. split; [exact Hpre|]. exists geo, p. split; [exact Hp|].
       intros k. unfold expected_landuse_layer. rewrite Hl. exact I. }
  run runs_getitem. run runs_getitem_mask. run runs_copy. run runs_get_empty.
  rewrite select_mask_column. cbn [rows columns].
  rewrite is_empty_rows by exact Hne.
  set (LD := List.filter (fun r => notna (cell r (Some "landuse"))) (with_geometry p)).
  assert (Hsame : forall k,
             List.filter (fun r => eq_str k (cell r (Some "landuse"))) (with_geometry p)
             = List.filter (fun r => eq_str k (cell r (Some "landuse"))) LD).
  { intros k. subst LD. symmetry. apply filter_filter_implied.
    intros r; unfold eq_str; intros E; apply bool_decide_eq_true_1 in E; now rewrite E. }
  destruct LD as [|r0 rs0] eqn:HLD; cbn [negb].
  - apply runs_ret. split; [etrans; [exact Hpre|]; prefix_tac|]. exists geo, p.
    split; [exact Hp|]. intros k. unfold expected_landuse_layer. rewrite Hl, Hsame.
    exact I.
  - rewrite <- HLD in *. clear HLD.
    run runs_getitem. unfold column. cbn [rows].
    assert (Hstr : exists ks, unique (map (fun r => cell r (Some "landuse")) LD)
                              = map VStr ks).
    { apply strings_of, Forall_forall. intros v Hv. apply (proj1 (unique_elem _ _)) in Hv.
      apply list_elem_of_fmap in Hv as (r & -> & Hr). subst LD.
      apply list_elem_of_In, filter_In in Hr as [Hr Hn]. split; [|exact Hn].
      unfold with_geometry in Hr. apply filter_In in Hr as [Hr _].
      rewrite Forall_forall in Htext. apply Htext. now apply list_elem_of_In. }
    destruct Hstr as [ks Hks]. rewrite Hks.
    match goal with
    | |- runs ?hs (for_each _ _ (landuse_step ?ld)) ?post =>
        assert (Hloop : runs hs (for_each ks [] (fun v k => landuse_step ld v (VStr k)))
                          post);
        [|destruct Hloop as (l & h' & Hrun & Hpost); exists l, h';
          split; [now rewrite for_each_map | exact Hpost]]
    end.
    eapply runs_weaken.
    + match goal with
      | |- runs ?hs (for_each _ _ ?step) _ =>
          apply (runs_layer_loop step (expected_landuse_layer p) (length (h1 ++ [OFrame geo' (Frame (columns p) LD)]))
                   (Frame (columns p) LD))
      end.
      * intros h2 v key Hf. now apply runs_landuse_turn.
      * eexists. lk.
    + intros l h' (Hpre2 & Hin & Hout). split; [etrans; [exact Hpre|]; etrans; [|exact Hpre2]; prefix_tac|].
      exists geo, p. split; [exact Hp|]. intros k.
      destruct (decide (k ∈ ks)) as [Hk|Hk].
      * specialize (Hin k Hk). unfold layer_is.
        destruct (expected_landuse_layer p k).
        -- destruct Hin as (x & -> & Hx). exact Hx.
        -- now rewrite Hin.
      * rewrite (Hout k Hk). cbn [dget]. unfold expected_landuse_layer.
        rewrite Hl, Hsame.
        destruct (List.filter (fun r => eq_str k (cell r (Some "landuse"))) LD)
          as [|r rs] eqn:Hrs; [exact I|].
        exfalso. apply Hk.
        assert (Hr : r ∈ List.filter (fun r => eq_str k (cell r (Some "landuse"))) LD)
          by (rewrite Hrs; left).
        apply list_elem_of_In, filter_In in Hr as [Hr Hc].
        apply bool_decide_eq_true_1 in Hc.
        assert (Hv : VStr k ∈ map VStr ks).
        { rewrite <- Hks. apply (proj2 (unique_elem _ _)). rewrite <- Hc.
          apply list_elem_of_fmap. exists r. split; [reflexivity|].
          now apply list_elem_of_In. }
        apply list_elem_of_fmap in Hv as (k' & Hk' & Hin'). now injection Hk' as ->.
Qed.

(** *** The blocks in sequence *)

Lemma get_dict_run h bundle d :
  h !! bundle = Some (ODict d) -> get_dict bundle h = (Ok d, h).
Proof. intros Hb. unfold get_dict, bind, deref. now rewrite Hb. Qed.

Lemma runs_landuse_any h d :
  pois_usable h d -> runs h (extract_landuse d) (fun _ h' => h `prefix_of` h').
Proof.
  unfold pois_usable. destruct (dget "pois" d) as [pa|] eqn:Hd.
  - intros (geo & p & Hp & Hg & Hgeo). eapply runs_extract_landuse; eassumption.
  - intros _. unfold extract_landuse. rewrite Hd. now apply runs_ret.
Qed.

Lemma extract_layers_by_blocks h bundle d wanted_amenities wanted_pois
  (Pr Pb Pw : option nat -> list obj -> Prop)
  (Pap : list (string * nat) * list (string * nat) -> list obj -> Prop)
  (Pl : list (string * nat) -> list obj -> Prop) :
  h !! bundle = Some (ODict d) ->
  stable Pr -> stable Pb -> stable Pap -> stable Pw ->
  (forall h0, h `prefix_of` h0 ->
     runs h0 (extract_roads d) (fun r h1 => h0 `prefix_of` h1 /\ Pr r h1)) ->
  (forall h0, h `prefix_of` h0 ->
     runs h0 (extract_buildings d) (fun r h1 => h0 `prefix_of` h1 /\ Pb r h1)) ->
  (forall h0, h `prefix_of` h0 ->
     runs h0 (extract_amenities_pois d wanted_amenities wanted_pois)
          (fun r h1 => h0 `prefix_of` h1 /\ Pap r h1)) ->
  (forall h0, h `prefix_of` h0 ->
     runs h0 (extract_waterways d) (fun r h1 => h0 `prefix_of` h1 /\ Pw r h1)) ->
  (forall h0, h `prefix_of` h0 ->
     runs h0 (extract_landuse d) (fun r h1 => h0 `prefix_of` h1 /\ Pl r h1)) ->
  runs h (extract_layers bundle wanted_amenities wanted_pois)
       (fun layers h' =>
          h `prefix_of` h'
          /\ Pr (roads layers) h' /\ Pb (buildings layers) h'
          /\ Pap (amenities layers, pois layers) h'
          /\ Pw (waterways layers) h' /\ Pl (landuse layers) h').
Proof.
  intros Hb Sr Sb Sap Sw Hr Hbu Hap Hw Hl. unfold extract_layers.
  eapply (runs_bind _ _ _ (fun v h1 => v = d /\ h1 = h)).
  { exists d, h. split; [apply get_dict_run; exact Hb | now split]. }
  intros ? ? [-> ->].
  eapply runs_bind; [apply Hr; reflexivity | intros r h1 [Hpre1 Pr1]].
  eapply runs_bind; [apply Hbu; exact Hpre1 | intros b h2 [Hpre2 Pb2]].
  assert (H2 : h `prefix_of` h2) by (etrans; eassumption).
  eapply runs_bind; [apply Hap; exact H2 | intros [am po] h3 [Hpre3 Pap3]].
  assert (H3 : h `prefix_of` h3) by (etrans; eassumption).
  eapply runs_bind; [apply Hw; exact H3 | intros w h4 [Hpre4 Pw4]].
  assert (H4 : h `prefix_of` h4) by (etrans; eassumption).
  eapply runs_bind; [apply Hl; exact H4 | intros l h5 [Hpre5 Pl5]].
  apply runs_ret. cbn [roads buildings amenities pois waterways landuse].
  split; [etrans; eassumption|].
  split; [apply (Sr r h1); [exact Pr1|]; repeat (etrans; [eassumption|]); reflexivity|].
  split; [apply (Sb b h2); [exact Pb2|]; repeat (etrans; [eassumption|]); reflexivity|].
  split; [apply (Sap (am, po) h3); [exact Pap3|];
          repeat (etrans; [eassumption|]); reflexivity|].
  split; [apply (Sw w h4); [exact Pw4|]; exact Hpre5 | exact Pl5].
Qed.

(** The same for a call that returns: what each block gives when it
    returns is what the whole call gives. *)
Lemma extract_layers_returned h bundle d wanted_amenities wanted_pois
  (Pr Pb Pw : option nat -> list obj -> Prop)
  (Pap : list (string * nat) * list (string * nat) -> list obj -> Prop)
  (Pl : list (string * nat) -> list obj -> Prop) :
  h !! bundle = Some (ODict d) ->
  stable Pr -> stable Pb -> stable Pap -> stable Pw ->
  (forall h0, h `prefix_of` h0 ->
     returns h0 (extract_roads d) (fun r h1 => h0 `prefix_of` h1 /\ Pr r h1)) ->
  (forall h0, h `prefix_of` h0 ->
     returns h0 (extract_buildings d) (fun r h1 => h0 `prefix_of` h1 /\ Pb r h1)) ->
  (forall h0, h `prefix_of` h0 ->
     returns h0 (extract_amenities_pois d wanted_amenities wanted_pois)
          (fun r h1 => h0 `prefix_of` h1 /\ Pap r h1)) ->
  (forall h0, h `prefix_of` h0 ->
     returns h0 (extract_waterways d) (fun r h1 => h0 `prefix_of` h1 /\ Pw r h1)) ->
  (forall h0, h `prefix_of` h0 ->
     returns h0 (extract_landuse d) (fun r h1 => h0 `prefix_of` h1 /\ Pl r h1)) ->
  returns h (extract_layers bundle wanted_amenities wanted_pois)
       (fun layers h' =>
          h `prefix_of` h'
          /\ Pr (roads layers) h' /\ Pb (buildings layers) h'
          /\ Pap (amenities layers, pois layers) h'
          /\ Pw (waterways layers) h' /\ Pl (landuse layers) h').
Proof.
  intros Hb Sr Sb Sap Sw Hr Hbu Hap Hw Hl. unfold extract_layers.
  eapply (returns_bind _ _ _ (fun v h1 => v = d /\ h1 = h)).
  { apply runs_returns. exists d, h. split; [apply get_dict_run; exact Hb | now split]. }
  intros ? ? [-> ->].
  eapply returns_bind; [exact (Hr h (reflexivity h)) | intros r h1 [Hpre1 Pr1]].
  eapply returns_bind; [exact (Hbu h1 Hpre1) | intros b h2 [Hpre2 Pb2]].
  assert (H2 : h `prefix_of` h2) by (etrans; eassumption).
  eapply returns_bind; [exact (Hap h2 H2) | intros [am po] h3 [Hpre3 Pap3]].
  assert (H3 : h `prefix_of` h3) by (etrans; eassumption).
  eapply returns_bind; [exact (Hw h3 H3) | intros w h4 [Hpre4 Pw4]].
  assert (H4 : h `prefix_of` h4) by (etrans; eassumption).
  eapply returns_bind; [exact (Hl h4 H4) | intros l h5 [Hpre5 Pl5]].
  apply runs_returns, runs_ret. cbn [roads buildings amenities pois waterways landuse].
  split; [etrans; eassumption|].
  split; [apply (Sr r h1); [exact Pr1|]; repeat (etrans; [eassumption|]); reflexivity|].
  split; [apply (Sb b h2); [exact Pb2|]; repeat (etrans; [eassumption|]); reflexivity|].
  split; [apply (Sap (am, po) h3); [exact Pap3|];
          repeat (etrans; [eassumption|]); reflexivity|].
  split; [apply (Sw w h4); [exact Pw4|]; exact Hpre5 | exact Pl5].
Qed.

(** Whatever the bundle, a block that returns has only added objects. *)
Lemma idle_roads d h0 :
  returns h0 (extract_roads d) (fun _ h1 => h0 `prefix_of` h1 /\ True).
Proof. exact (keeps_returns h0 _ _ (StoreFacts.keeps_extract_roads (length h0) d)). Qed.

Lemma idle_buildings d h0 :
  returns h0 (extract_buildings d) (fun _ h1 => h0 `prefix_of` h1 /\ True).
Proof. exact (keeps_returns h0 _ _ (StoreFacts.keeps_extract_buildings (length h0) d)). Qed.

Lemma idle_amenities_pois d wa wp h0 :
  returns h0 (extract_amenities_pois d wa wp) (fun _ h1 => h0 `prefix_of` h1 /\ True).
Proof.
  exact (keeps_returns h0 _ _ (StoreFacts.keeps_extract_amenities_pois (length h0) d wa wp)).
Qed.

Lemma idle_waterways d h0 :
  returns h0 (extract_waterways d) (fun _ h1 => h0 `prefix_of` h1 /\ True).
Proof. exact (keeps_returns h0 _ _ (StoreFacts.keeps_extract_waterways (length h0) d)). Qed.

Lemma idle_landuse d h0 :
  returns h0 (extract_landuse d) (fun _ h1 => h0 `prefix_of` h1 /\ True).
Proof. exact (keeps_returns h0 _ _ (StoreFacts.keeps_extract_landuse (length h0) d)). Qed.

Lemma stable_True {A} : stable (fun (_ : A) (_ : list obj) => True).
Proof. intros ? ? ? ? ?. exact I. Qed.

Lemma stable_layer_is f : stable (fun r h => layer_is h r f).
Proof.
  intros r h h' Hl Hpre. unfold layer_is in *. destruct r, f; try exact Hl.
  eapply frame_at_prefix; eassumption.
Qed.

Section on_a_usable_bundle.
Context (h : list obj) (bundle : nat) (d : list (string * nat)).
Context (wanted_amenities wanted_pois : list string).
Hypothesis Husable : bundle_usable h bundle d.

Lemma usable_at h0 : h `prefix_of` h0 ->
  roads_usable h0 d /\ buildings_usable h0 d /\ pois_usable h0 d.
Proof. intros Hpre. exact (proj2 (usable_prefix h h0 bundle d Husable Hpre)). Qed.

Lemma any_roads h0 : h `prefix_of` h0 ->
  runs h0 (extract_roads d) (fun r h1 => h0 `prefix_of` h1 /\ True).
Proof.
  intros Hpre. eapply runs_weaken; [apply runs_extract_roads, (usable_at h0 Hpre)|].
  intros; now split.
Qed.

Lemma any_buildings h0 : h `prefix_of` h0 ->
  runs h0 (extract_buildings d) (fun r h1 => h0 `prefix_of` h1 /\ True).
Proof.
  intros Hpre. eapply runs_weaken; [apply runs_extract_buildings, (usable_at h0 Hpre)|].
  intros; now split.
Qed.

Lemma any_amenities_pois h0 : pois_aligned h d wanted_pois -> h `prefix_of` h0 ->
  runs h0 (extract_amenities_pois d wanted_amenities wanted_pois)
       (fun r h1 => h0 `prefix_of` h1 /\ True).
Proof.
  intros Hal Hpre. eapply runs_weaken.
  - apply runs_amenities_pois_any; [apply (usable_at h0 Hpre)|].
    intros pa geo p Hd Hp0. destruct Husable as (_ & _ & _ & Hpu).
    unfold pois_usable in Hpu. rewrite Hd in Hpu. destruct Hpu as (geo' & p' & Hp & _).
    rewrite (prefix_lookup_Some _ _ _ _ Hp Hpre) in Hp0. injection Hp0 as <- <-.
    exact (Hal pa geo' p' Hd Hp).
  - intros; now split.
Qed.

Lemma any_waterways h0 : h `prefix_of` h0 ->
  runs h0 (extract_waterways d) (fun r h1 => h0 `prefix_of` h1 /\ True).
Proof.
  intros Hpre. eapply runs_weaken; [apply runs_waterways_block, (usable_at h0 Hpre)|].
  intros ? ? [? _]; now split.
Qed.

Lemma any_landuse h0 : h `prefix_of` h0 ->
  runs h0 (extract_landuse d) (fun r h1 => h0 `prefix_of` h1 /\ True).
Proof.
  intros Hpre. eapply runs_weaken; [apply runs_landuse_any, (usable_at h0 Hpre)|].
  intros; now split.
Qed.
End on_a_usable_bundle.

(** On a usable bundle whose generic keys are aligned with the POI table
    the classifier returns. *)
Lemma extract_layers_runs h bundle d wanted_amenities wanted_pois :
  bundle_usable h bundle d ->
  pois_aligned h d wanted_pois ->
  exists layers h', extract_layers bundle wanted_amenities wanted_pois h = (Ok layers, h').
Proof.
  intros Hu Hal.
  destruct (extract_layers_by_blocks h bundle d wanted_amenities wanted_pois
              (fun _ _ => True) (fun _ _ => True) (fun _ _ => True) (fun _ _ => True)
              (fun _ _ => True))
    as (layers & h' & Hrun & _);
    try apply stable_True; try apply Hu;
    eauto using any_roads, any_buildings, any_amenities_pois, any_waterways, any_landuse.
Qed.
End LayerBlocks.

(** ** The layers of a usable bundle *)

Section classifier_more.
Import Store Layers StoreSpec LayerSpec LayerFacts LayerMore LayerBlocks.

Lemma town_is_usable : bundle_usable town_store 3 town_bundle.
Proof.
  split; [reflexivity|]. split; [|split].
  - exists town_edges. split; [reflexivity|]. split; [discriminate | reflexivity].
  - exists true, test_buildings. repeat split; reflexivity.
  - exists false, town_pois. repeat split; reflexivity.
Qed.

Lemma town_is_aligned (wanted_pois : list string) :
  pois_aligned town_store town_bundle wanted_pois.
Proof.
  intros pa geo p Hd Hp. injection Hd as <-. injection Hp as <- <-.
  apply Forall_forall. intros key _. right. split; reflexivity.
Qed.

(** On a bundle with a road graph, whenever the classifier returns, the
    roads layer is the edge table of the graph, all edges kept, cut down
    to those of the columns highway, name, oneway, length and maxspeed
    that the table has (in this order), followed by the geometry.  The
    classifier does return when every generic key names a column of the
    POI table or the table has both an amenity and a shop column. *)
Theorem roads_layer_is_the_edge_table
  (h : list obj) (bundle : nat) (d : list (string * nat))
  (wanted_amenities wanted_pois : list string) (g : nat) (edges : frame) :
  bundle_usable h bundle d ->
  dget "roads_graph" d = Some g ->
  h !! g = Some (OGraph edges) ->
  (forall layers h',
     extract_layers bundle wanted_amenities wanted_pois h = (Ok layers, h') ->
     layer_is h' (roads layers) (Some (expected_roads edges)))
  /\ (pois_aligned h d wanted_pois ->
      exists layers h',
        extract_layers bundle wanted_amenities wanted_pois h = (Ok layers, h')).
Proof.
  intros Hu Hd Hg. split; [|now apply extract_layers_runs].
  intros layers h' Hrun.
  refine (proj1 (proj2 (extract_layers_returned h bundle d wanted_amenities wanted_pois
            (fun r h1 => layer_is h1 r (Some (expected_roads edges)))
            (fun _ _ => True) (fun _ _ => True) (fun _ _ => True) (fun _ _ => True)
            (proj1 Hu) _ _ _ _ _ _ _ _ _ layers h' Hrun)));
    try apply stable_True; try apply stable_layer_is;
    try (intros h0 _;
         first [ exact (idle_buildings d h0)
               | exact (idle_amenities_pois d wanted_amenities wanted_pois h0)
               | exact (idle_waterways d h0) | exact (idle_landuse d h0) ]).
  intros h0 Hpre. apply runs_returns. eapply runs_weaken;
    [apply runs_roads_block, (usable_at h bundle d Hu h0 Hpre)|].
  intros r h1 [Hpre1 Hpost]. split; [exact Hpre1|]. rewrite Hd in Hpost.
  destruct Hpost as (edges' & a & Hg' & -> & Ha).
  rewrite (prefix_lookup_Some _ _ _ _ Hg Hpre) in Hg'. injection Hg' as <-. exact Ha.
Qed.

Lemma roads_layer_is_the_edge_table_witness :
  exists layers h',
    extract_layers 3 ["school"] ["bank"] town_store = (Ok layers, h')
    /\ layer_is h' (roads layers)
         (Some (Frame [Some "highway"; Some "geometry"]
                  [[(Some "highway", VStr "residential");
                    (Some "geometry",
                     VGeom (LineString [ParserSpec.pt 0 0; ParserSpec.pt 1 0]))]])).
Proof.
  destruct (roads_layer_is_the_edge_table town_store 3 town_bundle ["school"] ["bank"] 0
              town_edges town_is_usable eq_refl eq_refl) as [Hlayer Hruns].
  destruct (Hruns (town_is_aligned ["bank"])) as (layers & h' & Hrun).
  exists layers, h'. split; [exact Hrun | exact (Hlayer layers h' Hrun)].
Defined.

(** Whenever the classifier returns, the buildings layer holds exactly
    the rows of the buildings table whose geometry is a polygon or a
    multipolygon (rows without geometry and points or lines are dropped,
    whatever their [building] value), with those of the columns building,
    name, levels and height that the table has, followed by the geometry.
    The classifier does return when every generic key names a column of
    the POI table or the table has both an amenity and a shop column. *)
Theorem buildings_layer_keeps_polygons_only
  (h : list obj) (bundle : nat) (d : list (string * nat))
  (wanted_amenities wanted_pois : list string) (b : nat) (geo : bool) (f : frame) :
  bundle_usable h bundle d ->
  dget "buildings" d = Some b ->
  h !! b = Some (OFrame geo f) ->
  (forall layers h',
     extract_layers bundle wanted_amenities wanted_pois h = (Ok layers, h') ->
     layer_is h' (buildings layers) (Some (expected_buildings f)))
  /\ Forall (fun r => is_polygonal (cell r (Some "geometry")) = true)
            (rows (expected_buildings f))
  /\ length (rows (expected_buildings f)) = length (polygonal_rows f)
  /\ (pois_aligned h d wanted_pois ->
      exists layers h',
        extract_layers bundle wanted_amenities wanted_pois h = (Ok layers, h')).
Proof.
  intros Hu Hd Hb. split; [|split; [|split; [|now apply extract_layers_runs]]].
  - intros layers h' Hrun.
    refine (proj1 (proj2 (proj2 (extract_layers_returned h bundle d wanted_amenities
              wanted_pois
              (fun _ _ => True)
              (fun r h1 => layer_is h1 r (Some (expected_buildings f)))
              (fun _ _ => True) (fun _ _ => True) (fun _ _ => True)
              (proj1 Hu) _ _ _ _ _ _ _ _ _ layers h' Hrun))));
      try apply stable_True; try apply stable_layer_is;
      try (intros h0 _;
           first [ exact (idle_roads d h0)
                 | exact (idle_amenities_pois d wanted_amenities wanted_pois h0)
                 | exact (idle_waterways d h0) | exact (idle_landuse d h0) ]).
    intros h0 Hpre. apply runs_returns. eapply runs_weaken;
      [apply runs_buildings_block, (usable_at h bundle d Hu h0 Hpre)|].
    intros r h1 [Hpre1 Hpost]. split; [exact Hpre1|]. rewrite Hd in Hpost.
    destruct Hpost as (geo' & f' & a & Hb' & -> & Ha).
    rewrite (prefix_lookup_Some _ _ _ _ Hb Hpre) in Hb'. injection Hb' as <- <-. exact Ha.
  - unfold expected_buildings, kept_table, select_columns. cbn [rows].
    apply Forall_forall. intros r Hr'. apply list_elem_of_fmap in Hr' as (r0 & -> & Hr0).
    unfold polygonal_rows in Hr0. apply list_elem_of_In, filter_In in Hr0 as [_ Hpoly].
    rewrite TableFacts.cell_project; [exact Hpoly|]. cbn [columns].
    destruct (keep ["building"; "name"; "levels"; "height"] (columns f));
      [left|]. rewrite map_app. apply elem_of_app. right. left.
  - unfold expected_buildings, kept_table, select_columns. cbn [rows].
    now rewrite length_map.
Qed.

Lemma buildings_layer_keeps_polygons_only_witness :
  exists layers h',
    extract_layers 3 ["school"] ["bank"] town_store = (Ok layers, h')
    /\ layer_is h' (buildings layers)
         (Some (Frame [Some "building"; Some "name"; Some "geometry"]
                  [[(Some "building", VStr "yes"); (Some "name", VStr "A");
                    (Some "geometry",
                     VGeom (Polygon [ParserSpec.pt 0 0; ParserSpec.pt 1 0;
                                     ParserSpec.pt 1 1; ParserSpec.pt 0 1]))]])).
Proof.
  destruct (buildings_layer_keeps_polygons_only town_store 3 town_bundle ["school"]
              ["bank"] 1 true test_buildings town_is_usable eq_refl eq_refl)
    as (Hlayer & _ & _ & Hruns).
  destruct (Hruns (town_is_aligned ["bank"])) as (layers & h' & Hrun).
  exists layers, h'. split; [exact Hrun | exact (Hlayer layers h' Hrun)].
Defined.

(** On a bundle with a POI table, whenever the classifier returns, each
    requested amenity [a] has the layer of the features (with a geometry)
    whose [amenity] is exactly [a], with the columns amenity, name (if the
    table has it) and geometry; an amenity without such a feature has no
    entry, and neither has any amenity that was not requested or any
    amenity at all when the table has no [amenity] column.  The classifier
    does return when every generic key names a column of the POI table or
    the table has both an amenity and a shop column. *)
Theorem amenity_layers_match_exactly
  (h : list obj) (bundle : nat) (d : list (string * nat))
  (wanted_amenities wanted_pois : list string) (pa : nat) (geo : bool) (p : frame) :
  bundle_usable h bundle d ->
  dget "pois" d = Some pa ->
  h !! pa = Some (OFrame geo p) ->
  (forall layers h',
     extract_layers bundle wanted_amenities wanted_pois h = (Ok layers, h') ->
     (forall a, a ∈ wanted_amenities ->
        layer_is h' (dget a (amenities layers)) (expected_amenity_layer p a))
     /\ (forall a, a ∉ wanted_amenities -> dget a (amenities layers) = None))
  /\ (pois_aligned h d wanted_pois ->
      exists layers h',
        extract_layers bundle wanted_amenities wanted_pois h = (Ok layers, h')).
Proof.
  intros Hu Hd Hp. split; [|now apply extract_layers_runs].
  intros layers h' Hrun.
  refine (proj1 (proj2 (proj2 (proj2 (extract_layers_returned h bundle d wanted_amenities
            wanted_pois
            (fun _ _ => True) (fun _ _ => True) (fun _ _ => True)
            (fun ap h1 =>
               (forall a, a ∈ wanted_amenities ->
                  layer_is h1 (dget a (fst ap)) (expected_amenity_layer p a))
               /\ (forall a, a ∉ wanted_amenities -> dget a (fst ap) = None))
            (fun _ _ => True)
            (proj1 Hu) _ _ _ _ _ _ _ _ _ layers h' Hrun)))));
    try apply stable_True;
    try (intros h0 _;
         first [ exact (idle_roads d h0) | exact (idle_buildings d h0)
               | exact (idle_waterways d h0) | exact (idle_landuse d h0) ]).
  - intros ap h1 h2 [Hin Hout] Hpre. split; [|exact Hout].
    intros a Ha. eapply (stable_layer_is _ _ h1); [now apply Hin | exact Hpre].
  - intros h0 Hpre. eapply returns_weaken;
      [apply returns_amenities_pois_block, (usable_at h bundle d Hu h0 Hpre)|].
    intros r h1 [Hpre1 Hpost]. split; [exact Hpre1|]. rewrite Hd in Hpost.
    destruct Hpost as (geo' & p' & Hp' & Hin & Hout).
    rewrite (prefix_lookup_Some _ _ _ _ Hp Hpre) in Hp'. injection Hp' as <- <-.
    now split.
Qed.

Lemma amenity_layers_match_exactly_witness :
  exists layers h',
    extract_layers 3 ["school"; "hospital"] ["bank"] town_store = (Ok layers, h')
    /\ layer_is h' (dget "school" (amenities layers))
         (Some (Frame [Some "amenity"; Some "name"; Some "geometry"]
                  [[(Some "amenity", VStr "school"); (Some "name", VStr "S");
                    (Some "geometry", VGeom (Point (ParserSpec.pt 1 1)))]]))
    /\ dget "hospital" (amenities layers) = None.
Proof.
  destruct (amenity_layers_match_exactly town_store 3 town_bundle ["school"; "hospital"]
              ["bank"] 2 false town_pois town_is_usable eq_refl eq_refl)
    as [Hlayer Hruns].
  destruct (Hruns (town_is_aligned ["bank"])) as (layers & h' & Hrun).
  destruct (Hlayer layers h' Hrun) as [Hin _].
  exists layers, h'. split; [exact Hrun|]. split.
  - apply (Hin "school"). left.
  - pose proof (Hin "hospital" ltac:(right; left)) as Hh.
    destruct (dget "hospital" (amenities layers)); [exact (False_ind _ Hh) | reflexivity].
Defined.

(** Whenever the classifier returns, the waterways layer holds the
    features (with a geometry) whose [waterway] is present, with those of
    the columns waterway, name, width, tunnel and bridge that the table
    has, followed by the geometry; there is no layer when the table has no
    [waterway] column or no such feature.  The classifier does return when
    every generic key names a column of the POI table or the table has
    both an amenity and a shop column. *)
Theorem waterways_layer_has_the_tagged_features
  (h : list obj) (bundle : nat) (d : list (string * nat))
  (wanted_amenities wanted_pois : list string) (pa : nat) (geo : bool) (p : frame) :
  bundle_usable h bundle d ->
  dget "pois" d = Some pa ->
  h !! pa = Some (OFrame geo p) ->
  (forall layers h',
     extract_layers bundle wanted_amenities wanted_pois h = (Ok layers, h') ->
     layer_is h' (waterways layers) (expected_waterways p))
  /\ (pois_aligned h d wanted_pois ->
      exists layers h',
        extract_layers bundle wanted_amenities wanted_pois h = (Ok layers, h')).
Proof.
  intros Hu Hd Hp. split; [|now apply extract_layers_runs].
  intros layers h' Hrun.
  refine (proj1 (proj2 (proj2 (proj2 (proj2 (extract_layers_returned h bundle d
            wanted_amenities wanted_pois
            (fun _ _ => True) (fun _ _ => True)
            (fun r h1 => layer_is h1 r (expected_waterways p))
            (fun _ _ => True) (fun _ _ => True)
            (proj1 Hu) _ _ _ _ _ _ _ _ _ layers h' Hrun))))));
    try apply stable_True; try apply stable_layer_is;
    try (intros h0 _;
         first [ exact (idle_roads d h0) | exact (idle_buildings d h0)
               | exact (idle_amenities_pois d wanted_amenities wanted_pois h0)
               | exact (idle_landuse d h0) ]).
  intros h0 Hpre. apply runs_returns. eapply runs_weaken;
    [apply runs_waterways_block, (usable_at h bundle d Hu h0 Hpre)|].
  intros r h1 [Hpre1 Hpost]. split; [exact Hpre1|]. rewrite Hd in Hpost.
  destruct Hpost as (geo' & p' & Hp' & Hw).
  rewrite (prefix_lookup_Some _ _ _ _ Hp Hpre) in Hp'. injection Hp' as <- <-. exact Hw.
Qed.

Lemma waterways_layer_has_the_tagged_features_witness :
  exists layers h',
    extract_layers 3 ["school"] ["bank"] town_store = (Ok layers, h')
    /\ layer_is h' (waterways layers)
         (Some (Frame [Some "waterway"; Some "name"; Some "geometry"]
                  [[(Some "waterway", VStr "river"); (Some "name", VStr "R");
                    (Some "geometry",
                     VGeom (LineString [ParserSpec.pt 0 0; ParserSpec.pt 2 2]))]])).
Proof.
  destruct (waterways_layer_has_the_tagged_features town_store 3 town_bundle ["school"]
              ["bank"] 2 false town_pois town_is_usable eq_refl eq_refl)
    as [Hlayer Hruns].
  destruct (Hruns (town_is_aligned ["bank"])) as (layers & h' & Hrun).
  exists layers, h'. split; [exact Hrun | exact (Hlayer layers h' Hrun)].
Defined.

(** When the [landuse] values of the POI table are strings (or missing)
    and the classifier returns, the land-use layers are exactly one per
    distinct value: [landuse[k]] holds the features (with a geometry)
    whose [landuse] is [k], with those of the columns landuse, name and
    area that the table has, followed by the geometry, and a [k] that no
    feature carries has no entry.  The classifier does return when every
    generic key names a column of the POI table or the table has both an
    amenity and a shop column. *)
Theorem landuse_layers_group_by_value
  (h : list obj) (bundle : nat) (d : list (string * nat))
  (wanted_amenities wanted_pois : list string) (pa : nat) (geo : bool) (p : frame) :
  bundle_usable h bundle d ->
  dget "pois" d = Some pa ->
  h !! pa = Some (OFrame geo p) ->
  Forall (fun r => textual (cell r (Some "landuse")) = true) (rows p) ->
  (forall layers h',
     extract_layers bundle wanted_amenities wanted_pois h = (Ok layers, h') ->
     forall k, layer_is h' (dget k (landuse layers)) (expected_landuse_layer p k))
  /\ (pois_aligned h d wanted_pois ->
      exists layers h',
        extract_layers bundle wanted_amenities wanted_pois h = (Ok layers, h')).
Proof.
  intros Hu Hd Hp Htext. split; [|now apply extract_layers_runs].
  intros layers h' Hrun.
  refine (proj2 (proj2 (proj2 (proj2 (proj2 (extract_layers_returned h bundle d
            wanted_amenities wanted_pois
            (fun _ _ => True) (fun _ _ => True) (fun _ _ => True) (fun _ _ => True)
            (fun l h1 => forall k, layer_is h1 (dget k l) (expected_landuse_layer p k))
            (proj1 Hu) _ _ _ _ _ _ _ _ _ layers h' Hrun))))));
    try apply stable_True;
    try (intros h0 _;
         first [ exact (idle_roads d h0) | exact (idle_buildings d h0)
               | exact (idle_amenities_pois d wanted_amenities wanted_pois h0)
               | exact (idle_waterways d h0) ]).
  intros h0 Hpre. apply runs_returns. eapply runs_weaken.
  - apply runs_landuse_block; [apply (usable_at h bundle d Hu h0 Hpre)|].
    intros pa' geo' p' Hd' Hp'. rewrite Hd in Hd'. injection Hd' as <-.
    rewrite (prefix_lookup_Some _ _ _ _ Hp Hpre) in Hp'. injection Hp' as <- <-.
    exact Htext.
  - intros r h1 [Hpre1 Hpost]. split; [exact Hpre1|]. rewrite Hd in Hpost.
    destruct Hpost as (geo' & p' & Hp' & Hl).
    rewrite (prefix_lookup_Some _ _ _ _ Hp Hpre) in Hp'. injection Hp' as <- <-. exact Hl.
Qed.

Lemma landuse_layers_group_by_value_witness :
  exists layers h',
    extract_layers 3 ["school"] ["bank"] town_store = (Ok layers, h')
    /\ layer_is h' (dget "forest" (landuse layers))
         (Some (Frame [Some "landuse"; Some "name"; Some "geometry"]
                  [[(Some "landuse", VStr "forest"); (Some "name", VNone);
                    (Some "geometry",
                     VGeom (Polygon [ParserSpec.pt 0 0; ParserSpec.pt 1 0;
                                     ParserSpec.pt 1 1; ParserSpec.pt 0 0]))]]))
    /\ layer_is h' (dget "meadow" (landuse layers)) None.
Proof.
  destruct (landuse_layers_group_by_value town_store 3 town_bundle ["school"] ["bank"]
              2 false town_pois town_is_usable eq_refl eq_refl)
    as [Hlayer Hruns].
  - repeat constructor.
  - destruct (Hruns (town_is_aligned ["bank"])) as (layers & h' & Hrun).
    exists layers, h'. split; [exact Hrun|]. split.
    + apply (Hlayer layers h' Hrun "forest").
    + apply (Hlayer layers h' Hrun "meadow").
Defined.

(** A layer needs its entry in the bundle: whenever the classifier
    returns, there is no roads layer without a [roads_graph] entry, no
    buildings layer without a [buildings] entry, and no amenity, POI,
    waterway or land-use layer without a [pois] entry.  On the empty
    bundle it returns the empty layers and allocates nothing. *)
Theorem no_entry_no_layer
  (h : list obj) (bundle : nat) (d : list (string * nat))
  (wanted_amenities wanted_pois : list string) :
  h !! bundle = Some (ODict d) ->
  (forall layers h',
     extract_layers bundle wanted_amenities wanted_pois h = (Ok layers, h') ->
     (dget "roads_graph" d = None -> roads layers = None)
     /\ (dget "buildings" d = None -> buildings layers = None)
     /\ (dget "pois" d = None ->
         amenities layers = [] /\ pois layers = [] /\ waterways layers = None
         /\ landuse layers = []))
  /\ (d = [] ->
      extract_layers bundle wanted_amenities wanted_pois h
      = (Ok (Extracted None None [] [] None []), h)).
Proof.
  intros Hb. split.
  - intros layers h' Hrun. unfold extract_layers in Hrun.
    rewrite IOFacts.bind_run, (get_dict_run h bundle d Hb) in Hrun.
    rewrite IOFacts.bind_run in Hrun.
    destruct (extract_roads d h) as [[r|e] h1] eqn:Er; [|discriminate].
    rewrite IOFacts.bind_run in Hrun.
    destruct (extract_buildings d h1) as [[b|e] h2] eqn:Eb; [|discriminate].
    rewrite IOFacts.bind_run in Hrun.
    destruct (extract_amenities_pois d wanted_amenities wanted_pois h2)
      as [[ap|e] h3] eqn:Eap; [|discriminate].
    rewrite IOFacts.bind_run in Hrun.
    destruct (extract_waterways d h3) as [[w|e] h4] eqn:Ew; [|discriminate].
    rewrite IOFacts.bind_run in Hrun.
    destruct (extract_landuse d h4) as [[l|e] h5] eqn:El; [|discriminate].
    injection Hrun as <- <-. cbn [roads buildings amenities pois waterways landuse].
    split; [|split].
    + intros Hd. unfold extract_roads in Er. rewrite Hd in Er. now injection Er as <- _.
    + intros Hd. unfold extract_buildings in Eb. rewrite Hd in Eb.
      now injection Eb as <- _.
    + intros Hd. unfold extract_amenities_pois in Eap. unfold extract_waterways in Ew.
      unfold extract_landuse in El. rewrite Hd in Eap, Ew, El.
      injection Eap as <- _. injection Ew as <- _. injection El as <- _.
      repeat split; reflexivity.
  - intros ->. unfold extract_layers.
    rewrite IOFacts.bind_run, (get_dict_run h bundle [] Hb). reflexivity.
Qed.

Lemma no_entry_no_layer_witness :
  extract_layers 0 ["school"] ["bank"] [ODict []]
  = (Ok (Extracted None None [] [] None []), [ODict []]).
Proof.
  apply (proj2 (no_entry_no_layer [ODict []] 0 [] ["school"] ["bank"] eq_refl)).
  reflexivity.
Defined.

(** A POI table without a geometry column makes the classifier fail,
    whatever was requested: with [AttributeError] on [p.geometry] when the
    table is a geo frame, with the constructor's [ValueError] when it is a
    plain frame. *)
Theorem poi_table_without_geometry_is_refused
  (h : list obj) (bundle : nat) (d : list (string * nat))
  (wanted_amenities wanted_pois : list string) (pa : nat) (geo : bool) (p : frame) :
  h !! bundle = Some (ODict d) ->
  roads_usable h d -> buildings_usable h d ->
  dget "pois" d = Some pa ->
  h !! pa = Some (OFrame geo p) ->
  has_column p (Some "geometry") = false ->
  exists h',
    extract_layers bundle wanted_amenities wanted_pois h
    = (Raise (if geo then AttributeError else ValueError "Unknown column geometry"), h').
Proof.
  intros Hb Hr Hbu Hd Hp Hg.
  destruct (runs_extract_roads h d Hr) as (r & h1 & Er & Hpre1).
  assert (Hbu1 : buildings_usable h1 d).
  { unfold buildings_usable in *. destruct (dget "buildings" d); [|exact I].
    destruct Hbu as (g' & f & Hf & Hc). exists g', f.
    split; [eapply prefix_lookup_Some; eassumption | exact Hc]. }
  destruct (runs_extract_buildings h1 d Hbu1) as (b & h2 & Eb & Hpre2).
  assert (Hp2 : h2 !! pa = Some (OFrame geo p)).
  { eapply prefix_lookup_Some; [|exact Hpre2]. eapply prefix_lookup_Some; eassumption. }
  exists h2. unfold extract_layers.
  rewrite IOFacts.bind_run, (get_dict_run h bundle d Hb).
  rewrite IOFacts.bind_run, Er. rewrite IOFacts.bind_run, Eb.
  rewrite IOFacts.bind_run.
  assert (Hfail : extract_amenities_pois d wanted_amenities wanted_pois h2
                  = (Raise (if geo then AttributeError
                            else ValueError "Unknown column geometry"), h2)).
  { unfold extract_amenities_pois. rewrite Hd. rewrite IOFacts.bind_run.
    assert (Hpf : pois_frame pa h2
                  = (Raise (if geo then AttributeError
                            else ValueError "Unknown column geometry"), h2)).
    { unfold pois_frame, is_geodataframe, to_geodataframe, get_geometry.
      rewrite !IOFacts.bind_run. unfold deref at 1. rewrite Hp2.
      cbv beta iota delta [ret]. destruct geo.
      - rewrite !IOFacts.bind_run, (get_frame_run h2 pa true p Hp2).
        cbn [snd]. now rewrite Hg.
      - rewrite !IOFacts.bind_run, (get_frame_run h2 pa false p Hp2).
        cbn [snd]. now rewrite Hg. }
    now rewrite Hpf. }
  now rewrite Hfail.
Qed.

Lemma poi_table_without_geometry_is_refused_witness :
  exists h',
    extract_layers 1%nat ["school"] ["bank"]
      [OFrame false (Frame [Some "amenity"] [[(Some "amenity", VStr "school")]]);
       ODict [("pois", 0%nat)]]
    = (Raise (ValueError "Unknown column geometry"), h').
Proof.
  apply (poi_table_without_geometry_is_refused
           [OFrame false (Frame [Some "amenity"] [[(Some "amenity", VStr "school")]]);
            ODict [("pois", 0%nat)]]
           1%nat [("pois", 0%nat)] ["school"] ["bank"] 0%nat false
           (Frame [Some "amenity"] [[(Some "amenity", VStr "school")]])).
  - reflexivity.
  - exact I.
  - exact I.
  - reflexivity.
  - reflexivity.
  - reflexivity.
Defined.
End classifier_more.
